(** * Line annotation layer of the MyST editor preview

    A shallow embedding of [src/hooks/markdownSourceMap.js]: the plugin that
    wraps the output rules of a markdown-it renderer so that every rendered
    fragment carries a [data-line-id] attribute, and that records in a Line
    Map which identifier stands for which source line.

    JavaScript values are modelled as follows.
    - strings: [string], the bytes of the text; the methods the plugin
      calls ([indexOf], [slice], [startsWith], [split], [join], [replace])
      are in [Module JS].  The plugin searches for ASCII characters only,
      and cutting at an index that [indexOf] found cuts the bytes where it
      cuts the JavaScript string.  The one call that depends on how wide a
      character is is [slice] at [-1], reached when [indexOf] finds
      nothing: it counts one UTF-16 unit from the end, here one byte,
      which is the same for a string that ends in an ASCII character;
    - line numbers: [Z] (the parser and the host only hand out integers);
    - [env.lineMap.current], a JS [Map] keyed by line number: [gmap Z string];
    - [md.renderer.rules], a JS object keyed by token type: [gmap string Rule];
    - the token array handed to a rule, which the rule mutates in place:
      the [tokens] component of the [World] threaded through the monad [M];
    - a thrown [TypeError] (property access on [undefined]/[null], iterating
      [null], calling [undefined]): the result [TypeError]. *)

From Stdlib Require Import ZArith Ascii String List Lia.
From stdpp Require Import base option list gmap strings.

Local Open Scope Z_scope.

(** ** JavaScript string primitives used by the plugin *)

Module JS.

(** The double-quote character, spelled by its code. *)
Definition dquote : ascii := ascii_of_nat 34.
Definition newline : ascii := ascii_of_nat 10.

Definition str (c : ascii) : string := String c EmptyString.

(** Position of the first occurrence of the one-character needle [c]. *)
Fixpoint find (c : ascii) (s : string) : option nat :=
  match s with
  | EmptyString => None
  | String a s' =>
      if Ascii.eqb a c then Some O
      else match find c s' with
           | Some n => Some (S n)
           | None => None
           end
  end.

(** [s.indexOf(c)]: the position, or [-1] when [c] does not occur. *)
Definition indexOf (c : ascii) (s : string) : Z :=
  match find c s with
  | Some n => Z.of_nat n
  | None => -1
  end.

(** Clamping of a [slice] argument: a negative index counts from the end. *)
Definition clamp (len i : Z) : Z :=
  if i <? 0 then Z.max (len + i) 0 else Z.min i len.

(** [s.slice(b, e)]. *)
Definition slice (s : string) (b e : Z) : string :=
  let len := Z.of_nat (String.length s) in
  let from := clamp len b in
  let to := clamp len e in
  substring (Z.to_nat from) (Z.to_nat (Z.max (to - from) 0)) s.

(** [s.slice(b)]. *)
Definition sliceFrom (s : string) (b : Z) : string :=
  slice s b (Z.of_nat (String.length s)).

(** [s.startsWith(p)]. *)
Definition startsWith (p s : string) : bool := String.prefix p s.

(** [s.split(c)] for a one-character separator: never the empty list. *)
Fixpoint split (c : ascii) (s : string) : list string :=
  match s with
  | EmptyString => [EmptyString]
  | String a s' =>
      if Ascii.eqb a c then EmptyString :: split c s'
      else match split c s' with
           | h :: t => String a h :: t
           | [] => [str a]
           end
  end.

(** [l.join(sep)]. *)
Definition join (sep : string) (l : list string) : string :=
  String.concat sep l.

(** [s.replace(c, empty)] with a string pattern: only the first
    occurrence of [c] is removed. *)
Fixpoint removeFirst (c : ascii) (s : string) : string :=
  match s with
  | EmptyString => EmptyString
  | String a s' => if Ascii.eqb a c then s' else String a (removeFirst c s')
  end.

(** [l.filter((x, i, arr) => p x i arr)]: the callback sees the element,
    its index and the whole array. *)
Fixpoint filterFrom {A} (p : A -> nat -> list A -> bool)
    (whole : list A) (i : nat) (l : list A) : list A :=
  match l with
  | [] => []
  | x :: l' =>
      if p x i whole then x :: filterFrom p whole (S i) l'
      else filterFrom p whole (S i) l'
  end.

Definition filter {A} (p : A -> nat -> list A -> bool) (l : list A) : list A :=
  filterFrom p l O l.

End JS.

(** ** The parts of markdown-it the plugin calls *)

Module MarkdownIt.

(** A token of the parsed stream, with the fields the plugin reads or
    writes: [type], [map] (the source span, [null] when unknown),
    [children] ([null] except on inline tokens), [attrs] and [content]. *)
Local Unset Elimination Schemes.
Inductive Token : Type :=
  mkToken (type : string) (map : option (Z * Z))
          (children : option (list Token))
          (attrs : list (string * string)) (content : string).
Local Set Elimination Schemes.

Definition type (t : Token) : string :=
  match t with mkToken ty _ _ _ _ => ty end.
Definition map (t : Token) : option (Z * Z) :=
  match t with mkToken _ m _ _ _ => m end.
Definition children (t : Token) : option (list Token) :=
  match t with mkToken _ _ c _ _ => c end.
Definition attrs (t : Token) : list (string * string) :=
  match t with mkToken _ _ _ a _ => a end.
Definition content (t : Token) : string :=
  match t with mkToken _ _ _ _ c => c end.

Definition setMap (m : option (Z * Z)) (t : Token) : Token :=
  mkToken (type t) m (children t) (attrs t) (content t).
Definition setChildren (c : option (list Token)) (t : Token) : Token :=
  mkToken (type t) (map t) c (attrs t) (content t).
Definition setAttrs (a : list (string * string)) (t : Token) : Token :=
  mkToken (type t) (map t) (children t) a (content t).

(** Modelled from the spec: the attribute bag of a token is a "mutable,
    ordered key to string mapping, renderable into markup"; markdown-it's
    [Token.attrSet], [Token.attrGet] and [Renderer.renderAttrs] are library
    code outside this repository.  [attrSet] overwrites the first entry
    with that name, or appends a new entry. *)
Fixpoint attrSetList (name value : string) (l : list (string * string))
    : list (string * string) :=
  match l with
  | [] => [(name, value)]
  | (n, v) :: l' =>
      if String.eqb n name then (name, value) :: l'
      else (n, v) :: attrSetList name value l'
  end.

(** Modelled from the spec: [token.attrSet(name, value)] on the "mutable"
    attribute bag. *)
Definition attrSet (name value : string) (t : Token) : Token :=
  setAttrs (attrSetList name value (attrs t)) t.

(** Modelled from the spec: the value the "key to string mapping" holds
    for [name], as [token.attrGet(name)] reads it. *)
Fixpoint attrGetList (name : string) (l : list (string * string))
    : option string :=
  match l with
  | [] => None
  | (n, v) :: l' => if String.eqb n name then Some v else attrGetList name l'
  end.

Definition attrGet (name : string) (t : Token) : option string :=
  attrGetList name (attrs t).

(** Modelled from the spec: "escape content for safe embedding";
    [escapeHtml] is imported from markdown-it's utilities and replaces
    each of the four characters that are special in markup by its
    entity, leaving every other character (line breaks included) alone. *)
Definition replaceUnsafeChar (c : ascii) : string :=
  if Ascii.eqb c "&" then "&amp;"
  else if Ascii.eqb c "<" then "&lt;"
  else if Ascii.eqb c ">" then "&gt;"
  else if Ascii.eqb c JS.dquote then "&quot;"
  else JS.str c.

(** Modelled from the spec: "escape content for safe embedding", one
    character at a time. *)
Fixpoint escapeHtml (s : string) : string :=
  match s with
  | EmptyString => EmptyString
  | String c s' => replaceUnsafeChar c +:+ escapeHtml s'
  end.

(** Modelled from the spec: the attribute bag "renderable into markup";
    [Renderer.renderAttrs] prints every entry as [ name="value"], with a
    leading space, in bag order. *)
Definition attrMarkup (n v : string) : string :=
  " " +:+ escapeHtml n +:+ "=" +:+ JS.str JS.dquote +:+ escapeHtml v
      +:+ JS.str JS.dquote.

Fixpoint renderAttrsList (l : list (string * string)) : string :=
  match l with
  | [] => EmptyString
  | (n, v) :: l' => attrMarkup n v +:+ renderAttrsList l'
  end.

(** Modelled from the spec: [self.renderAttrs(token)], the attribute bag
    "renderable into markup". *)
Definition renderAttrs (t : Token) : string := renderAttrsList (attrs t).

End MarkdownIt.

Export MarkdownIt.

(** ** The state of a render pass *)

(** The Render Pass Context [env]: [startLine], [chunkId] and the Line Map
    [env.lineMap.current]. *)
Record Env : Type := mkEnv {
  startLine : Z;
  chunkId : Z;
  lineMap : gmap Z string
}.

(** What a rule can observe and mutate: the token array it was handed, the
    pass context, and how many identifiers have been drawn so far. *)
Record World : Type := mkWorld {
  tokens : list Token;
  env : Env;
  minted : nat
}.

Inductive Res (A : Type) : Type :=
| Ok (a : A) (w : World)
| TypeError.
Arguments Ok {A} a w.
Arguments TypeError {A}.

Definition M (A : Type) : Type := World -> Res A.

Definition ret {A} (a : A) : M A := fun w => Ok a w.

Definition bind {A B} (m : M A) (k : A -> M B) : M B :=
  fun w => match m w with
           | Ok a w' => k a w'
           | TypeError => TypeError
           end.

Definition throw {A} : M A := fun _ => TypeError.

Declare Scope js_scope.
Delimit Scope js_scope with js.
Notation "x <- m ;; k" := (bind m (fun x => k))
  (at level 100, m at next level, right associativity) : js_scope.
Notation "m ;;; k" := (bind m (fun _ => k))
  (at level 100, right associativity) : js_scope.
Local Open Scope js_scope.

(** A renderer rule [(tokens, idx, options, env, self) => html]. *)
Definition Rule : Type := nat -> M string.

(** [tokens[idx]] followed by a property access: throws on [undefined]. *)
Definition getToken (idx : nat) : M Token :=
  fun w => match tokens w !! idx with
           | Some t => Ok t w
           | None => TypeError
           end.

(** In-place mutation of the object [tokens[idx]]. *)
Definition updToken (idx : nat) (f : Token -> Token) : M unit :=
  fun w => Ok tt (mkWorld (alter f idx (tokens w)) (env w) (minted w)).

(** [env.lineMap.current.set(line, id)]. *)
Definition lineMapSet (line : Z) (id : string) : M unit :=
  fun w => Ok tt (mkWorld (tokens w)
                    (mkEnv (startLine (env w)) (chunkId (env w))
                           (<[line := id]> (lineMap (env w))))
                    (minted w)).

Definition getEnv : M Env := fun w => Ok (env w) w.

(** ** The plugin *)

Definition SRC_LINE_ID : string := "data-line-id".

Definition inlineContainers : list string := ["paragraph_open"; "heading_open"].
Definition excludeRules : list string := ["softbreak"].

(** [arr.includes(x)] on an array of strings. *)
Definition includes (arr : list string) (x : string) : bool :=
  existsb (String.eqb x) arr.

(** [n - (env.chunkId !== 0)]: the boolean is coerced to [1] or [0]. *)
Definition chunkCorrection (e : Env) : Z :=
  if chunkId e =? 0 then 0 else 1.

Section Plugin.

(** [Math_random n] is the text [Math.random().toString()] of the [n]-th
    draw of the pass. *)
Variable Math_random : nat -> string.

(** [self.renderToken], markdown-it's generic tag renderer. *)
Variable renderToken : Rule.

(** [randomLineId()]: the next draw, with its decimal point removed. *)
Definition lineId (n : nat) : string := JS.removeFirst "." (Math_random n).

Definition randomLineId : M string :=
  fun w => Ok (lineId (minted w)) (mkWorld (tokens w) (env w) (S (minted w))).

(** The loop over [inlineToken.children] of [addLineNumberToTokens], with
    its two variables [lineInParagraph] and [lineUsed].  [m] is
    [tokens[idx].map]; reading [m[0]] when [m] is [null] throws. *)
Fixpoint walkChildren (m : option (Z * Z)) (lineInParagraph : Z)
    (lineUsed : bool) (cs : list Token) : option (list Token) :=
  match cs with
  | [] => Some []
  | childToken :: rest =>
      if String.eqb (type childToken) "softbreak" then
        cons childToken <$> walkChildren m (lineInParagraph + 1) false rest
      else if negb lineUsed then
        match m with
        | None => None
        | Some (s, _) =>
            cons (setMap (Some (s + lineInParagraph,
                                s + lineInParagraph + 1)) childToken)
              <$> walkChildren m lineInParagraph true rest
        end
      else cons childToken <$> walkChildren m lineInParagraph lineUsed rest
  end.

(** Lines 35-57: the annotation that precedes the delegation. *)
Definition annotate (idx : nat) : M unit :=
  tok <- getToken idx ;;
  if includes inlineContainers (type tok) then
    inlineToken <- getToken (idx + 1) ;;
    match children inlineToken with
    | None => throw
    | Some cs =>
        match walkChildren (map tok) 0 false cs with
        | None => throw
        | Some cs' => updToken (idx + 1) (setChildren (Some cs'))
        end
    end
  else
    match map tok with
    | Some (s, _) =>
        e <- getEnv ;;
        let line := s + startLine e - chunkCorrection e in
        id <- randomLineId ;;
        lineMapSet line id ;;;
        updToken idx (attrSet SRC_LINE_ID id)
    | None => ret tt
    end.

(** The world after the [else if] branch has annotated the token [tok]
    found at [idx], with [line] the absolute line computed for it. *)
Definition annotated (idx : nat) (tok : Token) (line : Z) (w : World) : World :=
  mkWorld (<[idx := attrSet SRC_LINE_ID (lineId (minted w)) tok]> (tokens w))
          (mkEnv (startLine (env w)) (chunkId (env w))
                 (<[line := lineId (minted w)]> (lineMap (env w))))
          (S (minted w)).

(** Lines 59-65: run the wrapped rule, or the generic renderer when the
    type had no rule. *)
Definition delegate (defaultRule : option Rule) : Rule :=
  match defaultRule with
  | Some rule => rule
  | None => renderToken
  end.

Definition addLineNumberToTokens (defaultRule : option Rule) : Rule :=
  fun idx => annotate idx ;;; delegate defaultRule idx.

(** Calling a rule read from the registry; calling [undefined] throws. *)
Definition call (rule : option Rule) : Rule :=
  match rule with
  | Some f => f
  | None => fun _ => throw
  end.

(** [newRule] of [overrideDefaultDirectives].  [token] is a reference to
    the object [tokens[idx]], so its attributes are read as they are when
    [renderAttrs] runs, after the wrapped rule. *)
Definition newRule (defaultRule : option Rule) : Rule :=
  fun idx =>
    html <- call defaultRule idx ;;
    token <- getToken idx ;;
    let asideCloseIdx := JS.indexOf ">" html in
    ret (JS.slice html 0 asideCloseIdx +:+ renderAttrs token
           +:+ JS.sliceFrom html asideCloseIdx).

Definition overrideDefaultDirectives (rules : gmap string Rule)
    : gmap string Rule :=
  let rules1 := <["directive" := newRule (rules !! "directive")]> rules in
  <["directive_error" := newRule (rules1 !! "directive_error")]> rules1.

Definition textRule (defaultTextRule : option Rule) : Rule :=
  fun idx =>
    defaultOutput <- call defaultTextRule idx ;;
    token <- getToken idx ;;
    ret ("<span" +:+ renderAttrs token +:+ ">" +:+ defaultOutput
           +:+ "</span>").

Definition wrapTextInSpan (rules : gmap string Rule) : gmap string Rule :=
  <["text" := textRule (rules !! "text")]> rules.

(** The template literal of line 120. *)
Definition lineSpan (id l : string) : string :=
  "<span " +:+ SRC_LINE_ID +:+ "=" +:+ JS.str JS.dquote +:+ id
    +:+ JS.str JS.dquote +:+ ">" +:+ l +:+ "</span>".

(** The callback of [.map] at lines 117-121 for the line [l] at index [i]. *)
Definition wrapLine (startLine : Z) (l : string) (i : nat) : M string :=
  id <- randomLineId ;;
  lineMapSet (startLine + Z.of_nat i + 1) id ;;;
  ret (lineSpan id l).

(** [lines.map(wrapLine)], in index order. *)
Fixpoint wrapLines (startLine : Z) (i : nat) (lines : list string)
    : M (list string) :=
  match lines with
  | [] => ret []
  | l :: rest =>
      h <- wrapLine startLine l i ;;
      t <- wrapLines startLine (S i) rest ;;
      ret (h :: t)
  end.

(** The filter callback of line 116: keep all but the last index. *)
Definition notLast (_ : string) (i : nat) (lines : list string) : bool :=
  negb (Z.of_nat i =? Z.of_nat (length lines) - 1).

Definition fenceRule (defaultFenceRule : option Rule) : Rule :=
  fun idx =>
    defaultOutput <- call defaultFenceRule idx ;;
    token <- getToken idx ;;
    if negb (JS.startsWith "<pre" defaultOutput) then
      let closeIdx := JS.indexOf ">" defaultOutput in
      let start := JS.slice defaultOutput 0 closeIdx in
      let end_ := JS.sliceFrom defaultOutput closeIdx in
      ret (start +:+ (" " +:+ renderAttrs token) +:+ end_)
    else
      let sanitizedContent := escapeHtml (content token) in
      match map token with
      | None => throw
      | Some (s, _) =>
          e <- getEnv ;;
          let startLine := s + startLine e - chunkCorrection e in
          wrapped <- wrapLines startLine O
                       (JS.filter notLast (JS.split JS.newline sanitizedContent)) ;;
          let htmlContent := JS.join (JS.str JS.newline) wrapped in
          ret ("<pre><code" +:+ renderAttrs token +:+ ">" +:+ htmlContent
                 +:+ "</code></pre>" +:+ JS.str JS.newline)
      end.

Definition wrapFencedLinesInSpan (rules : gmap string Rule)
    : gmap string Rule :=
  <["fence" := fenceRule (rules !! "fence")]> rules.

(** [Object.keys(md.renderer.rules)].  JavaScript lists the keys in the
    order of their creation; they are distinct, and wrapping the rule of
    one key does not touch the rule of another, so the order in which the
    loop of lines 22-25 meets them is immaterial. *)
Definition keys (rules : gmap string Rule) : list string :=
  (map_to_list rules).*1.

Definition overrideRules (rules : gmap string Rule) : list string :=
  List.filter (fun r => negb (includes excludeRules r)) (keys rules)
    ++ ["paragraph_open"; "heading_open"; "admonition_open"; "link_open"].

(** The body of the loop at lines 22-25. *)
Definition overrideRule (rules : gmap string Rule) (rule : string)
    : gmap string Rule :=
  let temp := rules !! rule in
  <[rule := addLineNumberToTokens temp]> rules.

(** Lines 9-11: the three [md.use] calls, in their order. *)
Definition installAdapters (rules : gmap string Rule) : gmap string Rule :=
  wrapFencedLinesInSpan (wrapTextInSpan (overrideDefaultDirectives rules)).

Definition markdownSourceMap (rules : gmap string Rule) : gmap string Rule :=
  let rules3 := installAdapters rules in
  foldl overrideRule rules3 (overrideRules rules3).

End Plugin.

(** ** The pipeline that drives the rules *)

Section Renderer.

Variable renderToken : Rule.
Variable rules : gmap string Rule.

(** Modelled from the spec: the rendering pipeline that "drives rendering
    token-by-token" is markdown-it's [Renderer.render] and
    [Renderer.renderInline], library code outside this repository.  A
    token whose type has a rule is rendered by that rule, any other token
    by the generic renderer. *)
Definition renderOne (idx : nat) : M string :=
  tok <- getToken idx ;;
  let rule : option Rule := rules !! type tok in
  match rule with
  | Some rule => rule idx
  | None => renderToken idx
  end.

(** Modelled from the spec: the loop of [Renderer.renderInline] over the
    [n] tokens from index [i] on, "token-by-token". *)
Fixpoint renderInlineLoop (n i : nat) : M string :=
  match n with
  | O => ret EmptyString
  | S n' =>
      h <- renderOne i ;;
      t <- renderInlineLoop n' (S i) ;;
      ret (h +:+ t)
  end.

(** Modelled from the spec: [Renderer.renderInline] over the array at
    hand. *)
Definition renderInline : M string :=
  fun w => renderInlineLoop (length (tokens w)) O w.

(** Modelled from the spec: an inline token's "children" are "itself an
    ordered sequence of tokens"; the pipeline hands that array to the
    rules, and what they do to it stays on the inline token. *)
Definition withChildren (idx : nat) (m : M string) : M string :=
  fun w =>
    match tokens w !! idx with
    | None => TypeError
    | Some tok =>
        match children tok with
        | None => TypeError
        | Some cs =>
            match m (mkWorld cs (env w) (minted w)) with
            | TypeError => TypeError
            | Ok html w' =>
                Ok html (mkWorld
                           (alter (setChildren (Some (tokens w'))) idx (tokens w))
                           (env w') (minted w'))
            end
        end
    end.

(** Modelled from the spec: one turn of [Renderer.render]; an inline
    token is rendered through its children, any other token as in
    [renderOne]. *)
Definition renderStep (idx : nat) : M string :=
  tok <- getToken idx ;;
  if String.eqb (type tok) "inline" then withChildren idx renderInline
  else renderOne idx.

(** Modelled from the spec: the loop of [Renderer.render] over the [n]
    tokens from index [i] on. *)
Fixpoint renderLoop (n i : nat) : M string :=
  match n with
  | O => ret EmptyString
  | S n' =>
      h <- renderStep i ;;
      t <- renderLoop n' (S i) ;;
      ret (h +:+ t)
  end.

(** Modelled from the spec: "one rendering pass over one token stream
    produces one markup string and one populated Line Map". *)
Definition render : M string :=
  fun w => renderLoop (length (tokens w)) O w.

End Renderer.

(** ** A concrete renderer and concrete documents *)

Module Sample.

Definition nl : string := JS.str JS.newline.
Definition q : string := JS.str JS.dquote.

(** Stock rules of the wrapped renderer, by what they print: the text
    rule prints the escaped run, the line-break rule a line break, the
    code-block rule the escaped content inside its [pre]/[code] wrapper. *)
Definition textDefault : Rule :=
  fun idx => tok <- getToken idx ;; ret (escapeHtml (content tok)).

Definition softbreakDefault : Rule := fun _ => ret nl.

Definition fenceDefault : Rule :=
  fun idx =>
    tok <- getToken idx ;;
    ret ("<pre><code" +:+ renderAttrs tok +:+ ">" +:+ escapeHtml (content tok)
           +:+ "</code></pre>" +:+ nl).

(** An extension that takes over the fence rule to print a diagram. *)
Definition diagramDefault : Rule :=
  fun idx =>
    tok <- getToken idx ;;
    ret ("<div class=" +:+ q +:+ "mermaid" +:+ q +:+ ">" +:+ content tok
           +:+ "</div>").

(** The fallback rules for directives: they print no token attribute. *)
Definition directiveDefault (class : string) : Rule :=
  fun idx =>
    tok <- getToken idx ;;
    ret ("<aside class=" +:+ q +:+ class +:+ q +:+ ">" +:+ nl +:+ "<pre>"
           +:+ content tok +:+ "</pre></aside>" +:+ nl).

(** A stand-in for the generic tag renderer on the block tokens of the
    documents below. *)
Definition renderToken : Rule :=
  fun idx =>
    tok <- getToken idx ;;
    if String.eqb (type tok) "paragraph_open" then
      ret ("<p" +:+ renderAttrs tok +:+ ">")
    else if String.eqb (type tok) "paragraph_close" then
      ret ("</p>" +:+ nl)
    else ret EmptyString.

Definition rules : gmap string Rule :=
  list_to_map [("text", textDefault); ("softbreak", softbreakDefault);
               ("fence", fenceDefault);
               ("directive", directiveDefault "directive-unhandled");
               ("directive_error", directiveDefault "directive-error")].

Definition diagramRules : gmap string Rule :=
  <["fence" := diagramDefault]> rules.

(** A random source without repetition: draw [n] prints [0.] followed by
    [n + 1] sevens. *)
Definition Math_random (n : nat) : string :=
  "0." +:+ string_of_list_ascii (repeat "7"%char (S n)).

Definition text (m : option (Z * Z)) (s : string) : Token :=
  mkToken "text" m None [] s.
Definition softbreak : Token := mkToken "softbreak" None None [] EmptyString.

Definition opener (start : Z) : Token :=
  mkToken "paragraph_open" (Some (start, start + 1)) None [] EmptyString.

Definition inline (start : Z) (kids : list Token) : Token :=
  mkToken "inline" (Some (start, start + 1)) (Some kids) [] EmptyString.

Definition paragraph (start : Z) (kids : list Token) : list Token :=
  [opener start; inline start kids;
   mkToken "paragraph_close" None None [] EmptyString].

(** The paragraph [Line1 / Line2 / Line3] starting at relative line 0. *)
Definition threeKids : list Token :=
  [text None "Line1"; softbreak; text None "Line2"; softbreak;
   text None "Line3"].

Definition threeLines : list Token := paragraph 0 threeKids.

Definition oneLine : list Token := paragraph 0 [text None "Hello"].

(** A code block whose opening fence is at line 5, with four lines. *)
Definition fence (m : option (Z * Z)) (s : string) : Token :=
  mkToken "fence" m None [] s.

Definition fourLinesFence : Token :=
  fence (Some (5, 11))
    ("alpha" +:+ nl +:+ "beta" +:+ nl +:+ "gamma" +:+ nl +:+ "delta" +:+ nl).

Definition fourLines : list Token := [fourLinesFence].

(** The same block cut before the line break of its last line. *)
Definition unterminatedFence : Token :=
  fence (Some (5, 10))
    ("alpha" +:+ nl +:+ "beta" +:+ nl +:+ "gamma" +:+ nl +:+ "delta").

(** A text run that has been given the one-line span of [line] and the
    identifier [id], and the element the text adapter prints for it. *)
Definition anchored (line : Z) (id s : string) : Token :=
  mkToken "text" (Some (line, line + 1)) None [(SRC_LINE_ID, id)] s.

(** A directive block at line 3 and a raw markup block at line 2, with
    the stock rule that prints such a block as it is. *)
Definition directiveToken (kind : string) : Token :=
  mkToken kind (Some (3, 6)) None [] "body".

Definition directive (kind : string) : list Token := [directiveToken kind].

Definition htmlBlock : list Token :=
  [mkToken "html_block" (Some (2, 3)) None [] ("<hr>" +:+ nl)].

Definition htmlBlockDefault : Rule :=
  fun idx => tok <- getToken idx ;; ret (content tok).

Definition htmlRules : gmap string Rule :=
  <["html_block" := htmlBlockDefault]> rules.

(** A diagram in a fenced block at line 4. *)
Definition diagramFence : Token := fence (Some (4, 7)) ("graph TD" +:+ nl).

Definition diagram : list Token := [diagramFence].

Definition start (toks : list Token) (startLine chunkId : Z) : World :=
  mkWorld toks (mkEnv startLine chunkId ∅) O.

(** A text run with the span of line 3, in a second chunk that starts at
    line 10, alone and next to a second run with the same span. *)
Definition spanned : Token := text (Some (3, 4)) "x".
Definition spanned' : Token := text (Some (3, 4)) "y".
Definition chunk1 : World := start [spanned] 10 1.
Definition sameLine : World := start [spanned; spanned'] 10 1.

End Sample.

(** ** Vocabulary of the statements *)

(** An explicit line break among the children of an inline token. *)
Definition isBreak (t : Token) : bool := String.eqb (type t) "softbreak".

(** How many line breaks precede the child at index [j]: the visual line,
    counted from 0, on which that child sits. *)
Definition visualLine (cs : list Token) (j : nat) : Z :=
  Z.of_nat (length (List.filter isBreak (take j cs))).

(** Whether the place [j] opens a visual line: it is the first child, on a
    line that is not claimed yet, or it comes right after a line break. *)
Definition opensLine (claimed : bool) (cs : list Token) (j : nat) : bool :=
  match j with
  | O => negb claimed
  | S j' => match cs !! j' with
            | Some p => isBreak p
            | None => false
            end
  end.

(** What the walk makes of the child [c] at index [j], when it starts on
    visual line [k] of a container whose span starts at [s]. *)
Definition derive (s k : Z) (claimed : bool) (cs : list Token) (j : nat)
    (c : Token) : Token :=
  if negb (isBreak c) && opensLine claimed cs j then
    setMap (Some (s + (k + visualLine cs j), s + (k + visualLine cs j) + 1)) c
  else c.

(** The Line Map after the fence adapter has recorded [count] lines from
    index [i] on, drawing identifiers from the [n0]-th on. *)
Fixpoint recordLines (Math_random : nat -> string) (start : Z) (i n0 : nat)
    (count : nat) (m : gmap Z string) : gmap Z string :=
  match count with
  | O => m
  | S count' =>
      recordLines Math_random start (S i) (S n0) count'
        (<[start + Z.of_nat i + 1 := lineId Math_random n0]> m)
  end.

(** The markup of the identifier attribute with value [id]. *)
Definition idAttr (id : string) : string :=
  " " +:+ SRC_LINE_ID +:+ "=" +:+ JS.str JS.dquote +:+ id +:+ JS.str JS.dquote.

(** The text after the next double quote. *)
Fixpoint afterQuote (s : string) : string :=
  match s with
  | EmptyString => EmptyString
  | String c s' => if Ascii.eqb c JS.dquote then s' else afterQuote s'
  end.

Fixpoint dropChars (n : nat) (s : string) : string :=
  match n, s with
  | S n', String _ s' => dropChars n' s'
  | _, _ => s
  end.

(** Stripping all identifier attributes from markup: every occurrence of
    the attribute name with its quoted value is removed. *)
Definition idAttrOpen : string :=
  " " +:+ SRC_LINE_ID +:+ "=" +:+ JS.str JS.dquote.

Fixpoint stripFrom (fuel : nat) (s : string) : string :=
  match fuel with
  | O => s
  | S fuel' =>
      if String.prefix idAttrOpen s then
        stripFrom fuel' (afterQuote (dropChars (String.length idAttrOpen) s))
      else match s with
           | EmptyString => EmptyString
           | String c s' => String c (stripFrom fuel' s')
           end
  end.

Definition stripIds (s : string) : string := stripFrom (String.length s) s.

(** How many elements of the markup bear the identifier [id]. *)
Fixpoint occurrences (needle s : string) : nat :=
  match s with
  | EmptyString => O
  | String _ s' =>
      ((if String.prefix needle s then 1 else 0) + occurrences needle s')%nat
  end.

(** The round trip between the Line Map and the markup of a pass that
    starts in the world [w]: every pair of the Line Map is borne by exactly
    one element, and the markup without its identifier attributes is the
    markup of the renderer without the plugin. *)
Definition roundTrip (Math_random : nat -> string) (renderToken : Rule)
    (rules : gmap string Rule) (w : World) : Prop :=
  forall html w',
    render renderToken (markdownSourceMap Math_random renderToken rules) w
    = Ok html w' ->
    (forall line id, lineMap (env w') !! line = Some id ->
                     occurrences (idAttr id) html = 1%nat)
    /\ exists w0, render renderToken rules w = Ok (stripIds html) w0.

(** A computation that never removes a Line Map entry. *)
Definition keepsLines {A} (m : M A) : Prop :=
  forall w a w', m w = Ok a w' ->
                 dom (lineMap (env w)) ⊆ dom (lineMap (env w')).

(** ** The instances of the spec, in its words *)

(** The Line Map [lm] holds identifiers at the lines [lines] and nowhere
    else, and no identifier at two lines: [length lines] distinct
    identifiers, one per line. *)
Definition distinctIdentifiersAt (lines : list Z) (lm : gmap Z string)
    : Prop :=
  (forall k, is_Some (lm !! k) <-> k ∈ lines)
  /\ forall j k id, lm !! j = Some id -> lm !! k = Some id -> j = k.

(** A random source whose first and third draw are the same number. *)
Definition Math_random_repeating (n : nat) : string :=
  match n with
  | 1%nat => "0.25"
  | _ => "0.5"
  end.

(** ** Vocabulary of the further statements *)

(** How often the type [k] occurs in a list of types. *)
Definition countOf (k : string) (l : list string) : nat :=
  length (List.filter (String.eqb k) l).

(** The rule [o] inside [n] layers of the annotator. *)
Fixpoint wrapped (Math_random : nat -> string) (renderToken : Rule)
    (n : nat) (o : option Rule) : option Rule :=
  match n with
  | O => o
  | S n' =>
      Some (addLineNumberToTokens Math_random renderToken
              (wrapped Math_random renderToken n' o))
  end.

(** The four types that line 16-19 append to the rules to override. *)
Definition appendedRules : list string :=
  ["paragraph_open"; "heading_open"; "admonition_open"; "link_open"].

(** How often a character occurs in a string. *)
Fixpoint countChar (c : ascii) (s : string) : nat :=
  match s with
  | EmptyString => O
  | String a s' => ((if Ascii.eqb a c then 1 else 0) + countChar c s')%nat
  end.

(** ** Further concrete rules and documents *)

Module More.

(** A list opener, a type for which the renderer has no rule. *)
Definition listOpen : Token :=
  mkToken "bullet_list_open" (Some (0, 2)) None [] EmptyString.

(** A raw markup block without span. *)
Definition spanlessBlock : Token :=
  mkToken "html_block" None None [] ("<hr>" +:+ Sample.nl).

(** A registry in which an extension has a rule for [link_open]. *)
Definition linkDefault : Rule :=
  fun idx => tok <- getToken idx ;; ret ("<a" +:+ renderAttrs tok +:+ ">").

Definition linkRules : gmap string Rule :=
  <["link_open" := linkDefault]> Sample.rules.

Definition link : Token :=
  mkToken "link_open" (Some (0, 1)) None [("href", "x")] EmptyString.

(** The children of the three-line paragraph after the walk. *)
Definition walkedKids : list Token :=
  [Sample.text (Some (0, 1)) "Line1"; Sample.softbreak;
   Sample.text (Some (1, 2)) "Line2"; Sample.softbreak;
   Sample.text (Some (2, 3)) "Line3"].

(** A fence rule that prints highlighted markup in its own wrapper. *)
Definition highlightDefault : Rule :=
  fun idx =>
    tok <- getToken idx ;;
    ret ("<pre class=" +:+ Sample.q +:+ "hl" +:+ Sample.q +:+ "><code><b>"
           +:+ escapeHtml (content tok) +:+ "</b></code></pre>" +:+ Sample.nl).

(** A code block without span, and an opener without span before an
    inline token that holds one line break. *)
Definition spanlessFence : Token := Sample.fence None ("alpha" +:+ Sample.nl).

Definition spanlessOpener : Token :=
  mkToken "paragraph_open" None None [] EmptyString.

Definition onlyBreak : Token := Sample.inline 0 [Sample.softbreak].

End More.

(** ** Vocabulary of the statements on a whole paragraph *)

From Stdlib Require Import Sorted.

(** A rule that returns on every token it is given and leaves the world
    as it is, as the renderer's own rules for text, line breaks and tags
    do. *)
Definition quiet (r : Rule) : Prop :=
  forall idx w tok, tokens w !! idx = Some tok ->
                    exists out, r idx w = Ok out w.

(** The absolute line of the relative line [a] in a pass that starts at
    [sl] as chunk [ci]. *)
Definition lineAt (sl ci a : Z) : Z := a + sl - (if ci =? 0 then 0 else 1).

(** The span starts of the children that are no line breaks and carry a
    span, in their order. *)
Fixpoint spanStarts (cs : list Token) : list Z :=
  match cs with
  | [] => []
  | c :: rest =>
      if isBreak c then spanStarts rest
      else match map c with
           | Some (a, _) => a :: spanStarts rest
           | None => spanStarts rest
           end
  end.

(** The Line Map after the relative lines [starts] have been recorded
    one after the other, with the draws from the [n0]-th on. *)
Fixpoint recordSpans (Math_random : nat -> string) (sl ci : Z) (n0 : nat)
    (starts : list Z) (m : gmap Z string) : gmap Z string :=
  match starts with
  | [] => m
  | a :: rest =>
      recordSpans Math_random sl ci (S n0) rest
        (<[lineAt sl ci a := lineId Math_random n0]> m)
  end.

(** The default of a registry entry: the generic renderer when the type
    has no rule. *)
Definition ruleOr (renderToken : Rule) (o : option Rule) : Rule :=
  match o with
  | Some r => r
  | None => renderToken
  end.

(** Strings are kept as their bytes.  A byte below 128 is a whole ASCII
    character and one UTF-16 unit of the JavaScript string, so that
    [slice(0, -1)] and [slice(-1)], which count UTF-16 units from the end,
    cut right before it. *)
Definition singleUnit (c : ascii) : Prop := (nat_of_ascii c < 128)%nat.

(** A directive token that already carries an identifier. *)
Definition identified : Token :=
  attrSet SRC_LINE_ID "07" (Sample.directiveToken "directive").

(** * Properties of the plugin *)

(** String concatenation is unfolded by [simpl] on a literal prefix. *)
#[local] Arguments String.append : simpl nomatch.

(** A list without repetition stays so when its elements are reordered. *)
Ltac nodup_reorder H :=
  rewrite ?NoDup_cons, ?not_elem_of_cons in H;
  rewrite ?NoDup_cons, ?not_elem_of_cons;
  repeat split; try apply not_elem_of_nil; try apply NoDup_nil_2;
  intuition congruence.

(** ** JavaScript strings *)

Lemma find_app_fresh (c : ascii) (pre post : string) :
  JS.find c pre = None ->
  JS.find c (pre +:+ String c post) = Some (String.length pre).
Proof.
  induction pre as [|a pre IH]; simpl.
  - intros _. now rewrite Ascii.eqb_refl.
  - destruct (Ascii.eqb a c); [discriminate|].
    destruct (JS.find c pre); [discriminate|].
    intros _. now rewrite IH.
Qed.

Lemma substring_app_prefix (pre post : string) :
  substring 0 (String.length pre) (pre +:+ post) = pre.
Proof.
  induction pre as [|a pre IH]; simpl.
  - now destruct post.
  - now rewrite IH.
Qed.

Lemma substring_whole (s : string) : substring 0 (String.length s) s = s.
Proof. induction s as [|a s IH]; simpl; [reflexivity|]. now rewrite IH. Qed.

Lemma substring_app_suffix (pre post : string) :
  substring (String.length pre) (String.length post) (pre +:+ post) = post.
Proof.
  induction pre as [|a pre IH]; simpl; [|exact IH].
  apply substring_whole.
Qed.

Lemma length_append (s1 s2 : string) :
  String.length (s1 +:+ s2) = (String.length s1 + String.length s2)%nat.
Proof. induction s1; simpl; [reflexivity|]. now rewrite IHs1. Qed.

(** Cutting a string at the position of a character that occurs in it. *)
Lemma slice_at_first (c : ascii) (pre post : string) :
  JS.find c pre = None ->
  let html := pre +:+ String c post in
  JS.indexOf c html = Z.of_nat (String.length pre)
  /\ JS.slice html 0 (JS.indexOf c html) = pre
  /\ JS.sliceFrom html (JS.indexOf c html) = String c post.
Proof.
  intros Hfresh html.
  assert (Hi : JS.indexOf c html = Z.of_nat (String.length pre)).
  { unfold JS.indexOf, html. now rewrite find_app_fresh. }
  assert (Hlen : String.length html
                 = (String.length pre + String.length (String c post))%nat)
    by apply length_append.
  rewrite Hi. split; [reflexivity|]. split.
  - unfold JS.slice, JS.clamp. rewrite Hlen.
    replace (0 <? 0) with false by reflexivity.
    destruct (Z.ltb_spec (Z.of_nat (String.length pre)) 0) as [Hneg|_]; [lia|].
    rewrite Z.min_l by lia. rewrite Z.min_l by lia.
    replace (Z.to_nat 0) with O by reflexivity.
    replace (Z.to_nat (Z.max (Z.of_nat (String.length pre) - 0) 0))
      with (String.length pre) by lia.
    apply substring_app_prefix.
  - unfold JS.sliceFrom, JS.slice, JS.clamp. rewrite Hlen.
    destruct (Z.ltb_spec (Z.of_nat (String.length pre)) 0) as [Hneg|_]; [lia|].
    destruct (Z.ltb_spec
                (Z.of_nat (String.length pre + String.length (String c post))) 0)
      as [Hneg|_]; [lia|].
    rewrite Z.min_l by lia. rewrite Z.min_l by lia.
    rewrite Nat2Z.id.
    replace (Z.to_nat _) with (String.length (String c post)) by lia.
    apply substring_app_suffix.
Qed.

(** Without the character, [indexOf] answers [-1], and the two slices cut
    before the last character. *)
Lemma indexOf_absent (c : ascii) (s : string) :
  JS.find c s = None -> JS.indexOf c s = -1.
Proof. unfold JS.indexOf. now intros ->. Qed.

(** ** Attribute bags *)

Lemma attrGet_attrSet (name value : string) (t : Token) :
  attrGet name (attrSet name value t) = Some value.
Proof.
  unfold attrGet, attrSet. destruct t as [ty m ch a co]. simpl.
  induction a as [|[n v] a IH]; simpl.
  - now rewrite String.eqb_refl.
  - destruct (String.eqb n name) eqn:E; simpl.
    + now rewrite String.eqb_refl.
    + now rewrite E.
Qed.

Lemma attrSet_fields (name value : string) (t : Token) :
  type (attrSet name value t) = type t
  /\ map (attrSet name value t) = map t
  /\ children (attrSet name value t) = children t
  /\ content (attrSet name value t) = content t.
Proof. now destruct t. Qed.

Lemma alter_insert_lookup {A} (f : A -> A) (l : list A) (i : nat) (x : A) :
  l !! i = Some x -> alter f i l = <[i := f x]> l.
Proof.
  intros H. apply list_eq. intros j.
  destruct (decide (i = j)) as [->|Hne].
  - rewrite list_lookup_alter_eq, H. simpl.
    symmetry. apply list_lookup_insert_eq. eapply lookup_lt_Some; eauto.
  - now rewrite list_lookup_alter_ne, list_lookup_insert_ne.
Qed.

(** ** Distinct identifiers in a Line Map *)

(** In a list of pairs with distinct first components, no second
    component stands beside two first ones exactly when the second
    components are distinct too. *)
Lemma pairs_injective (l : list (Z * string)) :
  NoDup (l.*1) ->
  (forall j k id, (j, id) ∈ l -> (k, id) ∈ l -> j = k) <-> NoDup (l.*2).
Proof.
  induction l as [|[k0 a0] l IH]; intros Hnd.
  - split; [constructor|]. intros _ j k id H. now apply elem_of_nil in H.
  - apply NoDup_cons in Hnd as [Hk0 Hnd]. cbn [fmap list_fmap snd fst] in *.
    rewrite NoDup_cons, <- (IH Hnd). split.
    + intros Hinj. split.
      * intros Ha. apply list_elem_of_fmap in Ha as [[k a] [-> Hin]].
        simpl in *. apply Hk0.
        rewrite (Hinj k0 k a); [|left|now right].
        apply list_elem_of_fmap. now exists (k, a).
      * intros j k id Hj Hk. apply (Hinj j k id); now right.
    + intros [Ha Hinj] j k id Hj Hk.
      apply elem_of_cons in Hj as [Hj|Hj], Hk as [Hk|Hk].
      * congruence.
      * inversion Hj; subst. destruct Ha. apply list_elem_of_fmap.
        now exists (k, a0).
      * inversion Hk; subst. destruct Ha. apply list_elem_of_fmap.
        now exists (j, a0).
      * now apply (Hinj j k id).
Qed.

(** A Line Map written line by line at distinct lines holds distinct
    identifiers at these lines exactly when the identifiers written are
    distinct. *)
Lemma distinctIdentifiersAt_list_to_map (lines : list Z)
    (l : list (Z * string)) :
  NoDup (l.*1) ->
  (forall k, k ∈ lines <-> k ∈ l.*1) ->
  distinctIdentifiersAt lines (list_to_map l) <-> NoDup (l.*2).
Proof.
  intros Hnd Hlines. rewrite <- (pairs_injective l Hnd).
  unfold distinctIdentifiersAt. split.
  - intros [_ Hinj] j k id Hj Hk.
    apply (Hinj j k id); now apply elem_of_list_to_map.
  - intros Hinj. split.
    + intros k. rewrite Hlines. split.
      * intros [x Hx]. apply elem_of_list_to_map in Hx; [|assumption].
        apply list_elem_of_fmap. now exists (k, x).
      * intros Hk. apply list_elem_of_fmap in Hk as [[k' x] [-> Hin]].
        exists x. now apply elem_of_list_to_map.
    + intros j k id Hj Hk.
      apply (Hinj j k id); now apply elem_of_list_to_map.
Qed.

(** The three side conditions of [distinctIdentifiersAt_list_to_map] on
    lists that are written out. *)
Ltac distinct_written :=
  rewrite distinctIdentifiersAt_list_to_map;
  [ simpl; rewrite !NoDup_cons, !not_elem_of_cons;
    intuition (try congruence;
               try (eapply not_elem_of_nil; eassumption);
               try apply NoDup_nil_2)
  | simpl; repeat constructor; rewrite ?not_elem_of_cons;
    intuition (try discriminate);
    try (eapply not_elem_of_nil; eassumption)
  | intros ?; simpl; rewrite !elem_of_cons, !elem_of_nil; tauto ].

Lemma removeFirst_draws (f : nat -> string) (ns : list nat) :
  NoDup ((fun n => JS.removeFirst "." (f n)) <$> ns) -> NoDup (f <$> ns).
Proof.
  intros H. apply (NoDup_fmap_1 (JS.removeFirst ".")).
  rewrite <- list_fmap_compose. exact H.
Qed.

(** ** The annotator *)

Section AnnotatorFacts.

Variable Math_random : nat -> string.
Variable renderToken : Rule.

Lemma annotate_spanned (idx : nat) (w : World) (tok : Token) (s e : Z) :
  tokens w !! idx = Some tok ->
  includes inlineContainers (type tok) = false ->
  map tok = Some (s, e) ->
  annotate Math_random idx w
  = Ok tt (annotated Math_random idx tok
             (s + startLine (env w) - chunkCorrection (env w)) w).
Proof.
  intros Htok Hty Hmap.
  unfold annotate, bind, getToken. rewrite Htok, Hty, Hmap.
  unfold getEnv, randomLineId, lineMapSet, updToken, annotated. simpl.
  now rewrite (alter_insert_lookup _ _ _ _ Htok).
Qed.

Lemma annotate_unspanned (idx : nat) (w : World) (tok : Token) :
  tokens w !! idx = Some tok ->
  includes inlineContainers (type tok) = false ->
  map tok = None ->
  annotate Math_random idx w = Ok tt w.
Proof.
  intros Htok Hty Hmap.
  unfold annotate, bind, getToken. now rewrite Htok, Hty, Hmap.
Qed.

(** The two renders of the one-line paragraph of the chunking example. *)
Lemma oneLine_chunk0 :
  exists html w',
    render Sample.renderToken
      (markdownSourceMap Math_random Sample.renderToken Sample.rules)
      (Sample.start Sample.oneLine 0 0) = Ok html w'
    /\ lineMap (env w') = {[ 0 := lineId Math_random 0 ]}.
Proof. eexists _, _. split; [vm_compute; reflexivity | reflexivity]. Qed.

Lemma oneLine_chunk1 :
  exists html w',
    render Sample.renderToken
      (markdownSourceMap Math_random Sample.renderToken Sample.rules)
      (Sample.start Sample.oneLine 10 1) = Ok html w'
    /\ lineMap (env w') = {[ 9 := lineId Math_random 0 ]}.
Proof. eexists _, _. split; [vm_compute; reflexivity | reflexivity]. Qed.

(** C1: a token with a known span that is not a paragraph or heading
    opener is annotated by drawing a fresh identifier [id], writing
    [lineMap[span.start + startLine - c] = id] with [c = 0] for chunk 0
    and [c = 1] for any other chunk, and setting [id] under the reserved
    key in the token's attributes, before the wrapped rule runs; a
    one-line paragraph at relative line 0 is recorded at line 0 as chunk 0
    from [startLine = 0], and at line 9 as chunk 1 from [startLine = 10]. *)
Theorem annotate_writes_absolute_line :
  (forall (defaultRule : option Rule) (idx : nat) (w : World) (tok : Token)
          (s e : Z),
      tokens w !! idx = Some tok ->
      includes inlineContainers (type tok) = false ->
      map tok = Some (s, e) ->
      let c := if chunkId (env w) =? 0 then 0 else 1 in
      let line := s + startLine (env w) - c in
      let id := lineId Math_random (minted w) in
      exists w1 tok1,
        annotate Math_random idx w = Ok tt w1
        /\ addLineNumberToTokens Math_random renderToken defaultRule idx w
           = delegate renderToken defaultRule idx w1
        /\ lineMap (env w1) = <[line := id]> (lineMap (env w))
        /\ lineMap (env w1) !! line = Some id
        /\ tokens w1 = <[idx := tok1]> (tokens w)
        /\ tokens w1 !! idx = Some tok1
        /\ attrGet SRC_LINE_ID tok1 = Some id
        /\ minted w1 = S (minted w))
  /\ (exists html w',
        render Sample.renderToken
          (markdownSourceMap Math_random Sample.renderToken Sample.rules)
          (Sample.start Sample.oneLine 0 0) = Ok html w'
        /\ lineMap (env w') = {[ 0 := lineId Math_random 0 ]})
  /\ (exists html w',
        render Sample.renderToken
          (markdownSourceMap Math_random Sample.renderToken Sample.rules)
          (Sample.start Sample.oneLine 10 1) = Ok html w'
        /\ lineMap (env w') = {[ 9 := lineId Math_random 0 ]}).
Proof.
  split; [|split; [exact oneLine_chunk0 | exact oneLine_chunk1]].
  intros defaultRule idx w tok s e Htok Hty Hmap c line id.
  pose proof (annotate_spanned idx w tok s e Htok Hty Hmap) as Hann.
  exists (annotated Math_random idx tok line w),
         (attrSet SRC_LINE_ID id tok).
  repeat split.
  - exact Hann.
  - unfold addLineNumberToTokens, bind. now rewrite Hann.
  - simpl. apply lookup_insert_eq.
  - simpl. apply list_lookup_insert_eq. eapply lookup_lt_Some; eauto.
  - apply attrGet_attrSet.
Qed.

(** *** The walk over the children of an inline token *)

Lemma visualLine_cons_break (c : Token) (rest : list Token) (j : nat) :
  isBreak c = true ->
  visualLine (c :: rest) (S j) = 1 + visualLine rest j.
Proof. unfold visualLine. simpl. intros ->. simpl length. lia. Qed.

Lemma visualLine_cons_other (c : Token) (rest : list Token) (j : nat) :
  isBreak c = false ->
  visualLine (c :: rest) (S j) = visualLine rest j.
Proof. unfold visualLine. simpl. now intros ->. Qed.

Lemma derive_shift (s k k' : Z) (u u' : bool) (c : Token)
    (rest : list Token) :
  u' = negb (isBreak c) ->
  k' = (if isBreak c then k + 1 else k) ->
  forall j x, derive s k u (c :: rest) (S j) x = derive s k' u' rest j x.
Proof.
  intros -> -> j x. unfold derive.
  assert (Ho : opensLine u (c :: rest) (S j)
               = opensLine (negb (isBreak c)) rest j).
  { destruct j; simpl; [now destruct (isBreak c)|reflexivity]. }
  rewrite Ho. destruct (isBreak c) eqn:Hc.
  - rewrite (visualLine_cons_break _ _ _ Hc).
    now replace (k + (1 + visualLine rest j)) with (k + 1 + visualLine rest j)
      by lia.
  - now rewrite (visualLine_cons_other _ _ _ Hc).
Qed.

(** With a known container span, the walk never throws, and each child
    comes out as [derive] says. *)
Lemma walkChildren_derive (s e : Z) (cs : list Token) :
  forall (k : Z) (u : bool),
    walkChildren (Some (s, e)) k u cs = Some (imap (derive s k u cs) cs).
Proof.
  induction cs as [|c rest IH]; intros k u; [reflexivity|].
  rewrite imap_cons. simpl walkChildren. fold (isBreak c).
  destruct (isBreak c) eqn:Hc.
  - rewrite IH. simpl. f_equal. f_equal.
    + unfold derive. now rewrite Hc.
    + apply imap_ext. intros j x _. simpl. symmetry.
      apply derive_shift; now rewrite Hc.
  - destruct u; simpl.
    + rewrite IH. simpl. f_equal. f_equal.
      * unfold derive. rewrite Hc. reflexivity.
      * apply imap_ext. intros j x _. simpl. symmetry.
        apply derive_shift; now rewrite Hc.
    + rewrite IH. simpl. f_equal. f_equal.
      * unfold derive, visualLine. rewrite Hc. simpl.
        now replace (k + Z.of_nat 0) with k by lia.
      * apply imap_ext. intros j x _. simpl. symmetry.
        apply derive_shift; now rewrite Hc.
Qed.

(** Whatever the container span, a line break among the children is
    handed back as it was. *)
Lemma walkChildren_keeps_breaks (m : option (Z * Z)) (cs : list Token) :
  forall (k : Z) (u : bool) (cs' : list Token),
    walkChildren m k u cs = Some cs' ->
    length cs' = length cs
    /\ forall j c, cs !! j = Some c -> isBreak c = true -> cs' !! j = Some c.
Proof.
  induction cs as [|c rest IH]; intros k u cs' H.
  - injection H as <-. split; [reflexivity|]. intros j c Hj. now destruct j.
  - simpl in H. fold (isBreak c) in H.
    assert (Hstep : forall k1 u1 c1 cs1,
               cons c1 <$> walkChildren m k1 u1 rest = Some cs1 ->
               (isBreak c = true -> c1 = c) ->
               length cs1 = length (c :: rest)
               /\ forall j x, (c :: rest) !! j = Some x ->
                              isBreak x = true -> cs1 !! j = Some x).
    { intros k1 u1 c1 cs1 H1 Hc1.
      destruct (walkChildren m k1 u1 rest) as [r|] eqn:Hw; [|discriminate].
      injection H1 as <-. destruct (IH _ _ _ Hw) as [Hl Hb].
      split; [simpl; now rewrite Hl|].
      intros [|j] x Hj Hx; simpl in *.
      - injection Hj as ->. now rewrite Hc1.
      - now apply Hb. }
    destruct (isBreak c) eqn:Hc.
    + eapply Hstep; eauto.
    + destruct u; simpl in H.
      * eapply Hstep; eauto; discriminate.
      * destruct m as [[s e]|]; [|discriminate].
        eapply Hstep; eauto; discriminate.
Qed.

Lemma includes_inlineContainers (ty : string) :
  includes inlineContainers ty = true
  <-> ty = "paragraph_open" \/ ty = "heading_open".
Proof.
  unfold includes, inlineContainers. simpl.
  rewrite !orb_true_iff, !String.eqb_eq. intuition discriminate.
Qed.

Lemma annotate_container (idx : nat) (w : World) (tok inl : Token)
    (cs : list Token) (s e : Z) :
  tokens w !! idx = Some tok ->
  includes inlineContainers (type tok) = true ->
  map tok = Some (s, e) ->
  tokens w !! (idx + 1)%nat = Some inl ->
  children inl = Some cs ->
  annotate Math_random idx w
  = Ok tt (mkWorld
             (<[(idx + 1)%nat
                := setChildren (Some (imap (derive s 0 false cs) cs)) inl]>
                (tokens w))
             (env w) (minted w)).
Proof.
  intros Htok Hty Hmap Hinl Hcs.
  unfold annotate, bind, getToken. rewrite Htok, Hty, Hinl, Hcs, Hmap.
  rewrite walkChildren_derive. unfold updToken.
  now rewrite (alter_insert_lookup _ _ _ _ Hinl).
Qed.

(** The three-line paragraph, rendered from line 0 as the first chunk. *)
Lemma threeLines_pass :
  exists html w',
    render Sample.renderToken
      (markdownSourceMap Math_random Sample.renderToken Sample.rules)
      (Sample.start Sample.threeLines 0 0) = Ok html w'
    /\ lineMap (env w')
       = <[2 := lineId Math_random 2]>
           (<[1 := lineId Math_random 1]> {[ 0 := lineId Math_random 0 ]})
    /\ tokens w'
       = Sample.paragraph 0
           [Sample.anchored 0 (lineId Math_random 0) "Line1";
            Sample.softbreak;
            Sample.anchored 1 (lineId Math_random 1) "Line2";
            Sample.softbreak;
            Sample.anchored 2 (lineId Math_random 2) "Line3"]
    /\ minted w' = 3%nat.
Proof.
  eexists _, _. split; [vm_compute; reflexivity|].
  repeat split; reflexivity.
Qed.

(** C2 (corrected): on a paragraph or heading opener whose span starts
    at [s], the annotator walks the children of the next token with a
    visual-line counter starting at 0: line breaks are left alone and move
    to the next visual line, the first other child of each visual line [k]
    gets the span [[s+k, s+k+1)], every other child is left alone, and
    neither the Line Map nor the count of drawn identifiers changes.
    Rendering the paragraph [Line1 / Line2 / Line3] from line 0 as chunk 0
    then records the first three draws of the random source, each without
    its first dot, at lines 0, 1, 2, and sets each on the text run that
    opens its line.  These are three distinct identifiers exactly when the
    three draws print differently without their dot; for that the draws
    themselves must differ, which nothing in the plugin provides. *)
Theorem container_walk_prepares_line_spans :
  (forall (idx : nat) (w : World) (tok inl : Token) (cs : list Token)
          (s e : Z),
      tokens w !! idx = Some tok ->
      type tok = "paragraph_open" \/ type tok = "heading_open" ->
      map tok = Some (s, e) ->
      tokens w !! (idx + 1)%nat = Some inl ->
      children inl = Some cs ->
      exists cs',
        annotate Math_random idx w
        = Ok tt (mkWorld
                   (<[(idx + 1)%nat := setChildren (Some cs') inl]> (tokens w))
                   (env w) (minted w))
        /\ length cs' = length cs
        /\ forall j c,
             cs !! j = Some c ->
             cs' !! j
             = Some (if isBreak c then c
                     else if opensLine false cs j then
                            setMap (Some (s + visualLine cs j,
                                          s + visualLine cs j + 1)) c
                          else c))
  /\ (let id := fun n : nat => JS.removeFirst "." (Math_random n) in
      exists html w',
        render Sample.renderToken
          (markdownSourceMap Math_random Sample.renderToken Sample.rules)
          (Sample.start Sample.threeLines 0 0) = Ok html w'
        /\ lineMap (env w')
           = <[2 := id 2%nat]> (<[1 := id 1%nat]> {[ 0 := id 0%nat ]})
        /\ tokens w'
           = Sample.paragraph 0
               [Sample.anchored 0 (id 0%nat) "Line1";
                Sample.softbreak;
                Sample.anchored 1 (id 1%nat) "Line2";
                Sample.softbreak;
                Sample.anchored 2 (id 2%nat) "Line3"]
        /\ minted w' = 3%nat
        /\ (distinctIdentifiersAt [0; 1; 2] (lineMap (env w'))
            <-> NoDup [id 0%nat; id 1%nat; id 2%nat])
        /\ (distinctIdentifiersAt [0; 1; 2] (lineMap (env w'))
            -> NoDup [Math_random 0%nat; Math_random 1%nat;
                      Math_random 2%nat])).
Proof.
  split.
  - intros idx w tok inl cs s e Htok Hty Hmap Hinl Hcs.
    apply includes_inlineContainers in Hty.
    exists (imap (derive s 0 false cs) cs).
    split; [now apply (annotate_container idx w tok inl cs s e)|].
    split; [apply length_imap|].
    intros j c Hj. rewrite list_lookup_imap, Hj. simpl. f_equal.
    unfold derive. rewrite !Z.add_0_l.
    destruct (isBreak c); [reflexivity|]. simpl.
    now destruct (opensLine false cs j).
  - intros id. destruct threeLines_pass as (html & w' & Hr & Hm & Ht & Hn).
    exists html, w'. do 4 (split; [assumption|]).
    assert (Hiff : distinctIdentifiersAt [0; 1; 2] (lineMap (env w'))
                   <-> NoDup [id 0%nat; id 1%nat; id 2%nat]).
    { rewrite Hm. unfold id, lineId. clear.
      generalize (JS.removeFirst "." (Math_random 0%nat)),
        (JS.removeFirst "." (Math_random 1%nat)),
        (JS.removeFirst "." (Math_random 2%nat)). intros a b c.
      change (<[2 := c]> (<[1 := b]> {[ 0 := a ]}))
        with (list_to_map [(2, c); (1, b); (0, a)] : gmap Z string).
      distinct_written. }
    split; [exact Hiff|].
    intros Hd. apply Hiff in Hd.
    exact (removeFirst_draws Math_random [0; 1; 2]%nat Hd).
Qed.

(** *** When the annotator throws *)

Lemma walkChildren_no_span (cs : list Token) (k : Z) :
  (exists c, c ∈ cs /\ isBreak c = false) ->
  walkChildren None k false cs = None.
Proof.
  revert k. induction cs as [|c rest IH]; intros k [x [Hin Hx]].
  - now apply elem_of_nil in Hin.
  - simpl. fold (isBreak c). destruct (isBreak c) eqn:Hc; [|reflexivity].
    apply elem_of_cons in Hin as [->|Hin]; [congruence|].
    rewrite IH; [reflexivity|]. now exists x.
Qed.

(** C9: on a paragraph or heading opener the annotator reads
    [tokens[idx + 1]] and iterates its [children] without a check.  It
    returns only if that token exists and has a children list; when the
    opener is the last token of the array, or the next token has no
    children, the rule throws before the wrapped rule is reached.  With a
    next token that has children and a known span on the opener, it
    returns. *)
Theorem container_needs_inline_successor
    (defaultRule : option Rule) (idx : nat) (w : World) (tok : Token) :
  tokens w !! idx = Some tok ->
  type tok = "paragraph_open" \/ type tok = "heading_open" ->
  (forall u w', annotate Math_random idx w = Ok u w' ->
                exists inl cs, tokens w !! (idx + 1)%nat = Some inl
                               /\ children inl = Some cs)
  /\ (length (tokens w) = S idx ->
      annotate Math_random idx w = TypeError
      /\ addLineNumberToTokens Math_random renderToken defaultRule idx w
         = TypeError)
  /\ (forall inl, tokens w !! (idx + 1)%nat = Some inl ->
                  children inl = None ->
                  annotate Math_random idx w = TypeError
                  /\ addLineNumberToTokens Math_random renderToken
                       defaultRule idx w = TypeError)
  /\ (forall inl cs s e,
         tokens w !! (idx + 1)%nat = Some inl ->
         children inl = Some cs ->
         map tok = Some (s, e) ->
         exists w', annotate Math_random idx w = Ok tt w'
                    /\ addLineNumberToTokens Math_random renderToken
                         defaultRule idx w
                       = delegate renderToken defaultRule idx w')
  /\ (forall inl cs,
         tokens w !! (idx + 1)%nat = Some inl ->
         children inl = Some cs ->
         map tok = None ->
         (exists c, c ∈ cs /\ isBreak c = false) ->
         annotate Math_random idx w = TypeError).
Proof.
  intros Htok Hty. apply includes_inlineContainers in Hty.
  assert (Hthrow : annotate Math_random idx w = TypeError ->
                   annotate Math_random idx w = TypeError
                   /\ addLineNumberToTokens Math_random renderToken
                        defaultRule idx w = TypeError).
  { intros H. split; [exact H|].
    unfold addLineNumberToTokens, bind. now rewrite H. }
  split; [|split; [|split; [|split]]].
  - intros u w'. unfold annotate, bind, getToken. rewrite Htok, Hty.
    destruct (tokens w !! (idx + 1)%nat) as [inl|]; [|discriminate].
    destruct (children inl) as [cs|] eqn:Hcs; [|discriminate].
    intros _. now exists inl, cs.
  - intros Hlast. apply Hthrow.
    unfold annotate, bind, getToken. rewrite Htok, Hty.
    rewrite (proj2 (lookup_ge_None (tokens w) (idx + 1)%nat)); [reflexivity|].
    lia.
  - intros inl Hinl Hcs. apply Hthrow.
    unfold annotate, bind, getToken. now rewrite Htok, Hty, Hinl, Hcs.
  - intros inl cs s e Hinl Hcs Hmap. eexists. split.
    + now apply (annotate_container idx w tok inl cs s e).
    + unfold addLineNumberToTokens, bind.
      now rewrite (annotate_container idx w tok inl cs s e).
  - intros inl cs Hinl Hcs Hmap Hex.
    unfold annotate, bind, getToken. rewrite Htok, Hty, Hinl, Hcs, Hmap.
    now rewrite walkChildren_no_span.
Qed.

End AnnotatorFacts.

(** The instance of C2 in the spec's words fails for a random source
    that returns a number twice: the identifiers recorded at lines 0 and 2
    of the three-line paragraph are then the same one. *)
Lemma repeated_draw_repeats_identifier :
  exists html w',
    render Sample.renderToken
      (markdownSourceMap Math_random_repeating Sample.renderToken
         Sample.rules)
      (Sample.start Sample.threeLines 0 0) = Ok html w'
    /\ lineMap (env w') !! 0 = Some "05"
    /\ lineMap (env w') !! 2 = Some "05"
    /\ ~ distinctIdentifiersAt [0; 1; 2] (lineMap (env w')).
Proof.
  eexists _, _. split; [vm_compute; reflexivity|].
  split; [reflexivity|]. split; [reflexivity|].
  intros [_ Hinj]. specialize (Hinj 0 2 "05" eq_refl eq_refl).
  discriminate Hinj.
Qed.

(** ** The rule registry built by [markdownSourceMap] *)

Section RegistryFacts.

Variable Math_random : nat -> string.
Variable renderToken : Rule.

Lemma overrideRule_other (rules : gmap string Rule) (r k : string) :
  r <> k ->
  overrideRule Math_random renderToken rules r !! k = rules !! k.
Proof. intros H. unfold overrideRule. now rewrite lookup_insert_ne. Qed.

Lemma overrideRule_same (rules : gmap string Rule) (r : string) :
  overrideRule Math_random renderToken rules r !! r
  = Some (addLineNumberToTokens Math_random renderToken (rules !! r)).
Proof. unfold overrideRule. now rewrite lookup_insert_eq. Qed.

Lemma foldl_overrideRule_other (l : list string) (k : string) :
  k ∉ l ->
  forall rules,
    foldl (overrideRule Math_random renderToken) rules l !! k = rules !! k.
Proof.
  induction l as [|r l IH]; intros Hk rules; [reflexivity|].
  apply not_elem_of_cons in Hk as [Hne Hk]. simpl.
  rewrite IH by assumption. apply overrideRule_other. congruence.
Qed.

Lemma foldl_overrideRule_once (l : list string) (k : string) :
  NoDup l -> k ∈ l ->
  forall rules,
    foldl (overrideRule Math_random renderToken) rules l !! k
    = Some (addLineNumberToTokens Math_random renderToken (rules !! k)).
Proof.
  induction l as [|r l IH]; intros Hnd Hk rules.
  - now apply elem_of_nil in Hk.
  - apply NoDup_cons in Hnd as [Hr Hnd]. simpl.
    apply elem_of_cons in Hk as [->|Hk].
    + rewrite foldl_overrideRule_other by assumption.
      apply overrideRule_same.
    + rewrite IH by assumption. rewrite overrideRule_other; [reflexivity|].
      intros ->. contradiction.
Qed.

Lemma keys_NoDup (rules : gmap string Rule) : NoDup (keys rules).
Proof. apply NoDup_fst_map_to_list. Qed.

Lemma elem_of_keys (rules : gmap string Rule) (k : string) :
  k ∈ keys rules <-> is_Some (rules !! k).
Proof.
  unfold keys. rewrite list_elem_of_fmap. split.
  - intros [[k' r] [-> H]]. apply elem_of_map_to_list in H. simpl. eauto.
  - intros [r H]. exists (k, r). split; [reflexivity|].
    now apply elem_of_map_to_list.
Qed.

(** The registry after the two adapters and the patcher are installed. *)
Lemma adapters_other (rules : gmap string Rule) (k : string) :
  k <> "directive" -> k <> "directive_error" -> k <> "text" -> k <> "fence" ->
  installAdapters Math_random rules !! k = rules !! k.
Proof.
  intros H1 H2 H3 H4.
  unfold installAdapters, wrapFencedLinesInSpan, wrapTextInSpan, overrideDefaultDirectives.
  now rewrite !lookup_insert_ne by congruence.
Qed.

Lemma softbreak_not_overridden (rules : gmap string Rule) :
  "softbreak" ∉ overrideRules rules.
Proof.
  unfold overrideRules. rewrite elem_of_app. intros [H|H].
  - apply list_elem_of_In, filter_In in H as [_ H]. discriminate.
  - rewrite !elem_of_cons, elem_of_nil in H. intuition discriminate.
Qed.

Lemma markdownSourceMap_softbreak (rules : gmap string Rule) :
  markdownSourceMap Math_random renderToken rules !! "softbreak"
  = rules !! "softbreak".
Proof.
  unfold markdownSourceMap.
  rewrite foldl_overrideRule_other by apply softbreak_not_overridden.
  now apply adapters_other.
Qed.

(** A registered type other than the four container names, and other
    than the line break, is wrapped exactly once. *)
Lemma markdownSourceMap_wrapped_once (rules : gmap string Rule) (k : string) :
  let rules3 := installAdapters Math_random rules in
  is_Some (rules3 !! k) ->
  k ∉ ["softbreak"; "paragraph_open"; "heading_open"; "admonition_open";
       "link_open"] ->
  markdownSourceMap Math_random renderToken rules !! k
  = Some (addLineNumberToTokens Math_random renderToken (rules3 !! k)).
Proof.
  intros rules3 Hk Hnot. unfold markdownSourceMap. fold rules3.
  unfold overrideRules. rewrite foldl_app.
  rewrite !not_elem_of_cons in Hnot.
  destruct Hnot as (Hsb & H1 & H2 & H3 & H4 & _).
  rewrite foldl_overrideRule_other.
  - apply foldl_overrideRule_once.
    + apply NoDup_ListNoDup, List.NoDup_filter, NoDup_ListNoDup, keys_NoDup.
    + apply list_elem_of_In, filter_In. split.
      * apply list_elem_of_In, elem_of_keys, Hk.
      * unfold includes, excludeRules. simpl.
        destruct (String.eqb_spec k "softbreak"); [contradiction|reflexivity].
  - rewrite !not_elem_of_cons. repeat split; try congruence.
    apply not_elem_of_nil.
Qed.

(** C8: line breaks are never annotated.  The rule of the type
    [softbreak] is not intercepted, so a line-break token is rendered by
    the renderer's own rule, exactly as without the plugin; in the walk
    over the children of an inline token a line break only moves the
    counter to the next visual line and clears the claimed flag, and it
    is handed back as it was, without a span; and annotating any other
    token leaves the attributes and the span of every line-break token
    of the array as they were. *)
Theorem softbreak_never_annotated :
  (forall rules : gmap string Rule,
      markdownSourceMap Math_random renderToken rules !! "softbreak"
      = rules !! "softbreak")
  /\ (forall (rules : gmap string Rule) (idx : nat) (w : World) (tok : Token),
        tokens w !! idx = Some tok ->
        type tok = "softbreak" ->
        renderOne renderToken
          (markdownSourceMap Math_random renderToken rules) idx w
        = renderOne renderToken rules idx w)
  /\ (forall (m : option (Z * Z)) (k : Z) (u : bool) (c : Token)
             (rest : list Token),
        type c = "softbreak" ->
        walkChildren m k u (c :: rest)
        = cons c <$> walkChildren m (k + 1) false rest)
  /\ (forall (m : option (Z * Z)) (k : Z) (u : bool) (cs cs' : list Token),
        walkChildren m k u cs = Some cs' ->
        forall j c, cs !! j = Some c -> type c = "softbreak" ->
                    cs' !! j = Some c)
  /\ (forall (idx : nat) (w w' : World) (tok : Token),
        tokens w !! idx = Some tok ->
        type tok <> "softbreak" ->
        annotate Math_random idx w = Ok tt w' ->
        forall j t, tokens w !! j = Some t -> type t = "softbreak" ->
                    exists t', tokens w' !! j = Some t'
                               /\ type t' = "softbreak"
                               /\ attrs t' = attrs t
                               /\ map t' = map t).
Proof.
  split; [apply markdownSourceMap_softbreak|].
  split; [|split; [|split]].
  - intros rules idx w tok Htok Hty.
    unfold renderOne, bind, getToken. rewrite Htok, Hty.
    now rewrite markdownSourceMap_softbreak.
  - intros m k u c rest Hc. simpl. now rewrite Hc.
  - intros m k u cs cs' Hw j c Hj Hc.
    apply (walkChildren_keeps_breaks m cs k u cs' Hw); [assumption|].
    unfold isBreak. now rewrite Hc.
  - intros idx w w' tok Htok Hty Hann j t Hj Ht.
    unfold annotate, bind, getToken in Hann. rewrite Htok in Hann.
    destruct (includes inlineContainers (type tok)).
    + destruct (tokens w !! (idx + 1)%nat) as [inl|] eqn:Hinl; [|discriminate].
      destruct (children inl) as [cs|]; [|discriminate].
      destruct (walkChildren (map tok) 0 false cs) as [cs'|]; [|discriminate].
      unfold updToken in Hann. injection Hann as <-. simpl.
      destruct (decide ((idx + 1)%nat = j)) as [<-|Hne].
      * rewrite list_lookup_alter_eq, Hinl. simpl.
        eexists; split; [reflexivity|].
        rewrite Hinl in Hj. injection Hj as ->. now destruct t.
      * rewrite list_lookup_alter_ne by assumption. now exists t.
    + destruct (map tok) as [[s e]|].
      * unfold getEnv, randomLineId, lineMapSet, updToken in Hann.
        injection Hann as <-. simpl.
        rewrite list_lookup_alter_ne; [now exists t|].
        intros ->. rewrite Htok in Hj. injection Hj as ->. contradiction.
      * injection Hann as <-. now exists t.
Qed.

End RegistryFacts.

(** ** The patcher and the adapters *)

Lemma append_assoc (a b c : string) : (a +:+ b) +:+ c = a +:+ (b +:+ c).
Proof. induction a as [|x a IH]; simpl; [reflexivity|]. now rewrite IH. Qed.

Lemma substring_cut (s : string) :
  forall n : nat,
    (n <= String.length s)%nat ->
    substring 0 n s +:+ substring n (String.length s - n) s = s.
Proof.
  induction s as [|a s IH]; intros n Hn.
  - simpl in Hn. replace n with O by lia. reflexivity.
  - destruct n as [|n]; simpl.
    + now rewrite substring_whole.
    + rewrite IH; [reflexivity|]. simpl in Hn. lia.
Qed.

(** The two slices taken around any index put the string back together:
    also around [-1], the answer of [indexOf] when nothing is found. *)
Lemma slice_recompose (s : string) (i : Z) :
  JS.slice s 0 i +:+ JS.sliceFrom s i = s.
Proof.
  unfold JS.sliceFrom, JS.slice.
  set (len := Z.of_nat (String.length s)).
  assert (Hlen : 0 <= len) by (unfold len; lia).
  assert (H0 : JS.clamp len 0 = 0).
  { unfold JS.clamp. simpl. lia. }
  assert (Hl : JS.clamp len len = len).
  { unfold JS.clamp. destruct (Z.ltb_spec len 0); lia. }
  assert (Hi : 0 <= JS.clamp len i <= len).
  { unfold JS.clamp. destruct (Z.ltb_spec i 0); lia. }
  rewrite H0, Hl. set (n := JS.clamp len i) in *.
  replace (Z.to_nat 0) with O by reflexivity.
  replace (Z.to_nat (Z.max (n - 0) 0)) with (Z.to_nat n) by lia.
  replace (Z.to_nat (Z.max (len - n) 0))
    with (String.length s - Z.to_nat n)%nat by (unfold len; lia).
  apply substring_cut. unfold len in Hi. lia.
Qed.

Lemma escapeHtml_SRC_LINE_ID : escapeHtml SRC_LINE_ID = SRC_LINE_ID.
Proof. reflexivity. Qed.

(** After [attrSet], the rendered attributes contain the entry. *)
Lemma renderAttrs_attrSet (name value : string) (t : Token) :
  exists before after,
    renderAttrs (attrSet name value t)
    = before +:+ attrMarkup name value +:+ after.
Proof.
  unfold renderAttrs, attrSet. destruct t as [ty m ch a co].
  cbn [attrs setAttrs].
  induction a as [|[n v] a (before & after & IH)]; cbn [attrSetList].
  - exists EmptyString, EmptyString. reflexivity.
  - destruct (String.eqb n name); cbn [renderAttrsList].
    + exists EmptyString, (renderAttrsList a). reflexivity.
    + exists (attrMarkup n v +:+ before), after.
      rewrite IH. symmetry. apply append_assoc.
Qed.

Section RuleFacts.

Variable Math_random : nat -> string.
Variable renderToken : Rule.

(** *** The directive patcher *)

Lemma newRule_splices (D : Rule) (idx : nat) (w w' : World)
    (html : string) (token : Token) :
  D idx w = Ok html w' ->
  tokens w' !! idx = Some token ->
  newRule (Some D) idx w
  = Ok (JS.slice html 0 (JS.indexOf ">" html) +:+ renderAttrs token
          +:+ JS.sliceFrom html (JS.indexOf ">" html)) w'.
Proof.
  intros HD Htok. unfold newRule, bind, call, getToken.
  now rewrite HD, Htok.
Qed.

Lemma newRule_before_bracket (D : Rule) (idx : nat) (w w' : World)
    (token : Token) (pre post : string) :
  D idx w = Ok (pre +:+ ">" +:+ post) w' ->
  tokens w' !! idx = Some token ->
  JS.find ">" pre = None ->
  newRule (Some D) idx w
  = Ok (pre +:+ renderAttrs token +:+ ">" +:+ post) w'.
Proof.
  intros HD Htok Hpre.
  change (pre +:+ ">" +:+ post) with (pre +:+ String ">" post) in HD.
  rewrite (newRule_splices D idx w w' _ token HD Htok).
  destruct (slice_at_first ">" pre post Hpre) as (_ & -> & ->).
  reflexivity.
Qed.

(** Without a closing angle bracket in the output, [indexOf] answers
    [-1] and the attributes go before the last character. *)
Lemma newRule_without_bracket (D : Rule) (idx : nat) (w w' : World)
    (html : string) (token : Token) :
  D idx w = Ok html w' ->
  tokens w' !! idx = Some token ->
  JS.find ">" html = None ->
  newRule (Some D) idx w
  = Ok (JS.slice html 0 (-1) +:+ renderAttrs token +:+ JS.sliceFrom html (-1))
       w'.
Proof.
  intros HD Htok Hnone.
  rewrite (newRule_splices D idx w w' html token HD Htok).
  now rewrite (indexOf_absent ">" html Hnone).
Qed.

(** *** The text adapter *)

Lemma textRule_wraps (T : Rule) (idx : nat) (w w' : World)
    (out : string) (token : Token) :
  T idx w = Ok out w' ->
  tokens w' !! idx = Some token ->
  textRule (Some T) idx w
  = Ok ("<span" +:+ renderAttrs token +:+ ">" +:+ out +:+ "</span>") w'.
Proof.
  intros HT Htok. unfold textRule, bind, call, getToken.
  now rewrite HT, Htok.
Qed.

(** *** The fence adapter on output that is not a code block *)

Lemma fenceRule_foreign (F : Rule) (idx : nat) (w w' : World)
    (out : string) (token : Token) :
  F idx w = Ok out w' ->
  JS.startsWith "<pre" out = false ->
  tokens w' !! idx = Some token ->
  fenceRule Math_random (Some F) idx w
  = Ok (JS.slice out 0 (JS.indexOf ">" out)
          +:+ (" " +:+ renderAttrs token)
          +:+ JS.sliceFrom out (JS.indexOf ">" out)) w'.
Proof.
  intros HF Hpre Htok. unfold fenceRule, bind, call, getToken.
  now rewrite HF, Htok, Hpre.
Qed.

(** *** The registry entries of the patched and adapted rules *)

Lemma installAdapters_entries (rules : gmap string Rule) :
  installAdapters Math_random rules !! "directive"
  = Some (newRule (rules !! "directive"))
  /\ installAdapters Math_random rules !! "directive_error"
     = Some (newRule (rules !! "directive_error"))
  /\ installAdapters Math_random rules !! "text"
     = Some (textRule (rules !! "text"))
  /\ installAdapters Math_random rules !! "fence"
     = Some (fenceRule Math_random (rules !! "fence")).
Proof.
  unfold installAdapters, wrapFencedLinesInSpan, wrapTextInSpan,
    overrideDefaultDirectives.
  repeat split.
  - rewrite !lookup_insert_ne by discriminate. apply lookup_insert_eq.
  - rewrite !lookup_insert_ne by discriminate. rewrite lookup_insert_eq.
    now rewrite lookup_insert_ne by discriminate.
  - rewrite lookup_insert_ne by discriminate. rewrite lookup_insert_eq.
    now rewrite !lookup_insert_ne by discriminate.
  - rewrite lookup_insert_eq.
    now rewrite !lookup_insert_ne by discriminate.
Qed.

Lemma not_container_name (k : string) :
  k ∈ ["directive"; "directive_error"; "text"; "fence"] ->
  (k ∉ ["softbreak"; "paragraph_open"; "heading_open"; "admonition_open";
        "link_open"])
  /\ includes inlineContainers k = false.
Proof.
  rewrite !elem_of_cons, elem_of_nil.
  intros [->|[->|[->|[->|[]]]]]; split; try reflexivity;
    intuition discriminate.
Qed.

(** The final rule of each of the four types is the interception layer
    around the patched or adapted rule. *)
Lemma markdownSourceMap_entries (rules : gmap string Rule) :
  markdownSourceMap Math_random renderToken rules !! "directive"
  = Some (addLineNumberToTokens Math_random renderToken
            (Some (newRule (rules !! "directive"))))
  /\ markdownSourceMap Math_random renderToken rules !! "directive_error"
     = Some (addLineNumberToTokens Math_random renderToken
               (Some (newRule (rules !! "directive_error"))))
  /\ markdownSourceMap Math_random renderToken rules !! "text"
     = Some (addLineNumberToTokens Math_random renderToken
               (Some (textRule (rules !! "text"))))
  /\ markdownSourceMap Math_random renderToken rules !! "fence"
     = Some (addLineNumberToTokens Math_random renderToken
               (Some (fenceRule Math_random (rules !! "fence")))).
Proof.
  destruct (installAdapters_entries rules) as (Hd & He & Ht & Hf).
  repeat split;
    (rewrite markdownSourceMap_wrapped_once;
     [ first [now rewrite Hd | now rewrite He | now rewrite Ht
             | now rewrite Hf]
     | first [rewrite Hd | rewrite He | rewrite Ht | rewrite Hf]; eauto
     | apply not_container_name; rewrite !elem_of_cons; tauto ]).
Qed.

(** A spanned token of one of the four types, rendered by the pipeline:
    the annotation comes first, the patched or adapted rule second. *)
Lemma renderOne_intercepted (rules : gmap string Rule) (inner : Rule)
    (idx : nat) (w : World) (tok : Token) (s e : Z) :
  tokens w !! idx = Some tok ->
  type tok ∈ ["directive"; "directive_error"; "text"; "fence"] ->
  markdownSourceMap Math_random renderToken rules !! type tok
  = Some (addLineNumberToTokens Math_random renderToken (Some inner)) ->
  map tok = Some (s, e) ->
  renderOne renderToken (markdownSourceMap Math_random renderToken rules)
    idx w
  = inner idx (annotated Math_random idx tok
                 (s + startLine (env w) - chunkCorrection (env w)) w).
Proof.
  intros Htok Hty Hrule Hmap.
  unfold renderOne, bind, getToken. rewrite Htok, Hrule.
  unfold addLineNumberToTokens, bind.
  rewrite (annotate_spanned Math_random idx w tok s e Htok); try assumption.
  - reflexivity.
  - now apply not_container_name.
Qed.

Lemma annotated_lookup (idx : nat) (w : World) (tok : Token) (line : Z) :
  tokens w !! idx = Some tok ->
  tokens (annotated Math_random idx tok line w) !! idx
  = Some (attrSet SRC_LINE_ID (lineId Math_random (minted w)) tok)
  /\ lineMap (env (annotated Math_random idx tok line w)) !! line
     = Some (lineId Math_random (minted w)).
Proof.
  intros Htok. unfold annotated. simpl. split.
  - apply list_lookup_insert_eq. eapply lookup_lt_Some; eauto.
  - apply lookup_insert_eq.
Qed.

(** C6: the patched rule of a directive or of its error fallback returns
    the output of the original rule with the attributes the token has at
    that moment inserted right before the first closing angle bracket;
    and as the interception layer sets the identifier on the token before
    it calls the patched rule, the opening tag of such a block carries
    the attribute [data-line-id] with the very identifier that the Line
    Map holds for the line of the block. *)
Theorem directive_tag_carries_identifier :
  (forall (D : Rule) (idx : nat) (w w' : World) (token : Token)
          (pre post : string),
      D idx w = Ok (pre +:+ ">" +:+ post) w' ->
      tokens w' !! idx = Some token ->
      JS.find ">" pre = None ->
      newRule (Some D) idx w
      = Ok (pre +:+ renderAttrs token +:+ ">" +:+ post) w')
  /\ (forall (rules : gmap string Rule) (D : Rule) (idx : nat) (w : World)
             (tok : Token) (s e : Z) (pre post : string),
        type tok = "directive" \/ type tok = "directive_error" ->
        rules !! type tok = Some D ->
        tokens w !! idx = Some tok ->
        map tok = Some (s, e) ->
        let line := s + startLine (env w) - chunkCorrection (env w) in
        let id := lineId Math_random (minted w) in
        let w1 := annotated Math_random idx tok line w in
        D idx w1 = Ok (pre +:+ ">" +:+ post) w1 ->
        JS.find ">" pre = None ->
        escapeHtml id = id ->
        exists before after,
          renderOne renderToken
            (markdownSourceMap Math_random renderToken rules) idx w
          = Ok (pre +:+ (before +:+ idAttr id +:+ after) +:+ ">" +:+ post) w1
          /\ lineMap (env w1) !! line = Some id).
Proof.
  split; [apply newRule_before_bracket|].
  intros rules D idx w tok s e pre post Hty HD Htok Hmap line id w1
         Hout Hpre Hid.
  destruct (annotated_lookup idx w tok line Htok) as [Htok1 Hline].
  destruct (renderAttrs_attrSet SRC_LINE_ID id tok) as (before & after & Hattrs).
  exists before, after. split; [|exact Hline].
  destruct (markdownSourceMap_entries rules) as (Hd & He & _).
  rewrite (renderOne_intercepted rules (newRule (Some D)) idx w tok s e);
    try assumption.
  - fold line. fold w1.
    rewrite (newRule_before_bracket D idx w1 w1 _ pre post Hout Htok1 Hpre).
    fold id. rewrite Hattrs. unfold attrMarkup, idAttr.
    now rewrite escapeHtml_SRC_LINE_ID, Hid.
  - rewrite !elem_of_cons. tauto.
  - destruct Hty as [Hty|Hty]; rewrite Hty in HD |- *.
    + now rewrite Hd, HD.
    + now rewrite He, HD.
Qed.

(** C7: when the output of the unmodified fence rule does not start with
    [<pre], the adapter hands back exactly the world that rule left (no
    Line Map entry, no identifier drawn) and the same output with a
    space and the token's attributes inserted at one place, which is
    right before the first closing angle bracket, the end of the
    wrapper's opening tag; what is before and after that place is the
    original output. *)
Theorem foreign_fence_only_patched
    (F : Rule) (idx : nat) (w w' : World) (out : string) (token : Token) :
  F idx w = Ok out w' ->
  JS.startsWith "<pre" out = false ->
  tokens w' !! idx = Some token ->
  exists start end_,
    out = start +:+ end_
    /\ fenceRule Math_random (Some F) idx w
       = Ok (start +:+ (" " +:+ renderAttrs token) +:+ end_) w'
    /\ forall pre post,
         out = pre +:+ ">" +:+ post -> JS.find ">" pre = None ->
         start = pre /\ end_ = ">" +:+ post.
Proof.
  intros HF Hpre Htok.
  exists (JS.slice out 0 (JS.indexOf ">" out)),
         (JS.sliceFrom out (JS.indexOf ">" out)).
  split; [symmetry; apply slice_recompose|].
  split; [now apply fenceRule_foreign|].
  intros pre post -> Hfresh.
  change (pre +:+ ">" +:+ post) with (pre +:+ String ">" post).
  now destruct (slice_at_first ">" pre post Hfresh) as (_ & -> & ->).
Qed.

(** *** The round trip *)

(** The one-line paragraph with and without the plugin. *)
Lemma oneLine_markup :
  exists w' w0,
    render Sample.renderToken
      (markdownSourceMap Sample.Math_random Sample.renderToken Sample.rules)
      (Sample.start Sample.oneLine 0 0)
    = Ok ("<p>" +:+ lineSpan "07" "Hello" +:+ "</p>" +:+ Sample.nl) w'
    /\ lineMap (env w') = {[ 0 := "07" ]}
    /\ render Sample.renderToken Sample.rules
         (Sample.start Sample.oneLine 0 0)
       = Ok ("<p>Hello</p>" +:+ Sample.nl) w0
    /\ stripIds ("<p>" +:+ lineSpan "07" "Hello" +:+ "</p>" +:+ Sample.nl)
       = "<p><span>Hello</span></p>" +:+ Sample.nl
    /\ occurrences (idAttr "07")
         ("<p>" +:+ lineSpan "07" "Hello" +:+ "</p>" +:+ Sample.nl) = 1%nat.
Proof.
  eexists _, _. split; [vm_compute; reflexivity|].
  split; [reflexivity|]. split; [vm_compute; reflexivity|].
  split; reflexivity.
Qed.

(** A raw markup block is recorded in the Line Map, and its rule prints
    no attribute: no element bears the identifier. *)
Lemma htmlBlock_markup :
  exists w',
    render Sample.renderToken
      (markdownSourceMap Sample.Math_random Sample.renderToken
         Sample.htmlRules)
      (Sample.start Sample.htmlBlock 0 0)
    = Ok ("<hr>" +:+ Sample.nl) w'
    /\ lineMap (env w') !! 2 = Some "07"
    /\ occurrences (idAttr "07") ("<hr>" +:+ Sample.nl) = O.
Proof.
  eexists. split; [vm_compute; reflexivity|]. split; reflexivity.
Qed.

(** The round trip of C4 fails on the one-line paragraph: without its
    identifier attributes the markup still has the [span] element that
    the text adapter puts around the run. *)
Lemma roundTrip_fails_on_paragraph :
  ~ roundTrip Sample.Math_random Sample.renderToken Sample.rules
      (Sample.start Sample.oneLine 0 0).
Proof.
  intros H.
  destruct oneLine_markup as (w' & w0 & Hr & _ & Hr0 & Hs & _).
  destruct (H _ _ Hr) as [_ [w0' Hr0']].
  rewrite Hs, Hr0 in Hr0'. discriminate Hr0'.
Qed.

(** It also fails on a raw markup block, in its other half. *)
Lemma roundTrip_fails_on_html_block :
  ~ roundTrip Sample.Math_random Sample.renderToken Sample.htmlRules
      (Sample.start Sample.htmlBlock 0 0).
Proof.
  intros H.
  destruct htmlBlock_markup as (w' & Hr & Hm & Ho).
  destruct (H _ _ Hr) as [Hone _].
  specialize (Hone _ _ Hm). rewrite Ho in Hone. discriminate Hone.
Qed.

(** C4, amended: a text run with a known span is recorded in the Line
    Map under a fresh identifier and printed as one [span] element that
    bears this identifier around the output of the unmodified text rule.
    The markup of a pass is therefore not the unmodified markup plus
    attributes: on the one-line paragraph, exactly one element bears the
    identifier of the Line Map, and the markup without identifier
    attributes is the unmodified markup with the run inside
    [<span>...</span>]. *)
Theorem text_run_wrapped_in_identified_span :
  (forall (rules : gmap string Rule) (T : Rule) (idx : nat) (w : World)
          (tok : Token) (s e : Z) (out : string),
      rules !! "text" = Some T ->
      tokens w !! idx = Some tok ->
      type tok = "text" ->
      map tok = Some (s, e) ->
      let line := s + startLine (env w) - chunkCorrection (env w) in
      let id := lineId Math_random (minted w) in
      let w1 := annotated Math_random idx tok line w in
      T idx w1 = Ok out w1 ->
      escapeHtml id = id ->
      exists before after,
        renderOne renderToken
          (markdownSourceMap Math_random renderToken rules) idx w
        = Ok ("<span" +:+ (before +:+ idAttr id +:+ after) +:+ ">" +:+ out
                +:+ "</span>") w1
        /\ lineMap (env w1) !! line = Some id)
  /\ (exists w' w0,
        render Sample.renderToken
          (markdownSourceMap Sample.Math_random Sample.renderToken
             Sample.rules)
          (Sample.start Sample.oneLine 0 0)
        = Ok ("<p>" +:+ lineSpan "07" "Hello" +:+ "</p>" +:+ Sample.nl) w'
        /\ lineMap (env w') = {[ 0 := "07" ]}
        /\ render Sample.renderToken Sample.rules
             (Sample.start Sample.oneLine 0 0)
           = Ok ("<p>Hello</p>" +:+ Sample.nl) w0
        /\ stripIds ("<p>" +:+ lineSpan "07" "Hello" +:+ "</p>" +:+ Sample.nl)
           = "<p><span>Hello</span></p>" +:+ Sample.nl
        /\ occurrences (idAttr "07")
             ("<p>" +:+ lineSpan "07" "Hello" +:+ "</p>" +:+ Sample.nl)
           = 1%nat).
Proof.
  split; [|exact oneLine_markup].
  intros rules T idx w tok s e out HT Htok Hty Hmap line id w1 Hout Hid.
  destruct (annotated_lookup idx w tok line Htok) as [Htok1 Hline].
  destruct (renderAttrs_attrSet SRC_LINE_ID id tok) as (before & after & Hattrs).
  exists before, after. split; [|exact Hline].
  destruct (markdownSourceMap_entries rules) as (_ & _ & Ht & _).
  rewrite (renderOne_intercepted rules (textRule (Some T)) idx w tok s e);
    try assumption.
  - fold line. fold w1.
    rewrite (textRule_wraps T idx w1 w1 out _ Hout Htok1).
    fold id. rewrite Hattrs. unfold attrMarkup, idAttr.
    now rewrite escapeHtml_SRC_LINE_ID, Hid.
  - rewrite Hty, !elem_of_cons. tauto.
  - now rewrite Hty, Ht, HT.
Qed.

End RuleFacts.

(** ** The fence adapter on a code block *)

Lemma filterFrom_notLast (whole l : list string) :
  forall i : nat,
    length whole = (i + length l)%nat ->
    JS.filterFrom notLast whole i l = take (length l - 1) l.
Proof.
  induction l as [|x l IH]; intros i Hlen; [reflexivity|].
  simpl in Hlen. cbn [JS.filterFrom]. unfold notLast at 1.
  destruct l as [|y l].
  - simpl in *. destruct (Z.eqb_spec (Z.of_nat i) (Z.of_nat (length whole) - 1));
      [reflexivity|lia].
  - destruct (Z.eqb_spec (Z.of_nat i) (Z.of_nat (length whole) - 1)) as [He|_].
    + simpl in Hlen. lia.
    + cbn [negb]. rewrite IH by (simpl in *; lia).
      simpl. now rewrite Nat.sub_0_r.
Qed.

(** The filter of line 116 drops the last element, whatever it is. *)
Lemma filter_notLast (segs : list string) :
  JS.filter notLast segs = take (length segs - 1) segs.
Proof. unfold JS.filter. now apply filterFrom_notLast. Qed.

Lemma split_nonempty (c : ascii) (s : string) : JS.split c s <> [].
Proof.
  destruct s as [|a s]; simpl; [discriminate|].
  destruct (Ascii.eqb a c); [discriminate|].
  destruct (JS.split c s); discriminate.
Qed.

(** Splitting after a prefix that has no separator. *)
Lemma split_app_fresh (c : ascii) (p s : string) :
  JS.find c p = None ->
  JS.split c (p +:+ s)
  = match JS.split c s with
    | h :: t => (p +:+ h) :: t
    | [] => []
    end.
Proof.
  induction p as [|a p IH]; simpl.
  - intros _. destruct (JS.split c s) eqn:E; [|reflexivity].
    now apply split_nonempty in E.
  - destruct (Ascii.eqb a c); [discriminate|].
    destruct (JS.find c p); [discriminate|]. intros _.
    rewrite IH by reflexivity.
    destruct (JS.split c s) eqn:E; [|reflexivity].
    now apply split_nonempty in E.
Qed.

Lemma replaceUnsafeChar_no_newline (a : ascii) :
  Ascii.eqb a JS.newline = false ->
  JS.find JS.newline (replaceUnsafeChar a) = None.
Proof.
  intros Ha. unfold replaceUnsafeChar.
  repeat match goal with
         | |- context [if ?b then _ else _] => destruct b; [reflexivity|]
         end.
  simpl. now rewrite Ha.
Qed.

(** Escaping does not move line breaks: the lines of the escaped content
    are the escaped lines of the content. *)
Lemma split_escapeHtml (s : string) :
  JS.split JS.newline (escapeHtml s) = escapeHtml <$> JS.split JS.newline s.
Proof.
  induction s as [|a s IH]; [reflexivity|].
  cbn [escapeHtml JS.split].
  destruct (Ascii.eqb a JS.newline) eqn:Ha.
  - apply Ascii.eqb_eq in Ha as ->. simpl. now rewrite IH.
  - rewrite (split_app_fresh _ _ _ (replaceUnsafeChar_no_newline a Ha)), IH.
    destruct (JS.split JS.newline s) eqn:E; [now apply split_nonempty in E|].
    reflexivity.
Qed.

(** Content that ends with a line break splits into its lines and one
    empty segment. *)
Lemma split_trailing_newline (body : string) :
  JS.split JS.newline (body +:+ JS.str JS.newline)
  = JS.split JS.newline body ++ [EmptyString].
Proof.
  induction body as [|a body IH]; [reflexivity|].
  simpl. rewrite IH. destruct (Ascii.eqb a JS.newline); [reflexivity|].
  destruct (JS.split JS.newline body) eqn:E; [now apply split_nonempty in E|].
  reflexivity.
Qed.

(** Content that does not end with a line break splits into lines the
    last of which is not empty. *)
Lemma split_last_nonempty (s : string) :
  s <> EmptyString ->
  (forall body, s <> body +:+ JS.str JS.newline) ->
  exists lines lastLine,
    JS.split JS.newline s = lines ++ [lastLine] /\ lastLine <> EmptyString.
Proof.
  induction s as [|a s IH]; intros Hne Hend; [contradiction|].
  simpl. destruct (Ascii.eqb a JS.newline) eqn:Ha.
  - apply Ascii.eqb_eq in Ha as ->.
    destruct s as [|b s].
    + exfalso. now apply (Hend EmptyString).
    + destruct IH as (lines & lastLine & Hs & Hl); [discriminate| |].
      * intros body Hb. apply (Hend (String JS.newline body)).
        simpl. now rewrite Hb.
      * exists (EmptyString :: lines), lastLine. now rewrite Hs.
  - destruct s as [|b s].
    + exists [], (JS.str a). split; [reflexivity|discriminate].
    + destruct IH as (lines & lastLine & Hs & Hl); [discriminate| |].
      * intros body Hb. apply (Hend (String a body)).
        simpl. now rewrite Hb.
      * rewrite Hs. destruct lines as [|l lines]; simpl.
        -- exists [], (String a lastLine). split; [reflexivity|discriminate].
        -- now exists (String a l :: lines), lastLine.
Qed.

Lemma take_all_but_last {A} (l : list A) (x : A) :
  take (length (l ++ [x]) - 1) (l ++ [x]) = l.
Proof.
  rewrite length_app. simpl.
  replace (length l + 1 - 1)%nat with (length l) by lia.
  now rewrite take_app_length.
Qed.

Section FenceFacts.

Variable Math_random : nat -> string.

Lemma recordLines_outside (start : Z) (count : nat) :
  forall (i n0 : nat) (m : gmap Z string) (k : Z),
    (forall j, (j < count)%nat -> k <> start + Z.of_nat (i + j) + 1) ->
    recordLines Math_random start i n0 count m !! k = m !! k.
Proof.
  induction count as [|count IH]; intros i n0 m k Hk; [reflexivity|].
  simpl. rewrite IH.
  - apply lookup_insert_ne. specialize (Hk O ltac:(lia)).
    rewrite Nat.add_0_r in Hk. congruence.
  - intros j Hj. specialize (Hk (S j) ltac:(lia)).
    now replace (S i + j)%nat with (i + S j)%nat by lia.
Qed.

Lemma recordLines_inside (start : Z) (count : nat) :
  forall (i n0 : nat) (m : gmap Z string) (j : nat),
    (j < count)%nat ->
    recordLines Math_random start i n0 count m
      !! (start + Z.of_nat (i + j) + 1)
    = Some (lineId Math_random (n0 + j)).
Proof.
  induction count as [|count IH]; intros i n0 m j Hj; [lia|].
  simpl. destruct j as [|j].
  - rewrite recordLines_outside by (intros j Hlt; lia).
    rewrite !Nat.add_0_r. apply lookup_insert_eq.
  - replace (i + S j)%nat with (S i + j)%nat by lia.
    replace (n0 + S j)%nat with (S n0 + j)%nat by lia.
    apply IH. lia.
Qed.

(** The world after [count] lines have been wrapped. *)
Lemma wrapLines_run (start : Z) (lines : list string) :
  forall (i : nat) (w : World),
    wrapLines Math_random start i lines w
    = Ok (imap (fun j l => lineSpan (lineId Math_random (minted w + j)) l)
            lines)
         (mkWorld (tokens w)
            (mkEnv (startLine (env w)) (chunkId (env w))
               (recordLines Math_random start i (minted w) (length lines)
                  (lineMap (env w))))
            (minted w + length lines)).
Proof.
  induction lines as [|l rest IH]; intros i w.
  - simpl. unfold ret. destruct w as [t [sl ci lm] n]. simpl.
    now rewrite Nat.add_0_r.
  - cbn [wrapLines]. unfold bind at 1. unfold wrapLine, bind, randomLineId,
      lineMapSet, ret. cbn [tokens env minted startLine chunkId lineMap].
    rewrite IH. cbn [tokens env minted startLine chunkId lineMap].
    rewrite imap_cons. cbn [length recordLines]. f_equal.
    + f_equal; [now rewrite Nat.add_0_r|].
      apply imap_ext. intros j x _. simpl. f_equal. f_equal. lia.
    + f_equal. lia.
Qed.

(** The fence adapter on the output of a code block. *)
Lemma fenceRule_code (F : Rule) (idx : nat) (w w' : World) (out : string)
    (token : Token) (s e : Z) :
  F idx w = Ok out w' ->
  JS.startsWith "<pre" out = true ->
  tokens w' !! idx = Some token ->
  map token = Some (s, e) ->
  let start := s + startLine (env w') - chunkCorrection (env w') in
  let segs := JS.split JS.newline (content token) in
  let lines := take (length segs - 1) segs in
  fenceRule Math_random (Some F) idx w
  = Ok ("<pre><code" +:+ renderAttrs token +:+ ">"
          +:+ JS.join (JS.str JS.newline)
                (imap (fun j l => lineSpan (lineId Math_random (minted w' + j))
                                    (escapeHtml l)) lines)
          +:+ "</code></pre>" +:+ JS.str JS.newline)
       (mkWorld (tokens w')
          (mkEnv (startLine (env w')) (chunkId (env w'))
             (recordLines Math_random start O (minted w') (length lines)
                (lineMap (env w'))))
          (minted w' + length lines)).
Proof.
  intros HF Hpre Htok Hmap start segs lines.
  unfold fenceRule, bind at 1, call. rewrite HF.
  unfold bind at 1, getToken. rewrite Htok, Hpre. cbn [negb].
  rewrite Hmap. unfold bind at 1, getEnv. fold start.
  rewrite filter_notLast, split_escapeHtml. fold segs.
  rewrite length_fmap, <- fmap_take. fold lines.
  unfold bind. rewrite wrapLines_run. unfold ret.
  rewrite imap_fmap, length_fmap. reflexivity.
Qed.

(** The element the adapter puts around a line, written out. *)
Lemma lineSpan_markup (id l : string) :
  lineSpan id l
  = "<span data-line-id=" +:+ JS.str JS.dquote +:+ id +:+ JS.str JS.dquote
      +:+ ">" +:+ l +:+ "</span>".
Proof. reflexivity. Qed.

(** The four-line code block through the adapter, from line 0 as the
    first chunk. *)
Lemma fourLines_adapter :
  exists w'',
    fenceRule Math_random (Some Sample.fenceDefault) O
      (Sample.start Sample.fourLines 0 0)
    = Ok ("<pre><code>"
            +:+ JS.join Sample.nl
                  [lineSpan (lineId Math_random 0) "alpha";
                   lineSpan (lineId Math_random 1) "beta";
                   lineSpan (lineId Math_random 2) "gamma";
                   lineSpan (lineId Math_random 3) "delta"]
            +:+ "</code></pre>" +:+ Sample.nl) w''
    /\ lineMap (env w'')
       = <[9 := lineId Math_random 3]>
           (<[8 := lineId Math_random 2]>
              (<[7 := lineId Math_random 1]>
                 {[ 6 := lineId Math_random 0 ]}))
    /\ minted w'' = 4%nat.
Proof. eexists. split; [vm_compute; reflexivity|]. split; reflexivity. Qed.

(** In a whole pass the interception layer comes first: it annotates the
    fence token itself, so that the line of the opening fence is recorded
    too, with the identifier set on the [code] element. *)
Lemma fourLines_pass :
  exists html w',
    render Sample.renderToken
      (markdownSourceMap Math_random Sample.renderToken Sample.rules)
      (Sample.start Sample.fourLines 0 0) = Ok html w'
    /\ lineMap (env w')
       = <[9 := lineId Math_random 4]>
           (<[8 := lineId Math_random 3]>
              (<[7 := lineId Math_random 2]>
                 (<[6 := lineId Math_random 1]>
                    {[ 5 := lineId Math_random 0 ]}))).
Proof. eexists _, _. split; [vm_compute; reflexivity|reflexivity]. Qed.

Lemma append_empty (a : string) : a +:+ EmptyString = a.
Proof. induction a as [|x a IH]; simpl; [reflexivity|]. now rewrite IH. Qed.

(** The opening tags of a code block whose token has the identifier as
    its only attribute, written out. *)
Lemma code_open_markup (v rest : string) :
  "<pre><code" +:+ renderAttrsList [(SRC_LINE_ID, v)] +:+ rest
  = "<pre><code data-line-id=" +:+ JS.str JS.dquote +:+ escapeHtml v
      +:+ JS.str JS.dquote +:+ rest.
Proof.
  cbn [renderAttrsList]. unfold attrMarkup.
  rewrite escapeHtml_SRC_LINE_ID, !append_assoc. reflexivity.
Qed.

(** The same pass with its markup. *)
Lemma fourLines_pass_markup :
  exists w',
    render Sample.renderToken
      (markdownSourceMap Math_random Sample.renderToken Sample.rules)
      (Sample.start Sample.fourLines 0 0)
    = Ok ("<pre><code data-line-id=" +:+ JS.str JS.dquote
            +:+ escapeHtml (lineId Math_random 0) +:+ JS.str JS.dquote
            +:+ ">"
            +:+ JS.join Sample.nl
                  [lineSpan (lineId Math_random 1) "alpha";
                   lineSpan (lineId Math_random 2) "beta";
                   lineSpan (lineId Math_random 3) "gamma";
                   lineSpan (lineId Math_random 4) "delta"]
            +:+ "</code></pre>" +:+ Sample.nl) w'
    /\ lineMap (env w')
       = <[9 := lineId Math_random 4]>
           (<[8 := lineId Math_random 3]>
              (<[7 := lineId Math_random 2]>
                 (<[6 := lineId Math_random 1]>
                    {[ 5 := lineId Math_random 0 ]})))
    /\ minted w' = 5%nat.
Proof.
  rewrite <- code_open_markup.
  match goal with
  | |- context [Ok ?h _] => rewrite <- (append_empty h)
  end.
  eexists. split; [vm_compute; reflexivity|]. split; reflexivity.
Qed.

(** C3 (corrected): on a code block the adapter escapes the content,
    splits it at line breaks, drops the last segment (the empty one that
    follows the final line break), and prints line [i] of the rest inside
    [<span data-line-id=...>] with the next draw of the random source as
    identifier, which it records at
    [span.start + startLine - chunkCorrection + i + 1]; no other Line Map
    key is touched.  For the code block of four lines whose fence is at
    line 5, rendered from line 0 as chunk 0, the adapter alone draws four
    identifiers and records them at lines 6, 7, 8, 9.  A pass through the
    plugin draws five: the first is recorded at line 5, the line of the
    opening fence, and printed on the [code] element, the other four at
    lines 6 to 9 around the content lines; line 10, the closing fence,
    gets none.  In both cases the identifiers are distinct exactly when
    the draws print differently without their dot. *)
Theorem fence_lines_wrapped_and_recorded :
  (forall (F : Rule) (idx : nat) (w w' : World) (out : string)
          (token : Token) (s e : Z),
      F idx w = Ok out w' ->
      JS.startsWith "<pre" out = true ->
      tokens w' !! idx = Some token ->
      map token = Some (s, e) ->
      let start := s + startLine (env w') - chunkCorrection (env w') in
      let segs := JS.split JS.newline (content token) in
      let lines := take (length segs - 1) segs in
      let n0 := minted w' in
      exists w'',
        fenceRule Math_random (Some F) idx w
        = Ok ("<pre><code" +:+ renderAttrs token +:+ ">"
                +:+ JS.join (JS.str JS.newline)
                      (imap (fun i l =>
                               "<span data-line-id=" +:+ JS.str JS.dquote
                                 +:+ JS.removeFirst "."
                                       (Math_random (n0 + i))
                                 +:+ JS.str JS.dquote +:+ ">"
                                 +:+ escapeHtml l +:+ "</span>") lines)
                +:+ "</code></pre>" +:+ JS.str JS.newline) w''
        /\ tokens w'' = tokens w'
        /\ minted w'' = (n0 + length lines)%nat
        /\ (forall i, (i < length lines)%nat ->
                      lineMap (env w'') !! (start + Z.of_nat i + 1)
                      = Some (JS.removeFirst "." (Math_random (n0 + i))))
        /\ (forall k, (forall i, (i < length lines)%nat ->
                                 k <> start + Z.of_nat i + 1) ->
                      lineMap (env w'') !! k = lineMap (env w') !! k)
        /\ (forall body, content token = body +:+ JS.str JS.newline ->
                         segs = lines ++ [EmptyString]
                         /\ lines = JS.split JS.newline body))
  /\ (let id := fun n : nat => JS.removeFirst "." (Math_random n) in
      let span := fun (i : nat) (l : string) =>
                    "<span data-line-id=" +:+ JS.str JS.dquote +:+ id i
                      +:+ JS.str JS.dquote +:+ ">" +:+ l +:+ "</span>" in
      (exists w'',
          fenceRule Math_random (Some Sample.fenceDefault) O
            (Sample.start Sample.fourLines 0 0)
          = Ok ("<pre><code>"
                  +:+ JS.join Sample.nl
                        [span 0%nat "alpha"; span 1%nat "beta";
                         span 2%nat "gamma"; span 3%nat "delta"]
                  +:+ "</code></pre>" +:+ Sample.nl) w''
          /\ lineMap (env w'')
             = <[9 := id 3%nat]>
                 (<[8 := id 2%nat]> (<[7 := id 1%nat]> {[ 6 := id 0%nat ]}))
          /\ minted w'' = 4%nat
          /\ (distinctIdentifiersAt [6; 7; 8; 9] (lineMap (env w''))
              <-> NoDup [id 0%nat; id 1%nat; id 2%nat; id 3%nat]))
      /\ (exists w',
            render Sample.renderToken
              (markdownSourceMap Math_random Sample.renderToken
                 Sample.rules)
              (Sample.start Sample.fourLines 0 0)
            = Ok ("<pre><code data-line-id=" +:+ JS.str JS.dquote
                    +:+ escapeHtml (id 0%nat) +:+ JS.str JS.dquote +:+ ">"
                    +:+ JS.join Sample.nl
                          [span 1%nat "alpha"; span 2%nat "beta";
                           span 3%nat "gamma"; span 4%nat "delta"]
                    +:+ "</code></pre>" +:+ Sample.nl) w'
            /\ lineMap (env w')
               = <[9 := id 4%nat]>
                   (<[8 := id 3%nat]>
                      (<[7 := id 2%nat]>
                         (<[6 := id 1%nat]> {[ 5 := id 0%nat ]})))
            /\ minted w' = 5%nat
            /\ lineMap (env w') !! 10 = None
            /\ ~ distinctIdentifiersAt [6; 7; 8; 9] (lineMap (env w'))
            /\ (distinctIdentifiersAt [5; 6; 7; 8; 9] (lineMap (env w'))
                <-> NoDup [id 0%nat; id 1%nat; id 2%nat; id 3%nat;
                           id 4%nat]))).
Proof.
  split.
  - intros F idx w w' out token s e HF Hpre Htok Hmap start segs lines n0.
    eexists. split; [exact (fenceRule_code F idx w w' out token s e
                              HF Hpre Htok Hmap)|].
    cbn [tokens env minted lineMap]. fold start segs lines.
    split; [reflexivity|]. split; [reflexivity|]. split; [|split].
    + intros i Hi.
      exact (recordLines_inside start (length lines) O n0
               (lineMap (env w')) i Hi).
    + intros k Hk. apply recordLines_outside. intros j Hj. now apply Hk.
    + intros body Hbody. unfold lines, segs. rewrite Hbody.
      rewrite split_trailing_newline. now rewrite take_all_but_last.
  - intros id span. split.
    + destruct fourLines_adapter as (w'' & Hr & Hm & Hn).
      exists w''. do 3 (split; [assumption|]).
      rewrite Hm. unfold id, lineId. clear.
      generalize (JS.removeFirst "." (Math_random 0%nat)),
        (JS.removeFirst "." (Math_random 1%nat)),
        (JS.removeFirst "." (Math_random 2%nat)),
        (JS.removeFirst "." (Math_random 3%nat)).
      intros a b c d.
      change (<[9 := d]> (<[8 := c]> (<[7 := b]> {[ 6 := a ]})))
        with (list_to_map [(9, d); (8, c); (7, b); (6, a)] : gmap Z string).
      distinct_written.
    + destruct fourLines_pass_markup as (w' & Hr & Hm & Hn).
      exists w'. do 3 (split; [assumption|]).
      rewrite Hm. unfold id, lineId. clear.
      generalize (JS.removeFirst "." (Math_random 0%nat)),
        (JS.removeFirst "." (Math_random 1%nat)),
        (JS.removeFirst "." (Math_random 2%nat)),
        (JS.removeFirst "." (Math_random 3%nat)),
        (JS.removeFirst "." (Math_random 4%nat)).
      intros a b c d f. split; [reflexivity|]. split.
      * intros [Hk _].
        assert (Hin : 5 ∈ [6; 7; 8; 9]) by (apply Hk; now exists a).
        rewrite !elem_of_cons, elem_of_nil in Hin. lia.
      * change (<[9 := f]>
                  (<[8 := d]> (<[7 := c]> (<[6 := b]> {[ 5 := a ]}))))
          with (list_to_map [(9, f); (8, d); (7, c); (6, b); (5, a)]
                : gmap Z string).
        distinct_written.
Qed.

(** C10: the adapter drops the last segment of the split whatever it
    holds.  When the content does not end with a line break, that
    segment is the final line of the content: it is not among the
    wrapped lines of the output, no identifier is drawn for it, and the
    Line Map key where it would be recorded is left as it was. *)
Theorem fence_drops_unterminated_last_line :
  (forall segs : list string,
      JS.filter notLast segs = take (length segs - 1) segs)
  /\ (forall (F : Rule) (idx : nat) (w w' : World) (out : string)
             (token : Token) (s e : Z),
        F idx w = Ok out w' ->
        JS.startsWith "<pre" out = true ->
        tokens w' !! idx = Some token ->
        map token = Some (s, e) ->
        (forall body, content token <> body +:+ JS.str JS.newline) ->
        let start := s + startLine (env w') - chunkCorrection (env w') in
        let n0 := minted w' in
        exists lines lastLine w'',
          JS.split JS.newline (content token) = lines ++ [lastLine]
          /\ (content token <> EmptyString -> lastLine <> EmptyString)
          /\ fenceRule Math_random (Some F) idx w
             = Ok ("<pre><code" +:+ renderAttrs token +:+ ">"
                     +:+ JS.join (JS.str JS.newline)
                           (imap (fun i l =>
                                    lineSpan (lineId Math_random (n0 + i))
                                      (escapeHtml l)) lines)
                     +:+ "</code></pre>" +:+ JS.str JS.newline) w''
          /\ minted w'' = (n0 + length lines)%nat
          /\ (forall i, (i < length lines)%nat ->
                        lineMap (env w'') !! (start + Z.of_nat i + 1)
                        = Some (lineId Math_random (n0 + i)))
          /\ lineMap (env w'') !! (start + Z.of_nat (length lines) + 1)
             = lineMap (env w') !! (start + Z.of_nat (length lines) + 1)).
Proof.
  split; [exact filter_notLast|].
  intros F idx w w' out token s e HF Hpre Htok Hmap Hend start n0.
  assert (Hsplit : exists lines lastLine,
             JS.split JS.newline (content token) = lines ++ [lastLine]
             /\ (content token <> EmptyString -> lastLine <> EmptyString)).
  { destruct (content token) as [|a c] eqn:Hc.
    - exists [], EmptyString. split; [reflexivity|]. intros H. now elim H.
    - destruct (split_last_nonempty (String a c)) as (lines & lastLine & Hs & Hl);
        [discriminate|exact Hend|].
      exists lines, lastLine. split; [exact Hs|]. intros _. exact Hl. }
  destruct Hsplit as (lines & lastLine & Hs & Hl).
  exists lines, lastLine. eexists.
  split; [exact Hs|]. split; [exact Hl|].
  split.
  { rewrite (fenceRule_code F idx w w' out token s e HF Hpre Htok Hmap).
    rewrite Hs, take_all_but_last. reflexivity. }
  cbn [tokens env minted lineMap]. fold start n0.
  split; [reflexivity|]. split.
  - intros i Hi.
    exact (recordLines_inside start (length lines) O n0
             (lineMap (env w')) i Hi).
  - apply recordLines_outside. intros j Hj. simpl. lia.
Qed.

End FenceFacts.

(** The instance of C3 in the spec's words fails.  Whatever the random
    source, a pass through the plugin also records the line of the opening
    fence, so that the Line Map does not hold identifiers at lines 6 to 9
    only; and with a random source that returns a number twice the adapter
    alone records one identifier at two content lines. *)
Lemma four_line_block_instance_fails :
  (forall Math_random : nat -> string,
      exists html w',
        render Sample.renderToken
          (markdownSourceMap Math_random Sample.renderToken Sample.rules)
          (Sample.start Sample.fourLines 0 0) = Ok html w'
        /\ lineMap (env w') !! 5 = Some (JS.removeFirst "." (Math_random O))
        /\ ~ distinctIdentifiersAt [6; 7; 8; 9] (lineMap (env w')))
  /\ (exists html w'',
        fenceRule Math_random_repeating (Some Sample.fenceDefault) O
          (Sample.start Sample.fourLines 0 0) = Ok html w''
        /\ lineMap (env w'') !! 6 = Some "05"
        /\ lineMap (env w'') !! 8 = Some "05"
        /\ ~ distinctIdentifiersAt [6; 7; 8; 9] (lineMap (env w''))).
Proof.
  split.
  - intros Math_random.
    destruct (fourLines_pass Math_random) as (html & w' & Hr & Hm).
    exists html, w'. split; [exact Hr|]. rewrite Hm.
    split; [reflexivity|].
    intros [Hk _].
    assert (Hin : 5 ∈ [6; 7; 8; 9]) by (apply Hk; now eexists).
    rewrite !elem_of_cons, elem_of_nil in Hin. lia.
  - eexists _, _. split; [vm_compute; reflexivity|].
    split; [reflexivity|]. split; [reflexivity|].
    intros [_ Hinj]. specialize (Hinj 6 8 "05" eq_refl eq_refl).
    discriminate Hinj.
Qed.

(** ** Line Map entries are never removed *)

Lemma keepsLines_ret {A} (a : A) : keepsLines (ret a).
Proof. intros w x w' H. injection H as _ <-. reflexivity. Qed.

Lemma keepsLines_throw {A} : keepsLines (@throw A).
Proof. intros w x w' H. discriminate. Qed.

Lemma keepsLines_bind {A B} (m : M A) (k : A -> M B) :
  keepsLines m -> (forall a, keepsLines (k a)) -> keepsLines (bind m k).
Proof.
  intros Hm Hk w b w' H. unfold bind in H.
  destruct (m w) as [a w1|] eqn:E; [|discriminate].
  etransitivity; [exact (Hm _ _ _ E)|exact (Hk _ _ _ _ H)].
Qed.

Lemma keepsLines_getToken (idx : nat) : keepsLines (getToken idx).
Proof.
  intros w t w' H. unfold getToken in H.
  destruct (tokens w !! idx); [|discriminate]. injection H as _ <-. reflexivity.
Qed.

Lemma keepsLines_getEnv : keepsLines getEnv.
Proof. intros w t w' H. injection H as _ <-. reflexivity. Qed.

Lemma keepsLines_updToken (idx : nat) (f : Token -> Token) :
  keepsLines (updToken idx f).
Proof. intros w t w' H. inversion H; subst. reflexivity. Qed.

Lemma keepsLines_lineMapSet (line : Z) (id : string) :
  keepsLines (lineMapSet line id).
Proof.
  intros w t w' H. inversion H; subst. simpl. apply dom_insert_subseteq.
Qed.

Lemma keepsLines_if {A} (b : bool) (m1 m2 : M A) :
  keepsLines m1 -> keepsLines m2 -> keepsLines (if b then m1 else m2).
Proof. now destruct b. Qed.

Create HintDb keeps.
#[local] Hint Resolve keepsLines_ret keepsLines_throw keepsLines_getToken
  keepsLines_getEnv keepsLines_updToken keepsLines_lineMapSet : keeps.

Section KeepFacts.

Variable Math_random : nat -> string.
Variable renderToken : Rule.
Hypothesis renderToken_keeps : forall idx, keepsLines (renderToken idx).

Lemma keepsLines_randomLineId : keepsLines (randomLineId Math_random).
Proof. intros w t w' H. injection H as _ <-. reflexivity. Qed.

Lemma keepsLines_annotate (idx : nat) : keepsLines (annotate Math_random idx).
Proof.
  unfold annotate. apply keepsLines_bind; [auto with keeps|]. intros tok.
  apply keepsLines_if.
  - apply keepsLines_bind; [auto with keeps|]. intros inl.
    destruct (children inl); [|auto with keeps].
    destruct (walkChildren _ _ _ _); auto with keeps.
  - destruct (map tok) as [[s e]|]; [|auto with keeps].
    apply keepsLines_bind; [auto with keeps|]. intros en.
    apply keepsLines_bind; [apply keepsLines_randomLineId|]. intros id.
    apply keepsLines_bind; auto with keeps.
Qed.

Lemma keepsLines_call (r : option Rule) (idx : nat) :
  (forall f, r = Some f -> forall i, keepsLines (f i)) ->
  keepsLines (call r idx).
Proof. destruct r; simpl; [eauto|auto with keeps]. Qed.

Lemma keepsLines_addLineNumberToTokens (r : option Rule) (idx : nat) :
  (forall f, r = Some f -> forall i, keepsLines (f i)) ->
  keepsLines (addLineNumberToTokens Math_random renderToken r idx).
Proof.
  intros Hr. unfold addLineNumberToTokens.
  apply keepsLines_bind; [apply keepsLines_annotate|]. intros _.
  destruct r; simpl; eauto.
Qed.

Lemma keepsLines_newRule (r : option Rule) (idx : nat) :
  (forall f, r = Some f -> forall i, keepsLines (f i)) ->
  keepsLines (newRule r idx).
Proof.
  intros Hr. unfold newRule.
  apply keepsLines_bind; [now apply keepsLines_call|]. intros html.
  apply keepsLines_bind; auto with keeps.
Qed.

Lemma keepsLines_textRule (r : option Rule) (idx : nat) :
  (forall f, r = Some f -> forall i, keepsLines (f i)) ->
  keepsLines (textRule r idx).
Proof.
  intros Hr. unfold textRule.
  apply keepsLines_bind; [now apply keepsLines_call|]. intros html.
  apply keepsLines_bind; auto with keeps.
Qed.

Lemma keepsLines_wrapLines (start : Z) (lines : list string) :
  forall i, keepsLines (wrapLines Math_random start i lines).
Proof.
  induction lines as [|l rest IH]; intros i; simpl; [auto with keeps|].
  apply keepsLines_bind.
  - unfold wrapLine.
    apply keepsLines_bind; [apply keepsLines_randomLineId|]. intros id.
    apply keepsLines_bind; auto with keeps.
  - intros h. apply keepsLines_bind; [apply IH|]. auto with keeps.
Qed.

Lemma keepsLines_fenceRule (r : option Rule) (idx : nat) :
  (forall f, r = Some f -> forall i, keepsLines (f i)) ->
  keepsLines (fenceRule Math_random r idx).
Proof.
  intros Hr. unfold fenceRule.
  apply keepsLines_bind; [now apply keepsLines_call|]. intros out.
  apply keepsLines_bind; [auto with keeps|]. intros token.
  apply keepsLines_if; [auto with keeps|].
  destruct (map token) as [[s e]|]; [|auto with keeps].
  apply keepsLines_bind; [auto with keeps|]. intros en.
  apply keepsLines_bind; [apply keepsLines_wrapLines|]. auto with keeps.
Qed.

(** Registries all of whose rules keep the Line Map entries. *)
Lemma keeps_insert (rules : gmap string Rule) (k : string) (r : Rule) :
  (forall k' f, rules !! k' = Some f -> forall i, keepsLines (f i)) ->
  (forall i, keepsLines (r i)) ->
  forall k' f, <[k := r]> rules !! k' = Some f -> forall i, keepsLines (f i).
Proof.
  intros Hrules Hr k' f H. destruct (decide (k = k')) as [->|Hne].
  - rewrite lookup_insert_eq in H. now injection H as <-.
  - rewrite lookup_insert_ne in H by assumption. eauto.
Qed.

Lemma keeps_markdownSourceMap (rules : gmap string Rule) :
  (forall k f, rules !! k = Some f -> forall i, keepsLines (f i)) ->
  forall k f,
    markdownSourceMap Math_random renderToken rules !! k = Some f ->
    forall i, keepsLines (f i).
Proof.
  intros Hrules. unfold markdownSourceMap.
  assert (H3 : forall k f, installAdapters Math_random rules !! k = Some f ->
                           forall i, keepsLines (f i)).
  { unfold installAdapters, wrapFencedLinesInSpan, wrapTextInSpan,
      overrideDefaultDirectives.
    apply keeps_insert;
      [apply keeps_insert;
       [apply keeps_insert; [apply keeps_insert; [exact Hrules|]|]|]|];
      intros i.
    - apply keepsLines_newRule. eauto.
    - apply keepsLines_newRule. intros f Hf.
      rewrite !lookup_insert_ne in Hf by discriminate. eauto.
    - apply keepsLines_textRule. intros f Hf.
      rewrite !lookup_insert_ne in Hf by discriminate. eauto.
    - apply keepsLines_fenceRule. intros f Hf.
      rewrite !lookup_insert_ne in Hf by discriminate. eauto. }
  generalize (overrideRules (installAdapters Math_random rules)).
  revert H3. generalize (installAdapters Math_random rules).
  intros rs Hrs l. revert rs Hrs.
  induction l as [|r l IH]; intros rs Hrs; [exact Hrs|].
  simpl. apply IH. unfold overrideRule.
  apply keeps_insert; [exact Hrs|]. intros i.
  apply keepsLines_addLineNumberToTokens. eauto.
Qed.

(** The pipeline keeps the entries when all its rules do. *)
Section Pipeline.

Variable rules : gmap string Rule.
Hypothesis rules_keep :
  forall k f, rules !! k = Some f -> forall i, keepsLines (f i).

Lemma keepsLines_renderOne (idx : nat) :
  keepsLines (renderOne renderToken rules idx).
Proof.
  unfold renderOne. apply keepsLines_bind; [auto with keeps|]. intros tok.
  simpl. destruct (rules !! type tok) eqn:E; eauto.
Qed.

Lemma keepsLines_renderInlineLoop (n : nat) :
  forall i, keepsLines (renderInlineLoop renderToken rules n i).
Proof.
  induction n as [|n IH]; intros i; simpl; [auto with keeps|].
  apply keepsLines_bind; [apply keepsLines_renderOne|]. intros h.
  apply keepsLines_bind; [apply IH|]. auto with keeps.
Qed.

Lemma keepsLines_withChildren (idx : nat) (m : M string) :
  keepsLines m -> keepsLines (withChildren idx m).
Proof.
  intros Hm w html w' H. unfold withChildren in H.
  destruct (tokens w !! idx) as [tok|]; [|discriminate].
  destruct (children tok) as [cs|]; [|discriminate].
  destruct (m _) as [h w1|] eqn:E; [|discriminate].
  inversion H; subst. simpl. exact (Hm _ _ _ E).
Qed.

Lemma keepsLines_renderStep (idx : nat) :
  keepsLines (renderStep renderToken rules idx).
Proof.
  unfold renderStep. apply keepsLines_bind; [auto with keeps|]. intros tok.
  apply keepsLines_if; [|apply keepsLines_renderOne].
  apply keepsLines_withChildren. intros w. unfold renderInline.
  apply keepsLines_renderInlineLoop.
Qed.

Lemma keepsLines_renderLoop (n : nat) :
  forall i, keepsLines (renderLoop renderToken rules n i).
Proof.
  induction n as [|n IH]; intros i; simpl; [auto with keeps|].
  apply keepsLines_bind; [apply keepsLines_renderStep|]. intros h.
  apply keepsLines_bind; [apply IH|]. auto with keeps.
Qed.

Lemma keepsLines_render : keepsLines (render renderToken rules).
Proof. intros w. unfold render. apply keepsLines_renderLoop. Qed.

End Pipeline.

End KeepFacts.

Section LastWriteFacts.

Variable Math_random : nat -> string.
Variable renderToken : Rule.

(** C5: two tokens that claim the same absolute line are both annotated,
    each with its own draw; the second write replaces the first, so that
    afterwards the Line Map holds the later identifier at that line and
    is the map before both writes with that one entry set.  No step of
    a pass removes an entry: every line that has an entry when a pass
    starts, or gets one during it, still has one when it ends, provided
    the wrapped renderer's own rules remove none. *)
Theorem last_write_wins_and_entries_stay :
  (forall (idx1 idx2 : nat) (w : World) (tok1 tok2 : Token) (s e1 e2 : Z),
      idx1 <> idx2 ->
      tokens w !! idx1 = Some tok1 ->
      tokens w !! idx2 = Some tok2 ->
      includes inlineContainers (type tok1) = false ->
      includes inlineContainers (type tok2) = false ->
      map tok1 = Some (s, e1) ->
      map tok2 = Some (s, e2) ->
      let line := s + startLine (env w) - chunkCorrection (env w) in
      let id1 := lineId Math_random (minted w) in
      let id2 := lineId Math_random (S (minted w)) in
      exists w1 w2,
        annotate Math_random idx1 w = Ok tt w1
        /\ annotate Math_random idx2 w1 = Ok tt w2
        /\ lineMap (env w1) !! line = Some id1
        /\ lineMap (env w2) !! line = Some id2
        /\ lineMap (env w2) = <[line := id2]> (lineMap (env w))
        /\ minted w2 = S (S (minted w))
        /\ (exists t1, tokens w2 !! idx1 = Some t1
                       /\ attrGet SRC_LINE_ID t1 = Some id1)
        /\ (exists t2, tokens w2 !! idx2 = Some t2
                       /\ attrGet SRC_LINE_ID t2 = Some id2))
  /\ (forall idx, keepsLines (annotate Math_random idx))
  /\ (forall (rules : gmap string Rule),
        (forall idx, keepsLines (renderToken idx)) ->
        (forall k f, rules !! k = Some f -> forall i, keepsLines (f i)) ->
        forall w html w',
          render renderToken
            (markdownSourceMap Math_random renderToken rules) w
          = Ok html w' ->
          forall line, is_Some (lineMap (env w) !! line) ->
                       is_Some (lineMap (env w') !! line)).
Proof.
  split; [|split].
  - intros idx1 idx2 w tok1 tok2 s e1 e2 Hne H1 H2 Hc1 Hc2 Hm1 Hm2
           line id1 id2.
    pose proof (annotate_spanned Math_random idx1 w tok1 s e1 H1 Hc1 Hm1)
      as Ha1.
    set (w1 := annotated Math_random idx1 tok1 line w) in *.
    assert (H2' : tokens w1 !! idx2 = Some tok2).
    { unfold w1, annotated. simpl.
      now rewrite list_lookup_insert_ne by assumption. }
    pose proof (annotate_spanned Math_random idx2 w1 tok2 s e2 H2' Hc2 Hm2)
      as Ha2.
    exists w1, (annotated Math_random idx2 tok2 line w1).
    split; [exact Ha1|]. split; [exact Ha2|].
    split; [apply lookup_insert_eq|].
    split; [apply lookup_insert_eq|].
    split; [simpl; apply insert_insert_eq|].
    split; [reflexivity|]. split.
    + exists (attrSet SRC_LINE_ID id1 tok1). split; [|apply attrGet_attrSet].
      simpl. rewrite list_lookup_insert_ne by congruence.
      apply list_lookup_insert_eq. eapply lookup_lt_Some; eauto.
    + exists (attrSet SRC_LINE_ID id2 tok2). split; [|apply attrGet_attrSet].
      simpl. apply list_lookup_insert_eq. eapply lookup_lt_Some; eauto.
  - apply keepsLines_annotate.
  - intros rules Hrt Hrules w html w' Hr line Hin.
    apply elem_of_dom.
    assert (Hk : keepsLines
                   (render renderToken
                      (markdownSourceMap Math_random renderToken rules))).
    { apply keepsLines_render; [exact Hrt|].
      now apply keeps_markdownSourceMap. }
    apply (Hk _ _ _ Hr). now apply elem_of_dom.
Qed.

End LastWriteFacts.

(** ** The theorems at concrete inputs *)

Lemma annotate_writes_absolute_line_witness :
  tokens Sample.chunk1 !! O = Some Sample.spanned
  /\ includes inlineContainers (type Sample.spanned) = false
  /\ map Sample.spanned = Some (3, 4)
  /\ exists w1 tok1,
       annotate Sample.Math_random O Sample.chunk1 = Ok tt w1
       /\ addLineNumberToTokens Sample.Math_random Sample.renderToken
            (Some Sample.textDefault) O Sample.chunk1
          = delegate Sample.renderToken (Some Sample.textDefault) O w1
       /\ lineMap (env w1) = <[12 := "07"]> ∅
       /\ lineMap (env w1) !! 12 = Some "07"
       /\ tokens w1 = <[O := tok1]> [Sample.spanned]
       /\ tokens w1 !! O = Some tok1
       /\ attrGet SRC_LINE_ID tok1 = Some "07"
       /\ minted w1 = 1%nat.
Proof.
  split; [reflexivity|]. split; [reflexivity|]. split; [reflexivity|].
  exact (proj1 (annotate_writes_absolute_line Sample.Math_random
                  Sample.renderToken)
           (Some Sample.textDefault) O Sample.chunk1 Sample.spanned 3 4
           eq_refl eq_refl eq_refl).
Defined.

Lemma container_walk_witness :
  tokens (Sample.start Sample.threeLines 0 0) !! O = Some (Sample.opener 0)
  /\ type (Sample.opener 0) = "paragraph_open"
  /\ map (Sample.opener 0) = Some (0, 1)
  /\ tokens (Sample.start Sample.threeLines 0 0) !! 1%nat
     = Some (Sample.inline 0 Sample.threeKids)
  /\ children (Sample.inline 0 Sample.threeKids) = Some Sample.threeKids
  /\ (exists cs',
         annotate Sample.Math_random O (Sample.start Sample.threeLines 0 0)
         = Ok tt (mkWorld
                    (<[1%nat := setChildren (Some cs')
                                  (Sample.inline 0 Sample.threeKids)]>
                       Sample.threeLines)
                    (mkEnv 0 0 ∅) O)
         /\ cs' !! O = Some (Sample.text (Some (0, 1)) "Line1")
         /\ cs' !! 1%nat = Some Sample.softbreak
         /\ cs' !! 2%nat = Some (Sample.text (Some (1, 2)) "Line2")
         /\ cs' !! 4%nat = Some (Sample.text (Some (2, 3)) "Line3"))
  /\ (exists html w',
         render Sample.renderToken
           (markdownSourceMap Sample.Math_random Sample.renderToken
              Sample.rules)
           (Sample.start Sample.threeLines 0 0) = Ok html w'
         /\ lineMap (env w')
            = <[2 := "0777"]> (<[1 := "077"]> {[ 0 := "07" ]})
         /\ distinctIdentifiersAt [0; 1; 2] (lineMap (env w'))).
Proof.
  do 5 (split; [reflexivity|]). split.
  - destruct (proj1 (container_walk_prepares_line_spans Sample.Math_random)
                O (Sample.start Sample.threeLines 0 0) (Sample.opener 0)
                (Sample.inline 0 Sample.threeKids) Sample.threeKids 0 1
                eq_refl (or_introl eq_refl) eq_refl eq_refl eq_refl)
      as (cs' & Hann & _ & Hkids).
    exists cs'. split; [exact Hann|].
    split; [exact (Hkids O _ eq_refl)|].
    split; [exact (Hkids 1%nat _ eq_refl)|].
    split; [exact (Hkids 2%nat _ eq_refl)|exact (Hkids 4%nat _ eq_refl)].
  - destruct (proj2 (container_walk_prepares_line_spans Sample.Math_random))
      as (html & w' & Hr & Hm & _ & _ & Hiff & _).
    exists html, w'. split; [exact Hr|]. split; [exact Hm|].
    apply Hiff. apply (bool_decide_unpack _). vm_compute. reflexivity.
Defined.

Lemma container_needs_inline_successor_witness :
  tokens (Sample.start [Sample.opener 0] 0 0) !! O = Some (Sample.opener 0)
  /\ type (Sample.opener 0) = "paragraph_open"
  /\ length (tokens (Sample.start [Sample.opener 0] 0 0)) = 1%nat
  /\ annotate Sample.Math_random O (Sample.start [Sample.opener 0] 0 0)
     = TypeError
  /\ addLineNumberToTokens Sample.Math_random Sample.renderToken None O
       (Sample.start [Sample.opener 0] 0 0) = TypeError.
Proof.
  do 3 (split; [reflexivity|]).
  exact (proj1 (proj2 (container_needs_inline_successor Sample.Math_random
                         Sample.renderToken None O
                         (Sample.start [Sample.opener 0] 0 0)
                         (Sample.opener 0) eq_refl (or_introl eq_refl)))
           eq_refl).
Defined.

Lemma softbreak_never_annotated_witness :
  tokens (Sample.start Sample.threeKids 0 0) !! 1%nat = Some Sample.softbreak
  /\ type Sample.softbreak = "softbreak"
  /\ renderOne Sample.renderToken
       (markdownSourceMap Sample.Math_random Sample.renderToken Sample.rules)
       1%nat (Sample.start Sample.threeKids 0 0)
     = renderOne Sample.renderToken Sample.rules 1%nat
         (Sample.start Sample.threeKids 0 0).
Proof.
  do 2 (split; [reflexivity|]).
  exact (proj1 (proj2 (softbreak_never_annotated Sample.Math_random
                         Sample.renderToken))
           Sample.rules 1%nat (Sample.start Sample.threeKids 0 0)
           Sample.softbreak eq_refl eq_refl).
Defined.

Lemma foreign_fence_witness :
  Sample.diagramDefault O (Sample.start Sample.diagram 0 0)
  = Ok ("<div class=" +:+ Sample.q +:+ "mermaid" +:+ Sample.q +:+ ">"
          +:+ content Sample.diagramFence +:+ "</div>")
       (Sample.start Sample.diagram 0 0)
  /\ JS.startsWith "<pre"
       ("<div class=" +:+ Sample.q +:+ "mermaid" +:+ Sample.q +:+ ">"
          +:+ content Sample.diagramFence +:+ "</div>") = false
  /\ tokens (Sample.start Sample.diagram 0 0) !! O = Some Sample.diagramFence
  /\ exists start end_,
       "<div class=" +:+ Sample.q +:+ "mermaid" +:+ Sample.q +:+ ">"
         +:+ content Sample.diagramFence +:+ "</div>" = start +:+ end_
       /\ fenceRule Sample.Math_random (Some Sample.diagramDefault) O
            (Sample.start Sample.diagram 0 0)
          = Ok (start +:+ (" " +:+ renderAttrs Sample.diagramFence) +:+ end_)
               (Sample.start Sample.diagram 0 0)
       /\ forall pre post,
            "<div class=" +:+ Sample.q +:+ "mermaid" +:+ Sample.q +:+ ">"
              +:+ content Sample.diagramFence +:+ "</div>"
            = pre +:+ ">" +:+ post ->
            JS.find ">" pre = None ->
            start = pre /\ end_ = ">" +:+ post.
Proof.
  do 3 (split; [reflexivity|]).
  exact (foreign_fence_only_patched Sample.Math_random Sample.diagramDefault O
           (Sample.start Sample.diagram 0 0) (Sample.start Sample.diagram 0 0)
           _ Sample.diagramFence eq_refl eq_refl eq_refl).
Defined.

Lemma fence_lines_witness :
  Sample.fenceDefault O (Sample.start Sample.fourLines 0 0)
  = Ok ("<pre><code>" +:+ escapeHtml (content Sample.fourLinesFence)
          +:+ "</code></pre>" +:+ Sample.nl)
       (Sample.start Sample.fourLines 0 0)
  /\ JS.startsWith "<pre"
       ("<pre><code>" +:+ escapeHtml (content Sample.fourLinesFence)
          +:+ "</code></pre>" +:+ Sample.nl) = true
  /\ tokens (Sample.start Sample.fourLines 0 0) !! O
     = Some Sample.fourLinesFence
  /\ map Sample.fourLinesFence = Some (5, 11)
  /\ (exists w'',
         fenceRule Sample.Math_random (Some Sample.fenceDefault) O
           (Sample.start Sample.fourLines 0 0)
         = Ok ("<pre><code>"
                 +:+ "<span data-line-id=" +:+ Sample.q +:+ "07" +:+ Sample.q
                 +:+ ">alpha</span>" +:+ Sample.nl
                 +:+ "<span data-line-id=" +:+ Sample.q +:+ "077" +:+ Sample.q
                 +:+ ">beta</span>" +:+ Sample.nl
                 +:+ "<span data-line-id=" +:+ Sample.q +:+ "0777"
                 +:+ Sample.q +:+ ">gamma</span>" +:+ Sample.nl
                 +:+ "<span data-line-id=" +:+ Sample.q +:+ "07777"
                 +:+ Sample.q +:+ ">delta</span>"
                 +:+ "</code></pre>" +:+ Sample.nl) w''
         /\ lineMap (env w'') !! 6 = Some "07"
         /\ lineMap (env w'') !! 9 = Some "07777"
         /\ lineMap (env w'') !! 5 = None
         /\ lineMap (env w'') !! 10 = None)
  /\ (exists w',
         render Sample.renderToken
           (markdownSourceMap Sample.Math_random Sample.renderToken
              Sample.rules)
           (Sample.start Sample.fourLines 0 0)
         = Ok ("<pre><code data-line-id=" +:+ Sample.q +:+ "07" +:+ Sample.q
                 +:+ ">"
                 +:+ "<span data-line-id=" +:+ Sample.q +:+ "077" +:+ Sample.q
                 +:+ ">alpha</span>" +:+ Sample.nl
                 +:+ "<span data-line-id=" +:+ Sample.q +:+ "0777"
                 +:+ Sample.q +:+ ">beta</span>" +:+ Sample.nl
                 +:+ "<span data-line-id=" +:+ Sample.q +:+ "07777"
                 +:+ Sample.q +:+ ">gamma</span>" +:+ Sample.nl
                 +:+ "<span data-line-id=" +:+ Sample.q +:+ "077777"
                 +:+ Sample.q +:+ ">delta</span>"
                 +:+ "</code></pre>" +:+ Sample.nl) w'
         /\ lineMap (env w')
            = <[9 := "077777"]>
                (<[8 := "07777"]>
                   (<[7 := "0777"]> (<[6 := "077"]> {[ 5 := "07" ]})))
         /\ distinctIdentifiersAt [5; 6; 7; 8; 9] (lineMap (env w'))).
Proof.
  do 4 (split; [reflexivity|]). split.
  - destruct (proj1 (fence_lines_wrapped_and_recorded Sample.Math_random)
                Sample.fenceDefault O (Sample.start Sample.fourLines 0 0)
                (Sample.start Sample.fourLines 0 0) _ Sample.fourLinesFence
                5 11 eq_refl eq_refl eq_refl eq_refl)
      as (w'' & Hrun & _ & _ & Hin & Hout & _).
    exists w''. split; [exact Hrun|].
    split; [exact (Hin O ltac:(vm_compute; repeat constructor))|].
    split; [exact (Hin 3%nat ltac:(vm_compute; repeat constructor))|].
    split; [rewrite (Hout 5) | rewrite (Hout 10)]; try reflexivity;
      intros i Hi; change (i < 4)%nat in Hi;
      cbv [Sample.start env startLine chunkId chunkCorrection Z.eqb]; lia.
  - destruct (proj2 (proj2 (fence_lines_wrapped_and_recorded
                              Sample.Math_random)))
      as (w' & Hr & Hm & _ & _ & _ & Hiff).
    exists w'. split; [exact Hr|]. split; [exact Hm|].
    apply Hiff. apply (bool_decide_unpack _). vm_compute. reflexivity.
Defined.

Lemma unterminated_content (body : string) :
  content Sample.unterminatedFence <> body +:+ JS.str JS.newline.
Proof.
  intros H. pose proof (split_trailing_newline body) as Hs.
  rewrite <- H in Hs. apply (f_equal last) in Hs.
  rewrite last_snoc in Hs. vm_compute in Hs. discriminate Hs.
Qed.

Lemma fence_drops_last_line_witness :
  Sample.fenceDefault O (Sample.start [Sample.unterminatedFence] 0 0)
  = Ok ("<pre><code>" +:+ escapeHtml (content Sample.unterminatedFence)
          +:+ "</code></pre>" +:+ Sample.nl)
       (Sample.start [Sample.unterminatedFence] 0 0)
  /\ JS.startsWith "<pre"
       ("<pre><code>" +:+ escapeHtml (content Sample.unterminatedFence)
          +:+ "</code></pre>" +:+ Sample.nl) = true
  /\ tokens (Sample.start [Sample.unterminatedFence] 0 0) !! O
     = Some Sample.unterminatedFence
  /\ map Sample.unterminatedFence = Some (5, 10)
  /\ (forall body,
         content Sample.unterminatedFence <> body +:+ JS.str JS.newline)
  /\ exists lines lastLine w'',
       JS.split JS.newline (content Sample.unterminatedFence)
       = lines ++ [lastLine]
       /\ (content Sample.unterminatedFence <> EmptyString ->
           lastLine <> EmptyString)
       /\ fenceRule Sample.Math_random (Some Sample.fenceDefault) O
            (Sample.start [Sample.unterminatedFence] 0 0)
          = Ok ("<pre><code" +:+ renderAttrs Sample.unterminatedFence +:+ ">"
                  +:+ JS.join (JS.str JS.newline)
                        (imap (fun i l =>
                                 lineSpan (lineId Sample.Math_random (0 + i))
                                   (escapeHtml l)) lines)
                  +:+ "</code></pre>" +:+ JS.str JS.newline) w''
       /\ minted w'' = (0 + length lines)%nat
       /\ (forall i, (i < length lines)%nat ->
                     lineMap (env w'') !! (5 + Z.of_nat i + 1)
                     = Some (lineId Sample.Math_random (0 + i)))
       /\ lineMap (env w'') !! (5 + Z.of_nat (length lines) + 1) = None.
Proof.
  do 4 (split; [reflexivity|]). split; [exact unterminated_content|].
  exact (proj2 (fence_drops_unterminated_last_line Sample.Math_random)
           Sample.fenceDefault O (Sample.start [Sample.unterminatedFence] 0 0)
           (Sample.start [Sample.unterminatedFence] 0 0) _
           Sample.unterminatedFence 5 10
           eq_refl eq_refl eq_refl eq_refl unterminated_content).
Defined.

Lemma directive_tag_witness :
  type (Sample.directiveToken "directive_error") = "directive_error"
  /\ Sample.rules !! type (Sample.directiveToken "directive_error")
     = Some (Sample.directiveDefault "directive-error")
  /\ tokens (Sample.start (Sample.directive "directive_error") 0 0) !! O
     = Some (Sample.directiveToken "directive_error")
  /\ map (Sample.directiveToken "directive_error") = Some (3, 6)
  /\ JS.find ">" ("<aside class=" +:+ Sample.q +:+ "directive-error"
                    +:+ Sample.q) = None
  /\ escapeHtml (lineId Sample.Math_random O) = lineId Sample.Math_random O
  /\ exists before after,
       renderOne Sample.renderToken
         (markdownSourceMap Sample.Math_random Sample.renderToken Sample.rules)
         O (Sample.start (Sample.directive "directive_error") 0 0)
       = Ok (("<aside class=" +:+ Sample.q +:+ "directive-error" +:+ Sample.q)
               +:+ (before +:+ idAttr "07" +:+ after) +:+ ">"
               +:+ (Sample.nl +:+ "<pre>body</pre></aside>" +:+ Sample.nl))
            (annotated Sample.Math_random O
               (Sample.directiveToken "directive_error") 3
               (Sample.start (Sample.directive "directive_error") 0 0))
       /\ lineMap
            (env (annotated Sample.Math_random O
                    (Sample.directiveToken "directive_error") 3
                    (Sample.start (Sample.directive "directive_error") 0 0)))
            !! 3 = Some "07".
Proof.
  split; [reflexivity|]. split; [vm_compute; reflexivity|].
  do 4 (split; [reflexivity|]).
  exact (proj2 (directive_tag_carries_identifier Sample.Math_random
                  Sample.renderToken)
           Sample.rules (Sample.directiveDefault "directive-error") O
           (Sample.start (Sample.directive "directive_error") 0 0)
           (Sample.directiveToken "directive_error") 3 6
           ("<aside class=" +:+ Sample.q +:+ "directive-error" +:+ Sample.q)
           (Sample.nl +:+ "<pre>body</pre></aside>" +:+ Sample.nl)
           (or_intror eq_refl) eq_refl eq_refl eq_refl eq_refl eq_refl eq_refl).
Defined.

Lemma text_run_witness :
  Sample.rules !! "text" = Some Sample.textDefault
  /\ tokens Sample.chunk1 !! O = Some Sample.spanned
  /\ type Sample.spanned = "text"
  /\ map Sample.spanned = Some (3, 4)
  /\ escapeHtml (lineId Sample.Math_random O) = lineId Sample.Math_random O
  /\ exists before after,
       renderOne Sample.renderToken
         (markdownSourceMap Sample.Math_random Sample.renderToken Sample.rules)
         O Sample.chunk1
       = Ok ("<span" +:+ (before +:+ idAttr "07" +:+ after) +:+ ">" +:+ "x"
               +:+ "</span>")
            (annotated Sample.Math_random O Sample.spanned 12 Sample.chunk1)
       /\ lineMap
            (env (annotated Sample.Math_random O Sample.spanned 12
                    Sample.chunk1)) !! 12 = Some "07".
Proof.
  split; [vm_compute; reflexivity|]. do 4 (split; [reflexivity|]).
  exact (proj1 (text_run_wrapped_in_identified_span Sample.Math_random
                  Sample.renderToken)
           Sample.rules Sample.textDefault O Sample.chunk1 Sample.spanned 3 4
           "x" eq_refl eq_refl eq_refl eq_refl eq_refl eq_refl).
Defined.

Lemma last_write_wins_witness :
  tokens Sample.sameLine !! O = Some Sample.spanned
  /\ tokens Sample.sameLine !! 1%nat = Some Sample.spanned'
  /\ map Sample.spanned = Some (3, 4)
  /\ map Sample.spanned' = Some (3, 4)
  /\ exists w1 w2,
       annotate Sample.Math_random O Sample.sameLine = Ok tt w1
       /\ annotate Sample.Math_random 1%nat w1 = Ok tt w2
       /\ lineMap (env w1) !! 12 = Some "07"
       /\ lineMap (env w2) !! 12 = Some "077"
       /\ lineMap (env w2) = <[12 := "077"]> ∅
       /\ minted w2 = 2%nat
       /\ (exists t1, tokens w2 !! O = Some t1
                      /\ attrGet SRC_LINE_ID t1 = Some "07")
       /\ (exists t2, tokens w2 !! 1%nat = Some t2
                      /\ attrGet SRC_LINE_ID t2 = Some "077").
Proof.
  do 4 (split; [reflexivity|]).
  exact (proj1 (last_write_wins_and_entries_stay Sample.Math_random
                  Sample.renderToken)
           O 1%nat Sample.sameLine Sample.spanned Sample.spanned' 3 4 4
           (O_S O) eq_refl eq_refl eq_refl eq_refl eq_refl eq_refl).
Defined.

(** * Further properties of the plugin *)

(** ** The registry, type by type *)

Section RegistryCount.

Variable Math_random : nat -> string.
Variable renderToken : Rule.

Lemma wrapped_inside (n : nat) (o : option Rule) :
  wrapped Math_random renderToken n
    (Some (addLineNumberToTokens Math_random renderToken o))
  = Some (addLineNumberToTokens Math_random renderToken
            (wrapped Math_random renderToken n o)).
Proof.
  induction n as [|n IH]; [reflexivity|]. simpl. now rewrite IH.
Qed.

Lemma foldl_overrideRule_count (l : list string) (k : string) :
  forall rules : gmap string Rule,
    foldl (overrideRule Math_random renderToken) rules l !! k
    = wrapped Math_random renderToken (countOf k l) (rules !! k).
Proof.
  induction l as [|r l IH]; intros rules; [reflexivity|].
  simpl. rewrite IH. unfold countOf. simpl.
  destruct (String.eqb_spec k r) as [->|Hne].
  - rewrite overrideRule_same. simpl. apply wrapped_inside.
  - rewrite overrideRule_other by congruence. reflexivity.
Qed.

Lemma countOf_app (k : string) (l1 l2 : list string) :
  countOf k (l1 ++ l2) = (countOf k l1 + countOf k l2)%nat.
Proof. unfold countOf. now rewrite List.filter_app, length_app. Qed.

Lemma countOf_absent (k : string) (l : list string) :
  k ∉ l -> countOf k l = O.
Proof.
  induction l as [|r l IH]; intros Hk; [reflexivity|].
  apply not_elem_of_cons in Hk as [Hne Hk]. unfold countOf. simpl.
  destruct (String.eqb_spec k r); [contradiction|]. now apply IH.
Qed.

Lemma countOf_once (k : string) (l : list string) :
  NoDup l -> k ∈ l -> countOf k l = 1%nat.
Proof.
  induction l as [|r l IH]; intros Hnd Hk.
  - now apply elem_of_nil in Hk.
  - apply NoDup_cons in Hnd as [Hr Hnd]. unfold countOf. simpl.
    destruct (String.eqb_spec k r) as [->|Hne].
    + simpl. f_equal. now apply countOf_absent.
    + apply elem_of_cons in Hk as [->|Hk]; [contradiction|]. now apply IH.
Qed.

(** How often a type is met by the loop of lines 22-25. *)
Lemma countOf_overrideRules (rules : gmap string Rule) (k : string) :
  countOf k (overrideRules rules)
  = ((if decide (is_Some (rules !! k) /\ k <> "softbreak") then 1 else 0)
     + (if decide (k ∈ appendedRules) then 1 else 0))%nat.
Proof.
  unfold overrideRules. rewrite countOf_app. f_equal.
  - destruct (decide _) as [[Hk Hsb]|Hno].
    + apply countOf_once.
      * apply NoDup_ListNoDup, List.NoDup_filter, NoDup_ListNoDup, keys_NoDup.
      * apply list_elem_of_In, filter_In. split.
        -- now apply list_elem_of_In, elem_of_keys.
        -- unfold includes, excludeRules. simpl.
           destruct (String.eqb_spec k "softbreak"); [contradiction|reflexivity].
    + apply countOf_absent. intros Hin.
      apply list_elem_of_In, filter_In in Hin as [Hin Hf]. apply Hno. split.
      * now apply elem_of_keys, list_elem_of_In.
      * intros ->. discriminate Hf.
  - destruct (decide _) as [Hin|Hno].
    + apply countOf_once; [|exact Hin].
      unfold appendedRules. rewrite !NoDup_cons, !not_elem_of_cons.
      repeat split; try discriminate; try apply not_elem_of_nil.
      apply NoDup_nil_2.
    + now apply countOf_absent.
Qed.

(** X1: the final rule of every type is the rule left by the adapters
    inside one layer of the annotator per occurrence of the type in
    [overrideRules]: one layer if the type has a rule and is not
    [softbreak], one more if it is one of the four appended types; a type
    that is neither keeps no rule. *)
Theorem final_rule_by_type (rules : gmap string Rule) (k : string) :
  markdownSourceMap Math_random renderToken rules !! k
  = wrapped Math_random renderToken
      ((if decide (is_Some (installAdapters Math_random rules !! k)
                   /\ k <> "softbreak") then 1 else 0)
       + (if decide (k ∈ appendedRules) then 1 else 0))
      (installAdapters Math_random rules !! k).
Proof.
  unfold markdownSourceMap.
  now rewrite foldl_overrideRule_count, countOf_overrideRules.
Qed.

Lemma final_rule_cases (rules : gmap string Rule) (k : string) :
  exists n,
    markdownSourceMap Math_random renderToken rules !! k
    = wrapped Math_random renderToken n (installAdapters Math_random rules !! k)
    /\ (installAdapters Math_random rules !! k = None -> k ∉ appendedRules ->
        n = O).
Proof.
  unfold markdownSourceMap.
  rewrite foldl_overrideRule_count, countOf_overrideRules.
  eexists. split; [reflexivity|]. intros Hnone Hnot.
  destruct (decide _) as [[[r Hr] _]|_]; [congruence|].
  destruct (decide _); [contradiction|reflexivity].
Qed.

(** X2: a token whose type has no rule and is none of the eight types
    the plugin installs a rule for is rendered by the generic renderer
    alone, in the world as it is: the annotator never sees it, whether it
    carries a span or not. *)
Theorem unregistered_type_not_annotated
    (rules : gmap string Rule) (idx : nat) (w : World) (tok : Token) :
  tokens w !! idx = Some tok ->
  rules !! type tok = None ->
  type tok ∉ ["directive"; "directive_error"; "text"; "fence"]
             ++ appendedRules ->
  markdownSourceMap Math_random renderToken rules !! type tok = None
  /\ renderOne renderToken (markdownSourceMap Math_random renderToken rules)
       idx w
     = renderToken idx w.
Proof.
  intros Htok Hnone Hnot.
  apply not_elem_of_app in Hnot as [Had Hap].
  rewrite !not_elem_of_cons in Had. destruct Had as (H1 & H2 & H3 & H4 & _).
  assert (Hin : installAdapters Math_random rules !! type tok = None).
  { now rewrite adapters_other. }
  destruct (final_rule_cases rules (type tok)) as (n & Hn & H0).
  rewrite (H0 Hin Hap), Hin in Hn. simpl in Hn.
  split; [exact Hn|].
  unfold renderOne, bind, getToken. now rewrite Htok, Hn.
Qed.

Lemma wrapped_unspanned (r : Rule) (idx : nat) (w : World) (tok : Token) :
  tokens w !! idx = Some tok ->
  includes inlineContainers (type tok) = false ->
  map tok = None ->
  forall n, exists f,
    wrapped Math_random renderToken n (Some r) = Some f /\ f idx w = r idx w.
Proof.
  intros Htok Hty Hmap n. induction n as [|n (f & Hf & Hrun)].
  - now exists r.
  - simpl. eexists. split; [reflexivity|].
    unfold addLineNumberToTokens, bind.
    rewrite (annotate_unspanned Math_random idx w tok Htok Hty Hmap).
    rewrite Hf. exact Hrun.
Qed.

(** X3: on a token without span that is not a paragraph or heading
    opener the plugin adds nothing to the rule the adapters left for its
    type: no identifier is drawn, no Line Map entry is written, and the
    markup and the world are those of that rule. *)
Theorem unspanned_token_rendered_by_adapted_rule
    (rules : gmap string Rule) (r : Rule) (idx : nat) (w : World)
    (tok : Token) :
  tokens w !! idx = Some tok ->
  installAdapters Math_random rules !! type tok = Some r ->
  includes inlineContainers (type tok) = false ->
  map tok = None ->
  renderOne renderToken (markdownSourceMap Math_random renderToken rules)
    idx w
  = r idx w.
Proof.
  intros Htok Hr Hty Hmap.
  destruct (final_rule_cases rules (type tok)) as (n & Hn & _).
  rewrite Hr in Hn.
  destruct (wrapped_unspanned r idx w tok Htok Hty Hmap n) as (f & Hf & Hrun).
  unfold renderOne, bind, getToken. now rewrite Htok, Hn, Hf.
Qed.

Lemma attrSet_attrSet (name v1 v2 : string) (t : Token) :
  attrSet name v2 (attrSet name v1 t) = attrSet name v2 t.
Proof.
  unfold attrSet. destruct t as [ty m ch a co]. unfold setAttrs. simpl.
  f_equal. induction a as [|[n v] a IH]; simpl.
  - now rewrite String.eqb_refl.
  - destruct (String.eqb n name) eqn:E; simpl.
    + now rewrite String.eqb_refl.
    + now rewrite E, IH.
Qed.

(** X4: a rule registered for [admonition_open] or [link_open] is
    wrapped twice, once as a registered type and once as an appended one.
    A spanned token of such a type is therefore annotated twice before its
    rule runs: two identifiers are drawn, and the Line Map and the token
    keep the second. *)
Theorem appended_registered_type_annotated_twice
    (rules : gmap string Rule) (r : Rule) (idx : nat) (w : World)
    (tok : Token) (s e : Z) :
  tokens w !! idx = Some tok ->
  type tok = "admonition_open" \/ type tok = "link_open" ->
  rules !! type tok = Some r ->
  map tok = Some (s, e) ->
  let line := s + startLine (env w) - chunkCorrection (env w) in
  let id2 := lineId Math_random (S (minted w)) in
  exists w2,
    renderOne renderToken (markdownSourceMap Math_random renderToken rules)
      idx w
    = r idx w2
    /\ minted w2 = S (S (minted w))
    /\ lineMap (env w2) = <[line := id2]> (lineMap (env w))
    /\ tokens w2 = <[idx := attrSet SRC_LINE_ID id2 tok]> (tokens w).
Proof.
  intros Htok Hty Hr Hmap line id2.
  assert (Hk : installAdapters Math_random rules !! type tok = Some r
               /\ type tok <> "softbreak"
               /\ type tok ∈ appendedRules
               /\ includes inlineContainers (type tok) = false).
  { destruct Hty as [Hty|Hty]; rewrite Hty in Hr |- *;
      (split; [rewrite adapters_other by discriminate; exact Hr|]);
      (split; [discriminate|]); (split; [|reflexivity]);
      unfold appendedRules; rewrite !elem_of_cons; tauto. }
  destruct Hk as (Hin & Hsb & Hap & Hc).
  eexists. split.
  - unfold renderOne, bind, getToken. rewrite Htok.
    rewrite final_rule_by_type, Hin.
    destruct (decide _) as [_|Hno]; [|elim Hno; eauto].
    destruct (decide _) as [_|Hno]; [|contradiction].
    simpl. unfold addLineNumberToTokens at 1. unfold bind at 1.
    rewrite (annotate_spanned Math_random idx w tok s e Htok Hc Hmap).
    fold line.
    destruct (annotated_lookup Math_random idx w tok line Htok) as [Htok1 _].
    destruct (attrSet_fields SRC_LINE_ID (lineId Math_random (minted w)) tok)
      as (Hty1 & Hmap1 & _).
    unfold addLineNumberToTokens, bind, delegate. cbv beta.
    rewrite (annotate_spanned Math_random idx _ _ s e Htok1);
      [|now rewrite Hty1|now rewrite Hmap1].
    reflexivity.
  - unfold annotated. simpl. fold line id2.
    split; [reflexivity|].
    split; [apply insert_insert_eq|].
    now rewrite attrSet_attrSet, list_insert_insert_eq.
Qed.

(** X5: the adapters and the patcher wrap whatever the registry holds
    for [text], [fence], [directive] and [directive_error] when the plugin
    is installed; when it holds nothing, the installed rule calls
    [undefined], and rendering any token of that type throws. *)
Theorem missing_original_rule_throws
    (rules : gmap string Rule) (idx : nat) (w : World) (tok : Token) :
  tokens w !! idx = Some tok ->
  type tok ∈ ["directive"; "directive_error"; "text"; "fence"] ->
  rules !! type tok = None ->
  renderOne renderToken (markdownSourceMap Math_random renderToken rules)
    idx w
  = TypeError.
Proof.
  intros Htok Hty Hnone.
  destruct (not_container_name _ Hty) as [_ Hc].
  destruct (markdownSourceMap_entries Math_random renderToken rules)
    as (Hd & He & Ht & Hf).
  assert (Hrule : exists inner,
             markdownSourceMap Math_random renderToken rules !! type tok
             = Some (addLineNumberToTokens Math_random renderToken
                       (Some inner))
             /\ forall i w0, inner i w0 = TypeError).
  { rewrite !elem_of_cons, elem_of_nil in Hty.
    destruct Hty as [Hk|[Hk|[Hk|[Hk|[]]]]]; rewrite Hk in Hnone |- *.
    - exists (newRule None). rewrite Hd, Hnone. now split.
    - exists (newRule None). rewrite He, Hnone. now split.
    - exists (textRule None). rewrite Ht, Hnone. now split.
    - exists (fenceRule Math_random None). rewrite Hf, Hnone. now split. }
  destruct Hrule as (inner & Hrule & Hthrow).
  unfold renderOne, bind, getToken. rewrite Htok, Hrule.
  unfold addLineNumberToTokens, bind.
  destruct (annotate Math_random idx w); [apply Hthrow|reflexivity].
Qed.

End RegistryCount.

(** ** The annotator once more *)

Section AnnotatorMore.

Variable Math_random : nat -> string.

Lemma setMap_setMap (m1 m2 : option (Z * Z)) (t : Token) :
  setMap m2 (setMap m1 t) = setMap m2 t.
Proof. now destruct t. Qed.

Lemma walkChildren_again (m : option (Z * Z)) (cs : list Token) :
  forall (k : Z) (u : bool) (cs' : list Token),
    walkChildren m k u cs = Some cs' ->
    walkChildren m k u cs' = Some cs'.
Proof.
  induction cs as [|c rest IH]; intros k u cs' H.
  - injection H as <-. reflexivity.
  - simpl in H. destruct (String.eqb (type c) "softbreak") eqn:Hc.
    + destruct (walkChildren m (k + 1) false rest) as [r|] eqn:Hw;
        [|discriminate].
      injection H as <-. simpl. rewrite Hc. now rewrite (IH _ _ _ Hw).
    + destruct u; simpl in H.
      * destruct (walkChildren m k true rest) as [r|] eqn:Hw; [|discriminate].
        injection H as <-. simpl. rewrite Hc. simpl.
        now rewrite (IH _ _ _ Hw).
      * destruct m as [[s e]|]; [|discriminate].
        destruct (walkChildren (Some (s, e)) k true rest) as [r|] eqn:Hw;
          [|discriminate].
        injection H as <-. simpl.
        replace (type (setMap (Some (s + k, s + k + 1)) c)) with (type c)
          by now destruct c.
        rewrite Hc. simpl. rewrite (IH _ _ _ Hw). simpl.
        now rewrite setMap_setMap.
Qed.

(** X6: annotating a paragraph or heading opener a second time changes
    nothing: the spans the first walk gave to the children are the spans
    the second walk gives them, and nothing else is written. *)
Theorem container_annotation_idempotent
    (idx : nat) (w w1 : World) (tok : Token) :
  tokens w !! idx = Some tok ->
  type tok = "paragraph_open" \/ type tok = "heading_open" ->
  annotate Math_random idx w = Ok tt w1 ->
  annotate Math_random idx w1 = Ok tt w1.
Proof.
  intros Htok Hty H. apply includes_inlineContainers in Hty.
  unfold annotate, bind, getToken in H. rewrite Htok, Hty in H.
  destruct (tokens w !! (idx + 1)%nat) as [inl|] eqn:Hinl; [|discriminate].
  destruct (children inl) as [cs|] eqn:Hcs; [|discriminate].
  destruct (walkChildren (map tok) 0 false cs) as [cs'|] eqn:Hw;
    [|discriminate].
  unfold updToken in H. injection H as <-.
  set (w1 := mkWorld (alter (setChildren (Some cs')) (idx + 1)%nat (tokens w))
               (env w) (minted w)).
  assert (H0 : tokens w1 !! idx = Some tok).
  { unfold w1. cbn [tokens]. now rewrite list_lookup_alter_ne by lia. }
  assert (H1 : tokens w1 !! (idx + 1)%nat = Some (setChildren (Some cs') inl)).
  { unfold w1. cbn [tokens]. now rewrite list_lookup_alter_eq, Hinl. }
  unfold annotate, bind, getToken. rewrite H0, Hty, H1.
  replace (children (setChildren (Some cs') inl)) with (Some cs')
    by now destruct inl.
  rewrite (walkChildren_again _ _ _ _ _ Hw). unfold updToken.
  unfold w1. cbn [tokens env minted].
  f_equal. f_equal. apply list_eq. intros j.
  destruct (decide ((idx + 1)%nat = j)) as [<-|Hne].
  - rewrite !list_lookup_alter_eq, Hinl. simpl. now destruct inl.
  - now rewrite !list_lookup_alter_ne by assumption.
Qed.

Lemma visualLine_succ (cs : list Token) :
  forall j : nat,
    visualLine cs (S j)
    = visualLine cs j
      + match cs !! j with
        | Some p => if isBreak p then 1 else 0
        | None => 0
        end.
Proof.
  induction cs as [|c rest IH]; intros j.
  - unfold visualLine. now destruct j.
  - destruct j as [|j].
    + unfold visualLine. simpl. now destruct (isBreak c).
    + simpl lookup. destruct (isBreak c) eqn:Hc.
      * rewrite !(visualLine_cons_break _ _ _ Hc), IH. lia.
      * rewrite !(visualLine_cons_other _ _ _ Hc). apply IH.
Qed.

Lemma visualLine_mono (cs : list Token) (j1 j2 : nat) :
  (j1 <= j2)%nat -> visualLine cs j1 <= visualLine cs j2.
Proof.
  induction 1 as [|j2 _ IH]; [lia|].
  rewrite visualLine_succ.
  destruct (cs !! j2) as [p|]; [destruct (isBreak p)|]; lia.
Qed.

Lemma visualLine_nonneg (cs : list Token) (j : nat) : 0 <= visualLine cs j.
Proof. unfold visualLine. lia. Qed.

(** What the walk leaves on a child that had no span. *)
Lemma derive_spanless (s : Z) (cs : list Token) (j : nat) (c : Token)
    (a b : Z) :
  map c = None ->
  map (derive s 0 false cs j c) = Some (a, b) ->
  isBreak c = false /\ opensLine false cs j = true
  /\ a = s + visualLine cs j /\ b = a + 1.
Proof.
  intros Hnone. unfold derive.
  destruct (isBreak c); simpl; [now rewrite Hnone|].
  destruct (opensLine false cs j); simpl; [|now rewrite Hnone].
  replace (map (setMap (Some (s + (0 + visualLine cs j),
                              s + (0 + visualLine cs j) + 1)) c))
    with (Some (s + (0 + visualLine cs j), s + (0 + visualLine cs j) + 1))
    by now destruct c.
  intros H. injection H as <- <-. repeat split; lia.
Qed.

(** What the walk leaves on the children when none had a span. *)
Lemma walked_child_span (s : Z) (cs : list Token) :
  (forall c, c ∈ cs -> map c = None) ->
  forall j c' a b,
    imap (derive s 0 false cs) cs !! j = Some c' ->
    map c' = Some (a, b) ->
    exists c, cs !! j = Some c /\ isBreak c = false
              /\ opensLine false cs j = true
              /\ a = s + visualLine cs j /\ b = a + 1
              /\ isBreak c' = false.
Proof.
  intros Hnone j c' a b Hj Hm. rewrite list_lookup_imap in Hj.
  destruct (cs !! j) as [c|] eqn:Hc; [|discriminate].
  simpl in Hj. injection Hj as <-.
  assert (Hn : map c = None)
    by (apply Hnone; eapply list_elem_of_lookup_2; eauto).
  destruct (derive_spanless s cs j c a b Hn Hm) as (Hb & Ho & Ha & Hb').
  exists c. repeat split; try assumption.
  unfold derive. rewrite Hb, Ho. simpl. unfold isBreak in *. now destruct c.
Qed.

(** A child that opens a visual line sits on a later line than every
    child before it. *)
Lemma opener_on_later_line (cs : list Token) (j1 j2 : nat) :
  (j1 < j2)%nat ->
  opensLine false cs j2 = true ->
  visualLine cs j1 < visualLine cs j2.
Proof.
  intros Hlt Ho. destruct j2 as [|j]; [lia|]. simpl in Ho.
  destruct (cs !! j) as [p|] eqn:Hp; [|discriminate].
  pose proof (visualLine_mono cs j1 j ltac:(lia)) as Hmono.
  rewrite (visualLine_succ cs j), Hp, Ho. lia.
Qed.

(** X7: when the children of the inline token come without spans, the
    walk leaves spans that are one line long, start at or after the
    container's first line, sit on no line break, and grow strictly from
    one spanned child to the next: no two children of one container claim
    the same line. *)
Theorem derived_spans_increase (s e : Z) (cs cs' : list Token) :
  walkChildren (Some (s, e)) 0 false cs = Some cs' ->
  (forall c, c ∈ cs -> map c = None) ->
  (forall j c' a b,
      cs' !! j = Some c' -> map c' = Some (a, b) ->
      b = a + 1 /\ s <= a /\ isBreak c' = false)
  /\ (forall j1 j2 c1 c2 a1 b1 a2 b2,
         (j1 < j2)%nat ->
         cs' !! j1 = Some c1 -> cs' !! j2 = Some c2 ->
         map c1 = Some (a1, b1) -> map c2 = Some (a2, b2) ->
         a1 < a2).
Proof.
  intros Hw Hnone. rewrite walkChildren_derive in Hw. injection Hw as <-.
  split.
  - intros j c' a b Hj Hm.
    destruct (walked_child_span s cs Hnone j c' a b Hj Hm)
      as (c & _ & _ & _ & Ha & Hb & Hbr).
    pose proof (visualLine_nonneg cs j). repeat split; [exact Hb|lia|exact Hbr].
  - intros j1 j2 c1 c2 a1 b1 a2 b2 Hlt H1 H2 Hm1 Hm2.
    destruct (walked_child_span s cs Hnone j1 c1 a1 b1 H1 Hm1)
      as (_ & _ & _ & _ & -> & _).
    destruct (walked_child_span s cs Hnone j2 c2 a2 b2 H2 Hm2)
      as (_ & _ & _ & Ho & -> & _).
    pose proof (opener_on_later_line cs j1 j2 Hlt Ho). lia.
Qed.

(** X8: whatever the token at [idx], an annotation that returns leaves
    the pass context's [startLine] and [chunkId], the number of tokens,
    and the type and content of every token as they were, and touches no
    token other than [tokens[idx]] and [tokens[idx + 1]]. *)
Theorem annotate_frame (idx : nat) (w w' : World) :
  annotate Math_random idx w = Ok tt w' ->
  startLine (env w') = startLine (env w)
  /\ chunkId (env w') = chunkId (env w)
  /\ length (tokens w') = length (tokens w)
  /\ (forall j, j <> idx -> j <> (idx + 1)%nat ->
                tokens w' !! j = tokens w !! j)
  /\ (forall j t', tokens w' !! j = Some t' ->
                   exists t, tokens w !! j = Some t
                             /\ type t' = type t /\ content t' = content t).
Proof.
  intros H. unfold annotate, bind, getToken in H.
  destruct (tokens w !! idx) as [tok|] eqn:Htok; [|discriminate].
  assert (Halter : forall (f : Token -> Token) (i : nat),
             (forall t, type (f t) = type t /\ content (f t) = content t) ->
             forall j t', alter f i (tokens w) !! j = Some t' ->
                          exists t, tokens w !! j = Some t
                                    /\ type t' = type t
                                    /\ content t' = content t).
  { intros f i Hf j t' Hj. destruct (decide (i = j)) as [<-|Hne].
    - rewrite list_lookup_alter_eq in Hj.
      destruct (tokens w !! i) as [t|]; [|discriminate].
      injection Hj as <-. exists t. split; [reflexivity|apply Hf].
    - rewrite list_lookup_alter_ne in Hj by assumption. now exists t'. }
  destruct (includes inlineContainers (type tok)).
  - destruct (tokens w !! (idx + 1)%nat) as [inl|]; [|discriminate].
    destruct (children inl) as [cs|]; [|discriminate].
    destruct (walkChildren (map tok) 0 false cs) as [cs'|]; [|discriminate].
    unfold updToken in H. injection H as <-. simpl.
    split; [reflexivity|]. split; [reflexivity|].
    split; [apply length_alter|]. split.
    + intros j _ Hj. now rewrite list_lookup_alter_ne by congruence.
    + apply Halter. intros t. now destruct t.
  - destruct (map tok) as [[s e]|].
    + unfold getEnv, randomLineId, lineMapSet, updToken in H.
      injection H as <-. simpl.
      split; [reflexivity|]. split; [reflexivity|].
      split; [apply length_alter|]. split.
      * intros j Hj _. now rewrite list_lookup_alter_ne by congruence.
      * apply Halter. intros t. now destruct t.
    + injection H as <-. repeat split; try reflexivity. intros j t' Hj.
      now exists t'.
Qed.

End AnnotatorMore.

(** ** The adapters and the patcher once more *)

Lemma length_split (c : ascii) (s : string) :
  length (JS.split c s) = S (countChar c s).
Proof.
  induction s as [|a s IH]; [reflexivity|]. simpl.
  destruct (Ascii.eqb a c); simpl; [now rewrite IH|].
  destruct (JS.split c s) eqn:E; [now apply split_nonempty in E|].
  exact IH.
Qed.

(** Joining what was split gives the string back. *)
Lemma join_split (c : ascii) (s : string) :
  JS.join (JS.str c) (JS.split c s) = s.
Proof.
  unfold JS.join. induction s as [|a s IH]; [reflexivity|]. simpl.
  destruct (Ascii.eqb_spec a c) as [->|Hne].
  - destruct (JS.split c s) eqn:E; [now apply split_nonempty in E|].
    simpl in *. now rewrite IH.
  - destruct (JS.split c s) as [|h t] eqn:E; [now apply split_nonempty in E|].
    destruct t as [|h' t]; simpl in *; now rewrite <- IH.
Qed.

Lemma slice_minus_one (body : string) (c : ascii) :
  JS.slice (body +:+ JS.str c) 0 (-1) = body
  /\ JS.sliceFrom (body +:+ JS.str c) (-1) = JS.str c.
Proof.
  unfold JS.sliceFrom, JS.slice, JS.clamp.
  rewrite length_append. simpl String.length.
  replace (0 <? 0) with false by reflexivity.
  replace (-1 <? 0) with true by reflexivity.
  destruct (Z.ltb_spec (Z.of_nat (String.length body + 1)) 0); [lia|].
  rewrite !Z.min_l by lia. split.
  - replace (Z.to_nat 0) with O by reflexivity.
    replace (Z.to_nat _) with (String.length body) by lia.
    apply substring_app_prefix.
  - replace (Z.to_nat ((Z.of_nat (String.length body + 1) + -1) `max` 0))
      with (String.length body) by lia.
    replace (Z.to_nat _) with (String.length (JS.str c)) by (simpl; lia).
    apply substring_app_suffix.
Qed.

Lemma append_nil_r (a : string) : a +:+ EmptyString = a.
Proof. induction a as [|x a IH]; simpl; [reflexivity|]. now rewrite IH. Qed.

Section AdaptersMore.

Variable Math_random : nat -> string.
Variable renderToken : Rule.

Lemma recordLines_range (start : Z) (n0 count : nat) (m : gmap Z string)
    (k : Z) :
  is_Some (recordLines Math_random start O n0 count m !! k)
  <-> is_Some (m !! k) \/ start < k <= start + Z.of_nat count.
Proof.
  destruct (decide (start < k <= start + Z.of_nat count)) as [Hin|Hout].
  - split; [now right|]. intros _.
    pose proof (recordLines_inside Math_random start count O n0 m
                  (Z.to_nat (k - start - 1)) ltac:(lia)) as H.
    replace (start + Z.of_nat (0 + Z.to_nat (k - start - 1)) + 1) with k
      in H by lia.
    rewrite H. eauto.
  - rewrite recordLines_outside by (intros j Hj; lia). tauto.
Qed.

(** X9: on a code block the adapter draws exactly one identifier per
    line break of the content, and the lines that have a Line Map entry
    afterwards are those that had one before together with the lines
    [start + 1 .. start + n], where [start] is the corrected line of the
    opening fence and [n] the number of line breaks. *)
Theorem fence_draws_one_identifier_per_line_break
    (F : Rule) (idx : nat) (w w' : World) (out : string) (token : Token)
    (s e : Z) :
  F idx w = Ok out w' ->
  JS.startsWith "<pre" out = true ->
  tokens w' !! idx = Some token ->
  map token = Some (s, e) ->
  let start := s + startLine (env w') - chunkCorrection (env w') in
  let n := countChar JS.newline (content token) in
  exists html w'',
    fenceRule Math_random (Some F) idx w = Ok html w''
    /\ minted w'' = (minted w' + n)%nat
    /\ forall k, is_Some (lineMap (env w'') !! k)
                 <-> is_Some (lineMap (env w') !! k)
                     \/ start < k <= start + Z.of_nat n.
Proof.
  intros HF Hpre Htok Hmap start n.
  rewrite (fenceRule_code Math_random F idx w w' out token s e HF Hpre Htok Hmap).
  assert (Hlen : length (take (length (JS.split JS.newline (content token)) - 1)
                           (JS.split JS.newline (content token))) = n).
  { rewrite length_take, length_split. unfold n. lia. }
  eexists _, _. split; [reflexivity|]. cbn [env minted lineMap].
  rewrite Hlen. split; [reflexivity|]. intros k. apply recordLines_range.
Qed.

(** X10: on a code block whose token has no span the adapter throws, as
    it reads [token.map[0]]; on output that is not a code block it never
    reads the span and returns. *)
Theorem verbatim_fence_needs_span
    (F : Rule) (idx : nat) (w w' : World) (out : string) (token : Token) :
  F idx w = Ok out w' ->
  tokens w' !! idx = Some token ->
  map token = None ->
  (JS.startsWith "<pre" out = true ->
   fenceRule Math_random (Some F) idx w = TypeError)
  /\ (JS.startsWith "<pre" out = false ->
      exists html, fenceRule Math_random (Some F) idx w = Ok html w').
Proof.
  intros HF Htok Hmap. split; intros Hpre.
  - unfold fenceRule, bind, call, getToken. now rewrite HF, Htok, Hpre, Hmap.
  - eexists. exact (fenceRule_foreign Math_random F idx w w' out token HF Hpre Htok).
Qed.

(** X11: on a code block the adapter keeps nothing of the original
    rule's output but the fact that it starts with [<pre]: two original
    rules that leave the same world give the same adapted result, whatever
    markup (highlighting, classes on the wrapper) they printed. *)
Theorem verbatim_output_ignores_original_markup
    (F1 F2 : Rule) (idx : nat) (w w' : World) (out1 out2 : string)
    (token : Token) (s e : Z) :
  F1 idx w = Ok out1 w' ->
  F2 idx w = Ok out2 w' ->
  JS.startsWith "<pre" out1 = true ->
  JS.startsWith "<pre" out2 = true ->
  tokens w' !! idx = Some token ->
  map token = Some (s, e) ->
  fenceRule Math_random (Some F1) idx w = fenceRule Math_random (Some F2) idx w
  /\ exists html w'', fenceRule Math_random (Some F1) idx w = Ok html w''.
Proof.
  intros H1 H2 Hp1 Hp2 Htok Hmap.
  rewrite (fenceRule_code Math_random F1 idx w w' out1 token s e H1 Hp1 Htok Hmap).
  rewrite (fenceRule_code Math_random F2 idx w w' out2 token s e H2 Hp2 Htok Hmap).
  split; [reflexivity|]. eauto.
Qed.

(** X12: when the content of a code block ends with a line break, the
    lines the adapter wraps, joined again by line breaks, are the escaped
    content without that final line break: nothing of the content is lost
    or repeated, and the line break before the closing tag is gone. *)
Theorem fence_lines_rejoin_to_content
    (F : Rule) (idx : nat) (w w' : World) (out : string) (token : Token)
    (s e : Z) (body : string) :
  F idx w = Ok out w' ->
  JS.startsWith "<pre" out = true ->
  tokens w' !! idx = Some token ->
  map token = Some (s, e) ->
  content token = body +:+ JS.str JS.newline ->
  exists lines w'',
    fenceRule Math_random (Some F) idx w
    = Ok ("<pre><code" +:+ renderAttrs token +:+ ">"
            +:+ JS.join (JS.str JS.newline)
                  (imap (fun i l => lineSpan
                                      (lineId Math_random (minted w' + i)) l)
                     lines)
            +:+ "</code></pre>" +:+ JS.str JS.newline) w''
    /\ JS.join (JS.str JS.newline) lines = escapeHtml body.
Proof.
  intros HF Hpre Htok Hmap Hbody.
  rewrite (fenceRule_code Math_random F idx w w' out token s e HF Hpre Htok Hmap).
  rewrite Hbody, split_trailing_newline, take_all_but_last.
  exists (escapeHtml <$> JS.split JS.newline body). eexists. split.
  - now rewrite imap_fmap.
  - now rewrite <- split_escapeHtml, join_split.
Qed.

(** X13: when the original output has no closing angle bracket,
    [indexOf] answers [-1] and both the patcher and the fence adapter cut
    the output before its last UTF-16 unit.  When the output ends in an
    ASCII character, that unit is the last byte of the string: the
    attributes land before it.  With an empty output they are all that is
    returned. *)
Theorem attributes_before_last_character_without_bracket :
  (forall (D : Rule) (idx : nat) (w w' : World) (token : Token)
          (body : string) (c : ascii),
      singleUnit c ->
      D idx w = Ok (body +:+ JS.str c) w' ->
      tokens w' !! idx = Some token ->
      JS.find ">" (body +:+ JS.str c) = None ->
      newRule (Some D) idx w
      = Ok (body +:+ renderAttrs token +:+ JS.str c) w')
  /\ (forall (F : Rule) (idx : nat) (w w' : World) (token : Token)
             (body : string) (c : ascii),
        singleUnit c ->
        F idx w = Ok (body +:+ JS.str c) w' ->
        JS.startsWith "<pre" (body +:+ JS.str c) = false ->
        tokens w' !! idx = Some token ->
        JS.find ">" (body +:+ JS.str c) = None ->
        fenceRule Math_random (Some F) idx w
        = Ok (body +:+ (" " +:+ renderAttrs token) +:+ JS.str c) w')
  /\ (forall (D : Rule) (idx : nat) (w w' : World) (token : Token),
        D idx w = Ok EmptyString w' ->
        tokens w' !! idx = Some token ->
        newRule (Some D) idx w = Ok (renderAttrs token) w'
        /\ fenceRule Math_random (Some D) idx w
           = Ok (" " +:+ renderAttrs token) w').
Proof.
  split; [|split].
  - intros D idx w w' token body c _ HD Htok Hnone.
    rewrite (newRule_splices D idx w w' _ token HD Htok).
    rewrite (indexOf_absent _ _ Hnone).
    now destruct (slice_minus_one body c) as [-> ->].
  - intros F idx w w' token body c _ HF Hpre Htok Hnone.
    rewrite (fenceRule_foreign Math_random F idx w w' _ token HF Hpre Htok).
    rewrite (indexOf_absent _ _ Hnone).
    now destruct (slice_minus_one body c) as [-> ->].
  - intros D idx w w' token HD Htok. split.
    + rewrite (newRule_splices D idx w w' _ token HD Htok).
      simpl. now rewrite append_nil_r.
    + rewrite (fenceRule_foreign Math_random D idx w w' _ token HD
                 eq_refl Htok).
      simpl. now rewrite append_nil_r.
Qed.

(** X14: the chunk correction only asks whether [chunkId] is [0]: a
    spanned token annotated in any later chunk that starts at line
    [L + 1] is recorded exactly as in the first chunk starting at line
    [L], with the same identifier on the same line. *)
Theorem later_chunk_is_first_chunk_one_line_earlier
    (idx : nat) (toks : list Token) (lm : gmap Z string) (n : nat)
    (L c : Z) (tok : Token) (s e : Z) :
  c <> 0 ->
  toks !! idx = Some tok ->
  includes inlineContainers (type tok) = false ->
  map tok = Some (s, e) ->
  exists w1 w2,
    annotate Math_random idx (mkWorld toks (mkEnv (L + 1) c lm) n) = Ok tt w1
    /\ annotate Math_random idx (mkWorld toks (mkEnv L 0 lm) n) = Ok tt w2
    /\ lineMap (env w1) = <[s + L := lineId Math_random n]> lm
    /\ lineMap (env w2) = lineMap (env w1)
    /\ tokens w2 = tokens w1
    /\ minted w2 = minted w1.
Proof.
  intros Hc Htok Hty Hmap. eexists _, _.
  split; [now apply (annotate_spanned Math_random idx _ tok s e)|].
  split; [now apply (annotate_spanned Math_random idx _ tok s e)|].
  unfold annotated, chunkCorrection. cbn [env startLine chunkId lineMap
    tokens minted].
  destruct (Z.eqb_spec c 0) as [|_]; [contradiction|].
  replace (s + (L + 1) - 1) with (s + L) by lia.
  replace (s + L - (if 0 =? 0 then 0 else 1)) with (s + L)
    by (simpl; lia).
  repeat split; reflexivity.
Qed.

(** X15: a text run without span (one that does not open a visual
    line) is still wrapped by the text adapter: its markup is the
    original output inside a [span] that prints the token's attributes,
    a bare [<span>] when it has none; the world is the one the original
    rule left, without Line Map entry or identifier. *)
Theorem unspanned_text_run_wrapped_without_identifier
    (rules : gmap string Rule) (T : Rule) (idx : nat) (w w' : World)
    (tok tok' : Token) (out : string) :
  rules !! "text" = Some T ->
  tokens w !! idx = Some tok ->
  type tok = "text" ->
  map tok = None ->
  T idx w = Ok out w' ->
  tokens w' !! idx = Some tok' ->
  renderOne renderToken (markdownSourceMap Math_random renderToken rules)
    idx w
  = Ok ("<span" +:+ renderAttrs tok' +:+ ">" +:+ out +:+ "</span>") w'
  /\ (attrs tok' = [] ->
      renderOne renderToken (markdownSourceMap Math_random renderToken rules)
        idx w
      = Ok ("<span>" +:+ out +:+ "</span>") w').
Proof.
  intros HT Htok Hty Hmap Hout Htok'.
  destruct (markdownSourceMap_entries Math_random renderToken rules)
    as (_ & _ & Ht & _).
  assert (Hrun : renderOne renderToken
                   (markdownSourceMap Math_random renderToken rules) idx w
                 = Ok ("<span" +:+ renderAttrs tok' +:+ ">" +:+ out
                         +:+ "</span>") w').
  { unfold renderOne, bind, getToken. rewrite Htok, Hty, Ht, HT.
    unfold addLineNumberToTokens, bind.
    rewrite (annotate_unspanned Math_random idx w tok Htok);
      [|now rewrite Hty|exact Hmap].
    exact (textRule_wraps T idx w w' out tok' Hout Htok'). }
  split; [exact Hrun|].
  intros Hno. rewrite Hrun. unfold renderAttrs. now rewrite Hno.
Qed.

(** X16: an opener without span is harmless exactly when the inline
    token that follows holds no child other than line breaks: then the
    annotation returns and the world is as it was; with any other child it
    throws, as it reads [map[0]] of [null]. *)
Theorem spanless_opener_returns_iff_only_breaks
    (idx : nat) (w : World) (tok inl : Token) (cs : list Token) :
  tokens w !! idx = Some tok ->
  type tok = "paragraph_open" \/ type tok = "heading_open" ->
  map tok = None ->
  tokens w !! (idx + 1)%nat = Some inl ->
  children inl = Some cs ->
  ((forall c, c ∈ cs -> isBreak c = true) ->
   annotate Math_random idx w = Ok tt w)
  /\ ((exists c, c ∈ cs /\ isBreak c = false) ->
      annotate Math_random idx w = TypeError).
Proof.
  intros Htok Hty Hmap Hinl Hcs. apply includes_inlineContainers in Hty.
  split.
  - intros Hall.
    assert (Hw : forall k, walkChildren None k false cs = Some cs).
    { clear Hcs. induction cs as [|c rest IH]; intros k; [reflexivity|].
      simpl. fold (isBreak c). rewrite (Hall c) by apply list_elem_of_here.
      rewrite IH; [reflexivity|]. intros x Hx. apply Hall.
      now apply list_elem_of_further. }
    unfold annotate, bind, getToken. rewrite Htok, Hty, Hinl, Hcs, Hmap, Hw.
    unfold updToken. destruct w as [toks en n]. simpl in *. f_equal. f_equal.
    apply list_eq. intros j.
    destruct (decide ((idx + 1)%nat = j)) as [<-|Hne].
    + rewrite list_lookup_alter_eq, Hinl. simpl. f_equal.
      destruct inl. simpl in *. now rewrite Hcs.
    + now rewrite list_lookup_alter_ne.
  - intros Hex. unfold annotate, bind, getToken.
    rewrite Htok, Hty, Hinl, Hcs, Hmap.
    now rewrite walkChildren_no_span.
Qed.

End AdaptersMore.

(** ** A whole paragraph *)

Lemma elem_of_spanStarts (cs : list Token) (a : Z) :
  a ∈ spanStarts cs
  <-> exists j c b, cs !! j = Some c /\ isBreak c = false
                    /\ map c = Some (a, b).
Proof.
  induction cs as [|c rest IH]; simpl.
  - rewrite elem_of_nil. split; [tauto|]. now intros ([|j] & x & b & H & _).
  - assert (Hrest : (exists j x b, rest !! j = Some x /\ isBreak x = false
                                   /\ map x = Some (a, b))
                    -> exists j x b, (c :: rest) !! j = Some x
                                     /\ isBreak x = false
                                     /\ map x = Some (a, b)).
    { intros (j & x & b & H). now exists (S j), x, b. }
    destruct (isBreak c) eqn:Hc; [|destruct (map c) as [[a0 b0]|] eqn:Hm].
    + rewrite IH. split; [exact Hrest|].
      intros ([|j] & x & b & Hj & Hx & Hmx); simpl in Hj.
      * injection Hj as <-. congruence.
      * now exists j, x, b.
    + rewrite elem_of_cons, IH. split.
      * intros [->|H]; [now exists O, c, b0|now apply Hrest].
      * intros ([|j] & x & b & Hj & Hx & Hmx); simpl in Hj.
        -- injection Hj as <-. left. congruence.
        -- right. now exists j, x, b.
    + rewrite IH. split; [exact Hrest|].
      intros ([|j] & x & b & Hj & Hx & Hmx); simpl in Hj.
      * injection Hj as <-. congruence.
      * now exists j, x, b.
Qed.

Section InlinePass.

Variable Math_random : nat -> string.
Variable renderToken : Rule.
Variable R : gmap string Rule.
Variable T : Rule.

Hypothesis R_text :
  R !! "text"
  = Some (addLineNumberToTokens Math_random renderToken
            (Some (textRule (Some T)))).
Hypothesis T_quiet : quiet T.
Hypothesis break_quiet : quiet (ruleOr renderToken (R !! "softbreak")).

Lemma recordSpans_lookup (sl ci : Z) (starts : list Z) :
  forall (n0 : nat) (m : gmap Z string) (k : Z),
    is_Some (recordSpans Math_random sl ci n0 starts m !! k)
    <-> is_Some (m !! k) \/ exists a, a ∈ starts /\ k = lineAt sl ci a.
Proof.
  induction starts as [|a rest IH]; intros n0 m k; simpl.
  - split; [now left|]. intros [H|(a & Ha & _)]; [exact H|].
    now apply elem_of_nil in Ha.
  - rewrite IH, lookup_insert_is_Some'. split.
    + intros [[<-|H]|(x & Hx & ->)].
      * right. exists a. split; [apply list_elem_of_here|reflexivity].
      * now left.
      * right. exists x. split; [now apply list_elem_of_further|reflexivity].
    + intros [H|(x & Hx & ->)]; [left; now right|].
      apply elem_of_cons in Hx as [->|Hx]; [left; now left|].
      right. now exists x.
Qed.

(** One turn of the loop over the children, by the kind of child. *)
Lemma renderOne_child (i : nat) (w : World) (c : Token) :
  tokens w !! i = Some c ->
  type c = "text" \/ type c = "softbreak" ->
  exists out w1,
    renderOne renderToken R i w = Ok out w1
    /\ w1 = (if isBreak c then w
             else match map c with
                  | Some (a, _) =>
                      annotated Math_random i c
                        (lineAt (startLine (env w)) (chunkId (env w)) a) w
                  | None => w
                  end).
Proof.
  intros Hc [Hty|Hty].
  - assert (Hb : isBreak c = false) by (unfold isBreak; now rewrite Hty).
    assert (Hcont : includes inlineContainers (type c) = false)
      by now rewrite Hty.
    rewrite Hb. unfold renderOne, bind, getToken. rewrite Hc, Hty, R_text.
    unfold addLineNumberToTokens, bind.
    destruct (map c) as [[a b]|] eqn:Hm.
    + rewrite (annotate_spanned Math_random i w c a b Hc Hcont Hm).
      destruct (annotated_lookup Math_random i w c
                  (a + startLine (env w) - chunkCorrection (env w)) Hc)
        as [Hc1 _].
      destruct (T_quiet i _ _ Hc1) as (out & Hout).
      eexists _, _. split; [|reflexivity].
      exact (textRule_wraps T i _ _ out _ Hout Hc1).
    + rewrite (annotate_unspanned Math_random i w c Hc Hcont Hm).
      destruct (T_quiet i _ _ Hc) as (out & Hout).
      eexists _, _. split; [|reflexivity].
      exact (textRule_wraps T i _ _ out _ Hout Hc).
  - assert (Hb : isBreak c = true) by (unfold isBreak; now rewrite Hty).
    rewrite Hb. destruct (break_quiet i w c Hc) as (out & Hout).
    exists out, w. split; [|reflexivity].
    unfold renderOne, bind, getToken. rewrite Hc, Hty.
    unfold ruleOr in Hout. now destruct (R !! "softbreak").
Qed.

(** The loop of [renderInline] over children that are text runs and
    line breaks: the spanned text runs are recorded one after the other,
    and nothing else changes in the Line Map. *)
Lemma renderInlineLoop_records (n : nat) :
  forall (i : nat) (w : World),
    (i + n)%nat = length (tokens w) ->
    (forall j c, (i <= j)%nat -> tokens w !! j = Some c ->
                 type c = "text" \/ type c = "softbreak") ->
    exists html w',
      renderInlineLoop renderToken R n i w = Ok html w'
      /\ minted w' = (minted w + length (spanStarts (drop i (tokens w))))%nat
      /\ lineMap (env w')
         = recordSpans Math_random (startLine (env w)) (chunkId (env w))
             (minted w) (spanStarts (drop i (tokens w))) (lineMap (env w))
      /\ startLine (env w') = startLine (env w)
      /\ chunkId (env w') = chunkId (env w).
Proof.
  induction n as [|n IH]; intros i w Hlen Hty.
  - exists EmptyString, w. simpl. split; [reflexivity|].
    rewrite drop_ge by lia. simpl. repeat split; lia.
  - destruct (lookup_lt_is_Some_2 (tokens w) i ltac:(lia)) as [c Hc].
    destruct (renderOne_child i w c Hc (Hty i c ltac:(lia) Hc))
      as (out & w1 & Hone & Hw1).
    assert (Hsame : length (tokens w1) = length (tokens w)
                    /\ drop (S i) (tokens w1) = drop (S i) (tokens w)
                    /\ startLine (env w1) = startLine (env w)
                    /\ chunkId (env w1) = chunkId (env w)).
    { rewrite Hw1. destruct (isBreak c); [easy|].
      destruct (map c) as [[a b]|]; [|easy].
      unfold annotated. simpl. rewrite length_insert.
      now rewrite drop_insert_lt by lia. }
    destruct Hsame as (Hl1 & Hd1 & Hs1 & Hc1).
    destruct (IH (S i) w1) as (html & w' & Hloop & Hm & Hlm & Hs & Hci).
    + lia.
    + intros j x Hj Hx. apply (Hty j x); [lia|].
      rewrite <- Hx. replace j with (S i + (j - S i))%nat by lia.
      rewrite <- !lookup_drop. now rewrite Hd1.
    + exists (out +:+ html), w'. split.
      * simpl. unfold bind. rewrite Hone, Hloop. reflexivity.
      * rewrite (drop_S _ _ _ Hc). simpl spanStarts.
        rewrite Hd1, Hs1, Hc1 in *. rewrite Hm, Hlm, Hs, Hci. rewrite Hw1.
        destruct (isBreak c); [easy|].
        destruct (map c) as [[a b]|]; [|easy].
        unfold annotated. simpl. repeat split; lia.
Qed.

End InlinePass.

(** Every child that is no line break shares its visual line with the
    child that opens that line. *)
Lemma line_has_opener (cs : list Token) :
  forall j c,
    cs !! j = Some c -> isBreak c = false ->
    exists j0 c0,
      cs !! j0 = Some c0 /\ isBreak c0 = false
      /\ opensLine false cs j0 = true
      /\ visualLine cs j0 = visualLine cs j.
Proof.
  induction j as [|j IH]; intros c Hc Hb.
  - now exists O, c.
  - destruct (lookup_lt_is_Some_2 cs j) as [p Hp].
    { apply lookup_lt_Some in Hc. lia. }
    destruct (isBreak p) eqn:Hpb.
    + exists (S j), c. repeat split; try assumption. simpl. now rewrite Hp.
    + destruct (IH p Hp Hpb) as (j0 & c0 & H0 & Hb0 & Ho & Hv).
      exists j0, c0. repeat split; try assumption.
      rewrite Hv, (visualLine_succ cs j), Hp, Hpb. lia.
Qed.

Lemma derive_type (s k : Z) (u : bool) (cs : list Token) (j : nat)
    (c : Token) :
  type (derive s k u cs j c) = type c.
Proof.
  unfold derive. destruct (_ && _); [now destruct c|reflexivity].
Qed.

(** The spans the walk leaves, as relative lines: exactly the visual
    lines that hold a child other than a line break. *)
Lemma elem_of_spanStarts_walked (s : Z) (cs : list Token) (a : Z) :
  (forall c, c ∈ cs -> map c = None) ->
  a ∈ spanStarts (imap (derive s 0 false cs) cs)
  <-> exists j c, cs !! j = Some c /\ isBreak c = false
                  /\ a = s + visualLine cs j.
Proof.
  intros Hnone. rewrite elem_of_spanStarts. split.
  - intros (j & c' & b & Hj & _ & Hm).
    destruct (walked_child_span s cs Hnone j c' a b Hj Hm)
      as (c & Hc & Hb & _ & Ha & _).
    now exists j, c.
  - intros (j & c & Hc & Hb & ->).
    destruct (line_has_opener cs j c Hc Hb) as (j0 & c0 & H0 & Hb0 & Ho & Hv).
    exists j0, (derive s 0 false cs j0 c0), (s + visualLine cs j0 + 1).
    split; [now rewrite list_lookup_imap, H0|].
    unfold derive. rewrite Hb0, Ho. simpl.
    split; [unfold isBreak in *; now destruct c0|].
    rewrite Z.add_0_l, Hv. now destruct c0.
Qed.

Lemma spanStarts_sorted (cs : list Token) :
  (forall j1 j2 c1 c2 a1 b1 a2 b2,
      (j1 < j2)%nat ->
      cs !! j1 = Some c1 -> cs !! j2 = Some c2 ->
      isBreak c1 = false -> isBreak c2 = false ->
      map c1 = Some (a1, b1) -> map c2 = Some (a2, b2) ->
      a1 < a2) ->
  StronglySorted Z.lt (spanStarts cs).
Proof.
  induction cs as [|c rest IH]; intros Hinc; [constructor|].
  assert (Hrest : StronglySorted Z.lt (spanStarts rest)).
  { apply IH. intros j1 j2 c1 c2 a1 b1 a2 b2 Hlt H1 H2.
    apply (Hinc (S j1) (S j2)); [lia|exact H1|exact H2]. }
  simpl. destruct (isBreak c) eqn:Hb; [exact Hrest|].
  destruct (map c) as [[a b]|] eqn:Hm; [|exact Hrest].
  constructor; [exact Hrest|].
  apply List.Forall_forall. intros a2 Hin.
  apply list_elem_of_In, elem_of_spanStarts in Hin
    as (j & c2 & b2 & Hj & Hb2 & Hm2).
  exact (Hinc O (S j) c c2 a b a2 b2 ltac:(lia) eq_refl Hj Hb Hb2 Hm Hm2).
Qed.

Lemma spanStarts_walked_sorted (s : Z) (cs : list Token) :
  (forall c, c ∈ cs -> map c = None) ->
  StronglySorted Z.lt (spanStarts (imap (derive s 0 false cs) cs)).
Proof.
  intros Hnone. apply spanStarts_sorted.
  intros j1 j2 c1 c2 a1 b1 a2 b2 Hlt H1 H2 _ _ Hm1 Hm2.
  destruct (walked_child_span s cs Hnone j1 c1 a1 b1 H1 Hm1)
    as (_ & _ & _ & _ & -> & _).
  destruct (walked_child_span s cs Hnone j2 c2 a2 b2 H2 Hm2)
    as (_ & _ & _ & Ho & -> & _).
  pose proof (opener_on_later_line cs j1 j2 Hlt Ho). lia.
Qed.

Section ParagraphPass.

Variable Math_random : nat -> string.
Variable renderToken : Rule.

(** X17: a whole pass over a paragraph or heading whose inline token
    holds text runs and line breaks, with a renderer whose own rules for
    text, line breaks and tags return and leave the world alone.  The pass
    returns; the relative lines it records are, in increasing order,
    exactly the visual lines of the block that hold a text run, each
    shifted to its absolute line; the identifiers are consecutive draws,
    one per such line; and a line has an entry afterwards if and only if
    it had one before or is one of these lines. *)
Theorem paragraph_pass_records_content_lines
    (rules : gmap string Rule) (T : Rule) (o inl cl : Token)
    (kids : list Token) (s e : Z) (w : World) :
  rules !! "text" = Some T ->
  quiet T ->
  quiet (ruleOr renderToken (rules !! "softbreak")) ->
  quiet renderToken ->
  tokens w = [o; inl; cl] ->
  type o = "paragraph_open" \/ type o = "heading_open" ->
  rules !! type o = None ->
  map o = Some (s, e) ->
  type inl = "inline" ->
  children inl = Some kids ->
  (forall c, c ∈ kids ->
             (type c = "text" \/ type c = "softbreak") /\ map c = None) ->
  rules !! type cl = None ->
  type cl ∉ "inline" :: ["directive"; "directive_error"; "text"; "fence"]
              ++ appendedRules ->
  exists html w' starts,
    render renderToken (markdownSourceMap Math_random renderToken rules) w
    = Ok html w'
    /\ StronglySorted Z.lt starts
    /\ (forall a, a ∈ starts
                  <-> exists j c, kids !! j = Some c /\ isBreak c = false
                                  /\ a = s + visualLine kids j)
    /\ minted w' = (minted w + length starts)%nat
    /\ lineMap (env w')
       = recordSpans Math_random (startLine (env w)) (chunkId (env w))
           (minted w) starts (lineMap (env w))
    /\ (forall k,
           is_Some (lineMap (env w') !! k)
           <-> is_Some (lineMap (env w) !! k)
               \/ exists j c,
                    kids !! j = Some c /\ isBreak c = false
                    /\ k = lineAt (startLine (env w)) (chunkId (env w))
                             (s + visualLine kids j)).
Proof.
  intros HT HTq Hbq Hrq Htoks Hto Hro Hmo Hti Hkids Hall Hrc Htc.
  set (R := markdownSourceMap Math_random renderToken rules).
  set (walked := imap (derive s 0 false kids) kids).
  assert (Hnone : forall c, c ∈ kids -> map c = None)
    by (intros c Hc; now apply Hall).
  (* the registry entries the pass meets *)
  assert (HRo : R !! type o
                = Some (addLineNumberToTokens Math_random renderToken None)).
  { unfold R. rewrite final_rule_by_type.
    assert (Hin : installAdapters Math_random rules !! type o = None).
    { destruct Hto as [Hk|Hk]; rewrite Hk in Hro |- *;
        now rewrite adapters_other. }
    rewrite Hin. destruct (decide _) as [[[r Hr] _]|_]; [discriminate|].
    destruct (decide _) as [_|Hno]; [reflexivity|].
    elim Hno. unfold appendedRules.
    destruct Hto as [-> | ->]; rewrite !elem_of_cons; tauto. }
  assert (HRc : R !! type cl = None).
  { apply not_elem_of_cons in Htc as [_ Htc].
    apply not_elem_of_app in Htc as [Had Hap].
    rewrite !not_elem_of_cons in Had. destruct Had as (H1 & H2 & H3 & H4 & _).
    destruct (final_rule_cases Math_random renderToken rules (type cl))
      as (n & Hn & H0).
    assert (Hin : installAdapters Math_random rules !! type cl = None)
      by now rewrite adapters_other.
    unfold R. now rewrite Hn, (H0 Hin Hap), Hin. }
  assert (HRt : R !! "text"
                = Some (addLineNumberToTokens Math_random renderToken
                          (Some (textRule (Some T))))).
  { destruct (markdownSourceMap_entries Math_random renderToken rules)
      as (_ & _ & Ht & _).
    unfold R. now rewrite Ht, HT. }
  assert (HRb : quiet (ruleOr renderToken (R !! "softbreak"))).
  { unfold R. now rewrite markdownSourceMap_softbreak. }
  (* first turn: the opener *)
  assert (H0 : tokens w !! O = Some o) by now rewrite Htoks.
  assert (H1 : tokens w !! 1%nat = Some inl) by now rewrite Htoks.
  assert (Hcont : includes inlineContainers (type o) = true)
    by now apply includes_inlineContainers.
  pose proof (annotate_container Math_random O w o inl kids s e H0 Hcont Hmo
                H1 Hkids) as Hann.
  fold walked in Hann. simpl Nat.add in Hann.
  set (w1 := mkWorld (<[1%nat := setChildren (Some walked) inl]> (tokens w))
               (env w) (minted w)) in *.
  assert (Hw1 : tokens w1 = [o; setChildren (Some walked) inl; cl])
    by (unfold w1; now rewrite Htoks).
  destruct (Hrq O w1 o ltac:(now rewrite Hw1)) as (h0 & Hh0).
  assert (Hstep0 : renderStep renderToken R O w = Ok h0 w1).
  { unfold renderStep, bind, getToken. rewrite H0.
    replace (String.eqb (type o) "inline") with false
      by (destruct Hto as [-> | ->]; reflexivity).
    unfold renderOne, bind, getToken. rewrite H0. simpl. rewrite HRo.
    unfold addLineNumberToTokens, bind. rewrite Hann. exact Hh0. }
  (* second turn: the inline token *)
  assert (Htypes : forall j c, (0 <= j)%nat -> walked !! j = Some c ->
                               type c = "text" \/ type c = "softbreak").
  { intros j c _ Hj. unfold walked in Hj. rewrite list_lookup_imap in Hj.
    destruct (kids !! j) as [c0|] eqn:Hc0; [|discriminate].
    injection Hj as <-. rewrite derive_type.
    apply Hall. eapply list_elem_of_lookup_2; eauto. }
  destruct (renderInlineLoop_records Math_random renderToken R T HRt HTq HRb
              (length walked) O (mkWorld walked (env w1) (minted w1))
              eq_refl Htypes)
    as (h1 & wi & Hloop & Hmi & Hlmi & Hsi & Hci).
  cbn [tokens env minted] in Hmi, Hlmi, Hsi, Hci. rewrite drop_0 in Hmi, Hlmi.
  set (w2 := mkWorld (alter (setChildren (Some (tokens wi))) 1%nat (tokens w1))
               (env wi) (minted wi)).
  assert (Hstep1 : renderStep renderToken R 1%nat w1 = Ok h1 w2).
  { assert (L1 : tokens w1 !! 1%nat = Some (setChildren (Some walked) inl))
      by now rewrite Hw1.
    assert (Hty' : type (setChildren (Some walked) inl) = "inline")
      by (rewrite <- Hti; now destruct inl).
    assert (Hch' : children (setChildren (Some walked) inl) = Some walked)
      by now destruct inl.
    unfold renderStep, bind, getToken. rewrite L1. cbv beta iota.
    rewrite Hty', String.eqb_refl.
    unfold withChildren. rewrite L1, Hch'.
    unfold renderInline. cbn [tokens]. now rewrite Hloop. }
  (* third turn: the closer *)
  assert (H2 : tokens w2 !! 2%nat = Some cl)
    by (unfold w2; cbn [tokens]; now rewrite Hw1).
  destruct (Hrq 2%nat w2 cl H2) as (h2 & Hh2).
  assert (Hstep2 : renderStep renderToken R 2%nat w2 = Ok h2 w2).
  { unfold renderStep, bind, getToken. rewrite H2.
    replace (String.eqb (type cl) "inline") with false.
    - unfold renderOne, bind, getToken. rewrite H2. simpl. now rewrite HRc.
    - symmetry. apply String.eqb_neq. intros Heq. apply Htc. rewrite Heq.
      apply list_elem_of_here. }
  exists (h0 +:+ h1 +:+ h2 +:+ EmptyString), w2, (spanStarts walked).
  split.
  { unfold render. rewrite Htoks. simpl. unfold bind.
    rewrite Hstep0, Hstep1, Hstep2. reflexivity. }
  split; [now apply spanStarts_walked_sorted|].
  split; [intros a; now apply elem_of_spanStarts_walked|].
  unfold w2, w1 in *. cbn [env minted lineMap tokens] in *.
  split; [exact Hmi|]. split; [exact Hlmi|].
  intros k. rewrite Hlmi, recordSpans_lookup. split.
  - intros [H|(a & Ha & ->)]; [now left|right].
    apply (elem_of_spanStarts_walked s kids a Hnone) in Ha
      as (j & c & Hc & Hb & ->).
    now exists j, c.
  - intros [H|(j & c & Hc & Hb & ->)]; [now left|right].
    exists (s + visualLine kids j). split; [|reflexivity].
    apply (elem_of_spanStarts_walked s kids _ Hnone). now exists j, c.
Qed.

End ParagraphPass.

Section FencePass.

Variable Math_random : nat -> string.
Variable renderToken : Rule.

(** X18: a spanned code block rendered through the final registry is
    first annotated itself and then adapted: with [n] line breaks in its
    content, [n + 1] identifiers are drawn; the first is recorded at the
    corrected line of the opening fence and printed on the [code]
    element, the others at the [n] lines that follow; and a line has an
    entry afterwards if and only if it had one before or lies in
    [start .. start + n]. *)
Theorem fence_pass_records_fence_line_and_content_lines
    (rules : gmap string Rule) (F : Rule) (idx : nat) (w : World)
    (tok : Token) (s e : Z) (out : string) :
  rules !! "fence" = Some F ->
  tokens w !! idx = Some tok ->
  type tok = "fence" ->
  map tok = Some (s, e) ->
  let start := s + startLine (env w) - chunkCorrection (env w) in
  let n := countChar JS.newline (content tok) in
  let id0 := lineId Math_random (minted w) in
  let w1 := annotated Math_random idx tok start w in
  F idx w1 = Ok out w1 ->
  JS.startsWith "<pre" out = true ->
  exists body w'',
    renderOne renderToken (markdownSourceMap Math_random renderToken rules)
      idx w
    = Ok ("<pre><code" +:+ renderAttrs (attrSet SRC_LINE_ID id0 tok) +:+ ">"
            +:+ body +:+ "</code></pre>" +:+ JS.str JS.newline) w''
    /\ minted w'' = (minted w + 1 + n)%nat
    /\ lineMap (env w'') !! start = Some id0
    /\ attrGet SRC_LINE_ID (attrSet SRC_LINE_ID id0 tok) = Some id0
    /\ forall k, is_Some (lineMap (env w'') !! k)
                 <-> is_Some (lineMap (env w) !! k)
                     \/ start <= k <= start + Z.of_nat n.
Proof.
  intros HF Htok Hty Hmap start n id0 w1 Hout Hpre.
  destruct (markdownSourceMap_entries Math_random renderToken rules)
    as (_ & _ & _ & Hf).
  destruct (annotated_lookup Math_random idx w tok start Htok) as [Htok1 Hl1].
  fold w1 id0 in Htok1, Hl1.
  destruct (attrSet_fields SRC_LINE_ID id0 tok) as (_ & Hmap1 & _ & Hcont1).
  rewrite (renderOne_intercepted Math_random renderToken rules
             (fenceRule Math_random (Some F)) idx w tok s e Htok);
    [|rewrite Hty, !elem_of_cons; tauto|now rewrite Hty, Hf, HF|exact Hmap].
  fold start w1.
  rewrite (fenceRule_code Math_random F idx w1 w1 out _ s e Hout Hpre Htok1);
    [|now rewrite Hmap1].
  rewrite Hcont1.
  assert (Hlen : length (take (length (JS.split JS.newline (content tok)) - 1)
                           (JS.split JS.newline (content tok))) = n).
  { rewrite length_take, length_split. unfold n. lia. }
  eexists _, _. split; [reflexivity|]. cbn [env minted lineMap].
  rewrite Hlen.
  assert (Hs1 : s + startLine (env w1) - chunkCorrection (env w1) = start)
    by reflexivity.
  rewrite Hs1.
  split; [unfold w1, annotated; simpl; lia|].
  split.
  { rewrite recordLines_outside by (intros j Hj; lia). exact Hl1. }
  split; [apply attrGet_attrSet|].
  intros k. rewrite recordLines_range.
  unfold w1, annotated. cbn [env lineMap]. rewrite lookup_insert_is_Some'.
  split.
  - intros [[<-|H]|H]; [right; lia|now left|right; lia].
  - intros [H|H]; [left; now right|].
    destruct (decide (k = start)) as [->|Hne]; [left; now left|right; lia].
Qed.

End FencePass.

(** ** The further theorems at concrete inputs *)

Lemma unregistered_type_witness :
  tokens (Sample.start [More.listOpen] 0 0) !! O = Some More.listOpen
  /\ Sample.rules !! type More.listOpen = None
  /\ markdownSourceMap Sample.Math_random Sample.renderToken Sample.rules
       !! type More.listOpen = None
  /\ renderOne Sample.renderToken
       (markdownSourceMap Sample.Math_random Sample.renderToken Sample.rules)
       O (Sample.start [More.listOpen] 0 0)
     = Sample.renderToken O (Sample.start [More.listOpen] 0 0).
Proof.
  split; [reflexivity|]. split; [reflexivity|].
  apply (unregistered_type_not_annotated Sample.Math_random
           Sample.renderToken Sample.rules O
           (Sample.start [More.listOpen] 0 0) More.listOpen);
    [reflexivity|reflexivity|].
  unfold appendedRules. rewrite elem_of_app, !elem_of_cons, !elem_of_nil.
  simpl. intuition discriminate.
Defined.

Lemma unspanned_token_witness :
  tokens (Sample.start [More.spanlessBlock] 0 0) !! O
  = Some More.spanlessBlock
  /\ installAdapters Sample.Math_random Sample.htmlRules
       !! type More.spanlessBlock = Some Sample.htmlBlockDefault
  /\ map More.spanlessBlock = None
  /\ renderOne Sample.renderToken
       (markdownSourceMap Sample.Math_random Sample.renderToken
          Sample.htmlRules)
       O (Sample.start [More.spanlessBlock] 0 0)
     = Sample.htmlBlockDefault O (Sample.start [More.spanlessBlock] 0 0).
Proof.
  split; [reflexivity|]. split; [vm_compute; reflexivity|].
  split; [reflexivity|].
  apply (unspanned_token_rendered_by_adapted_rule Sample.Math_random
           Sample.renderToken Sample.htmlRules Sample.htmlBlockDefault O
           (Sample.start [More.spanlessBlock] 0 0) More.spanlessBlock);
    [reflexivity|vm_compute; reflexivity|reflexivity|reflexivity].
Defined.

Lemma annotated_twice_witness :
  tokens (Sample.start [More.link] 0 0) !! O = Some More.link
  /\ type More.link = "link_open"
  /\ More.linkRules !! type More.link = Some More.linkDefault
  /\ map More.link = Some (0, 1)
  /\ exists w2,
       renderOne Sample.renderToken
         (markdownSourceMap Sample.Math_random Sample.renderToken
            More.linkRules)
         O (Sample.start [More.link] 0 0)
       = More.linkDefault O w2
       /\ minted w2 = 2%nat
       /\ lineMap (env w2) = <[0 := "077"]> ∅
       /\ tokens w2 = <[O := attrSet SRC_LINE_ID "077" More.link]> [More.link].
Proof.
  split; [reflexivity|]. split; [reflexivity|].
  split; [vm_compute; reflexivity|]. split; [reflexivity|].
  apply (appended_registered_type_annotated_twice Sample.Math_random
           Sample.renderToken More.linkRules More.linkDefault O
           (Sample.start [More.link] 0 0) More.link 0 1);
    [reflexivity|right; reflexivity|vm_compute; reflexivity|reflexivity].
Defined.

Lemma missing_rule_witness :
  tokens Sample.chunk1 !! O = Some Sample.spanned
  /\ (∅ : gmap string Rule) !! type Sample.spanned = None
  /\ renderOne Sample.renderToken
       (markdownSourceMap Sample.Math_random Sample.renderToken ∅)
       O Sample.chunk1
     = TypeError.
Proof.
  split; [reflexivity|]. split; [reflexivity|].
  apply (missing_original_rule_throws Sample.Math_random Sample.renderToken
           ∅ O Sample.chunk1 Sample.spanned); [reflexivity| |reflexivity].
  simpl. rewrite !elem_of_cons. tauto.
Defined.

Lemma container_idempotent_witness :
  tokens (Sample.start Sample.threeLines 0 0) !! O = Some (Sample.opener 0)
  /\ type (Sample.opener 0) = "paragraph_open"
  /\ annotate Sample.Math_random O (Sample.start Sample.threeLines 0 0)
     = Ok tt (Sample.start (Sample.paragraph 0 More.walkedKids) 0 0)
  /\ annotate Sample.Math_random O
       (Sample.start (Sample.paragraph 0 More.walkedKids) 0 0)
     = Ok tt (Sample.start (Sample.paragraph 0 More.walkedKids) 0 0).
Proof.
  split; [reflexivity|]. split; [reflexivity|]. split; [reflexivity|].
  exact (container_annotation_idempotent Sample.Math_random O
           (Sample.start Sample.threeLines 0 0)
           (Sample.start (Sample.paragraph 0 More.walkedKids) 0 0)
           (Sample.opener 0) eq_refl (or_introl eq_refl) eq_refl).
Defined.

Lemma threeKids_spanless (c : Token) : c ∈ Sample.threeKids -> map c = None.
Proof.
  unfold Sample.threeKids. rewrite !elem_of_cons, elem_of_nil.
  intros [->|[->|[->|[->|[->|[]]]]]]; reflexivity.
Qed.

Lemma derived_spans_witness :
  walkChildren (Some (0, 1)) 0 false Sample.threeKids = Some More.walkedKids
  /\ (forall c, c ∈ Sample.threeKids -> map c = None)
  /\ (forall j c' a b,
         More.walkedKids !! j = Some c' -> map c' = Some (a, b) ->
         b = a + 1 /\ 0 <= a /\ isBreak c' = false)
  /\ (forall j1 j2 c1 c2 a1 b1 a2 b2,
         (j1 < j2)%nat ->
         More.walkedKids !! j1 = Some c1 -> More.walkedKids !! j2 = Some c2 ->
         map c1 = Some (a1, b1) -> map c2 = Some (a2, b2) ->
         a1 < a2).
Proof.
  split; [reflexivity|]. split; [exact threeKids_spanless|].
  exact (derived_spans_increase 0 1 Sample.threeKids More.walkedKids
           eq_refl threeKids_spanless).
Defined.

Lemma annotate_frame_witness :
  annotate Sample.Math_random O Sample.sameLine
  = Ok tt (annotated Sample.Math_random O Sample.spanned 12 Sample.sameLine)
  /\ startLine
       (env (annotated Sample.Math_random O Sample.spanned 12 Sample.sameLine))
     = 10
  /\ length
       (tokens (annotated Sample.Math_random O Sample.spanned 12
                  Sample.sameLine)) = 2%nat
  /\ tokens (annotated Sample.Math_random O Sample.spanned 12 Sample.sameLine)
       !! 1%nat = Some Sample.spanned'.
Proof.
  split; [reflexivity|].
  destruct (annotate_frame Sample.Math_random O Sample.sameLine
              (annotated Sample.Math_random O Sample.spanned 12
                 Sample.sameLine) eq_refl)
    as (Hs & _ & Hl & _ & _).
  split; [exact Hs|]. split; [exact Hl|reflexivity].
Defined.

Lemma fence_draws_witness :
  Sample.fenceDefault O (Sample.start Sample.fourLines 0 0)
  = Ok ("<pre><code>" +:+ escapeHtml (content Sample.fourLinesFence)
          +:+ "</code></pre>" +:+ Sample.nl)
       (Sample.start Sample.fourLines 0 0)
  /\ tokens (Sample.start Sample.fourLines 0 0) !! O
     = Some Sample.fourLinesFence
  /\ map Sample.fourLinesFence = Some (5, 11)
  /\ countChar JS.newline (content Sample.fourLinesFence) = 4%nat
  /\ exists html w'',
       fenceRule Sample.Math_random (Some Sample.fenceDefault) O
         (Sample.start Sample.fourLines 0 0) = Ok html w''
       /\ minted w'' = 4%nat
       /\ forall k, is_Some (lineMap (env w'') !! k)
                    <-> is_Some ((∅ : gmap Z string) !! k) \/ 5 < k <= 9.
Proof.
  do 4 (split; [reflexivity|]).
  exact (fence_draws_one_identifier_per_line_break Sample.Math_random
           Sample.fenceDefault O (Sample.start Sample.fourLines 0 0)
           (Sample.start Sample.fourLines 0 0) _ Sample.fourLinesFence 5 11
           eq_refl eq_refl eq_refl eq_refl).
Defined.

Lemma verbatim_fence_needs_span_witness :
  Sample.fenceDefault O (Sample.start [More.spanlessFence] 0 0)
  = Ok ("<pre><code>" +:+ escapeHtml (content More.spanlessFence)
          +:+ "</code></pre>" +:+ Sample.nl)
       (Sample.start [More.spanlessFence] 0 0)
  /\ tokens (Sample.start [More.spanlessFence] 0 0) !! O
     = Some More.spanlessFence
  /\ map More.spanlessFence = None
  /\ fenceRule Sample.Math_random (Some Sample.fenceDefault) O
       (Sample.start [More.spanlessFence] 0 0) = TypeError.
Proof.
  do 3 (split; [reflexivity|]).
  exact (proj1 (verbatim_fence_needs_span Sample.Math_random
                  Sample.fenceDefault O
                  (Sample.start [More.spanlessFence] 0 0)
                  (Sample.start [More.spanlessFence] 0 0) _
                  More.spanlessFence eq_refl eq_refl eq_refl) eq_refl).
Defined.

Lemma verbatim_output_witness :
  Sample.fenceDefault O (Sample.start Sample.fourLines 0 0)
  = Ok ("<pre><code>" +:+ escapeHtml (content Sample.fourLinesFence)
          +:+ "</code></pre>" +:+ Sample.nl)
       (Sample.start Sample.fourLines 0 0)
  /\ More.highlightDefault O (Sample.start Sample.fourLines 0 0)
     = Ok ("<pre class=" +:+ Sample.q +:+ "hl" +:+ Sample.q +:+ "><code><b>"
             +:+ escapeHtml (content Sample.fourLinesFence)
             +:+ "</b></code></pre>" +:+ Sample.nl)
          (Sample.start Sample.fourLines 0 0)
  /\ fenceRule Sample.Math_random (Some Sample.fenceDefault) O
       (Sample.start Sample.fourLines 0 0)
     = fenceRule Sample.Math_random (Some More.highlightDefault) O
         (Sample.start Sample.fourLines 0 0).
Proof.
  do 2 (split; [reflexivity|]).
  exact (proj1 (verbatim_output_ignores_original_markup Sample.Math_random
                  Sample.fenceDefault More.highlightDefault O
                  (Sample.start Sample.fourLines 0 0)
                  (Sample.start Sample.fourLines 0 0) _ _
                  Sample.fourLinesFence 5 11
                  eq_refl eq_refl eq_refl eq_refl eq_refl eq_refl)).
Defined.

Lemma fence_rejoin_witness :
  content Sample.fourLinesFence
  = ("alpha" +:+ Sample.nl +:+ "beta" +:+ Sample.nl +:+ "gamma" +:+ Sample.nl
       +:+ "delta") +:+ JS.str JS.newline
  /\ exists lines w'',
       fenceRule Sample.Math_random (Some Sample.fenceDefault) O
         (Sample.start Sample.fourLines 0 0)
       = Ok ("<pre><code" +:+ renderAttrs Sample.fourLinesFence +:+ ">"
               +:+ JS.join (JS.str JS.newline)
                     (imap (fun i l =>
                              lineSpan (lineId Sample.Math_random (0 + i)) l)
                        lines)
               +:+ "</code></pre>" +:+ JS.str JS.newline) w''
       /\ JS.join (JS.str JS.newline) lines
          = escapeHtml ("alpha" +:+ Sample.nl +:+ "beta" +:+ Sample.nl
                          +:+ "gamma" +:+ Sample.nl +:+ "delta").
Proof.
  split; [reflexivity|].
  exact (fence_lines_rejoin_to_content Sample.Math_random Sample.fenceDefault
           O (Sample.start Sample.fourLines 0 0)
           (Sample.start Sample.fourLines 0 0) _ Sample.fourLinesFence 5 11
           ("alpha" +:+ Sample.nl +:+ "beta" +:+ Sample.nl +:+ "gamma"
              +:+ Sample.nl +:+ "delta")
           eq_refl eq_refl eq_refl eq_refl eq_refl).
Defined.

Lemma without_bracket_witness :
  singleUnit "y"
  /\ Sample.htmlBlockDefault O (Sample.start [identified] 0 0)
     = Ok ("bod" +:+ JS.str "y") (Sample.start [identified] 0 0)
  /\ JS.find ">" ("bod" +:+ JS.str "y") = None
  /\ JS.startsWith "<pre" ("bod" +:+ JS.str "y") = false
  /\ newRule (Some Sample.htmlBlockDefault) O (Sample.start [identified] 0 0)
     = Ok ("bod data-line-id=" +:+ Sample.q +:+ "07" +:+ Sample.q +:+ "y")
          (Sample.start [identified] 0 0)
  /\ fenceRule Sample.Math_random (Some Sample.htmlBlockDefault) O
       (Sample.start [identified] 0 0)
     = Ok ("bod  data-line-id=" +:+ Sample.q +:+ "07" +:+ Sample.q +:+ "y")
          (Sample.start [identified] 0 0).
Proof.
  assert (Hy : singleUnit "y") by (vm_compute; lia).
  split; [exact Hy|]. do 3 (split; [reflexivity|]). split.
  - exact (proj1 (attributes_before_last_character_without_bracket
                    Sample.Math_random)
             Sample.htmlBlockDefault O (Sample.start [identified] 0 0)
             (Sample.start [identified] 0 0) identified "bod" "y"%char
             Hy eq_refl eq_refl eq_refl).
  - exact (proj1 (proj2 (attributes_before_last_character_without_bracket
                           Sample.Math_random))
             Sample.htmlBlockDefault O (Sample.start [identified] 0 0)
             (Sample.start [identified] 0 0) identified "bod" "y"%char
             Hy eq_refl eq_refl eq_refl eq_refl).
Defined.

Lemma later_chunk_witness :
  (3 : Z) <> 0
  /\ [Sample.spanned] !! O = Some Sample.spanned
  /\ map Sample.spanned = Some (3, 4)
  /\ exists w1 w2,
       annotate Sample.Math_random O
         (mkWorld [Sample.spanned] (mkEnv (9 + 1) 3 ∅) O) = Ok tt w1
       /\ annotate Sample.Math_random O
            (mkWorld [Sample.spanned] (mkEnv 9 0 ∅) O) = Ok tt w2
       /\ lineMap (env w1) = <[3 + 9 := "07"]> ∅
       /\ lineMap (env w2) = lineMap (env w1)
       /\ tokens w2 = tokens w1
       /\ minted w2 = minted w1.
Proof.
  split; [discriminate|]. do 2 (split; [reflexivity|]).
  apply (later_chunk_is_first_chunk_one_line_earlier Sample.Math_random O
           [Sample.spanned] ∅ O 9 3 Sample.spanned 3 4);
    [discriminate|reflexivity|reflexivity|reflexivity].
Defined.

Lemma unspanned_text_witness :
  Sample.rules !! "text" = Some Sample.textDefault
  /\ tokens (Sample.start [Sample.text None "x"] 0 0) !! O
     = Some (Sample.text None "x")
  /\ map (Sample.text None "x") = None
  /\ Sample.textDefault O (Sample.start [Sample.text None "x"] 0 0)
     = Ok "x" (Sample.start [Sample.text None "x"] 0 0)
  /\ renderOne Sample.renderToken
       (markdownSourceMap Sample.Math_random Sample.renderToken Sample.rules)
       O (Sample.start [Sample.text None "x"] 0 0)
     = Ok ("<span>" +:+ "x" +:+ "</span>")
          (Sample.start [Sample.text None "x"] 0 0).
Proof.
  split; [vm_compute; reflexivity|]. do 3 (split; [reflexivity|]).
  exact (proj2 (unspanned_text_run_wrapped_without_identifier
                  Sample.Math_random Sample.renderToken Sample.rules
                  Sample.textDefault O
                  (Sample.start [Sample.text None "x"] 0 0)
                  (Sample.start [Sample.text None "x"] 0 0)
                  (Sample.text None "x") (Sample.text None "x") "x"
                  ltac:(vm_compute; reflexivity)
                  eq_refl eq_refl eq_refl eq_refl eq_refl) eq_refl).
Defined.

Lemma spanless_opener_witness :
  tokens (Sample.start [More.spanlessOpener; More.onlyBreak] 0 0) !! O
  = Some More.spanlessOpener
  /\ map More.spanlessOpener = None
  /\ children More.onlyBreak = Some [Sample.softbreak]
  /\ (forall c, c ∈ [Sample.softbreak] -> isBreak c = true)
  /\ annotate Sample.Math_random O
       (Sample.start [More.spanlessOpener; More.onlyBreak] 0 0)
     = Ok tt (Sample.start [More.spanlessOpener; More.onlyBreak] 0 0).
Proof.
  assert (Hall : forall c, c ∈ [Sample.softbreak] -> isBreak c = true).
  { intros c Hc. apply list_elem_of_singleton in Hc. now subst. }
  do 3 (split; [reflexivity|]). split; [exact Hall|].
  exact (proj1 (spanless_opener_returns_iff_only_breaks Sample.Math_random O
                  (Sample.start [More.spanlessOpener; More.onlyBreak] 0 0)
                  More.spanlessOpener More.onlyBreak [Sample.softbreak]
                  eq_refl (or_introl eq_refl) eq_refl eq_refl eq_refl)
           Hall).
Defined.

Lemma sample_textDefault_quiet : quiet Sample.textDefault.
Proof.
  intros idx w tok H. unfold Sample.textDefault, bind, getToken.
  rewrite H. now eexists.
Qed.

Lemma sample_softbreak_quiet :
  quiet (ruleOr Sample.renderToken (Sample.rules !! "softbreak")).
Proof.
  replace (Sample.rules !! "softbreak") with (Some Sample.softbreakDefault)
    by (vm_compute; reflexivity).
  intros idx w tok H. now eexists.
Qed.

Lemma sample_renderToken_quiet : quiet Sample.renderToken.
Proof.
  intros idx w tok H. unfold Sample.renderToken, bind, getToken. rewrite H.
  destruct (String.eqb (type tok) "paragraph_open"); [now eexists|].
  destruct (String.eqb (type tok) "paragraph_close"); now eexists.
Qed.

Lemma threeKids_kinds (c : Token) :
  c ∈ Sample.threeKids ->
  (type c = "text" \/ type c = "softbreak") /\ map c = None.
Proof.
  unfold Sample.threeKids. rewrite !elem_of_cons, elem_of_nil.
  intros [->|[->|[->|[->|[->|[]]]]]]; split; try reflexivity;
    (left; reflexivity) || (right; reflexivity).
Qed.

Lemma closer_unregistered :
  "paragraph_close"
  ∉ "inline" :: ["directive"; "directive_error"; "text"; "fence"]
      ++ appendedRules.
Proof.
  unfold appendedRules. simpl. rewrite !elem_of_cons, elem_of_nil.
  intuition discriminate.
Qed.

Lemma paragraph_pass_witness :
  Sample.rules !! "text" = Some Sample.textDefault
  /\ tokens (Sample.start Sample.threeLines 0 0)
     = [Sample.opener 0; Sample.inline 0 Sample.threeKids;
        mkToken "paragraph_close" None None [] EmptyString]
  /\ Sample.rules !! "paragraph_open" = None
  /\ Sample.rules !! "paragraph_close" = None
  /\ exists html w' starts,
       render Sample.renderToken
         (markdownSourceMap Sample.Math_random Sample.renderToken
            Sample.rules)
         (Sample.start Sample.threeLines 0 0) = Ok html w'
       /\ StronglySorted Z.lt starts
       /\ (forall a, a ∈ starts
                     <-> exists j c, Sample.threeKids !! j = Some c
                                     /\ isBreak c = false
                                     /\ a = 0 + visualLine Sample.threeKids j)
       /\ minted w' = (0 + length starts)%nat
       /\ lineMap (env w')
          = recordSpans Sample.Math_random 0 0 O starts ∅
       /\ (forall k,
              is_Some (lineMap (env w') !! k)
              <-> is_Some ((∅ : gmap Z string) !! k)
                  \/ exists j c,
                       Sample.threeKids !! j = Some c /\ isBreak c = false
                       /\ k = lineAt 0 0 (0 + visualLine Sample.threeKids j)).
Proof.
  split; [vm_compute; reflexivity|]. split; [reflexivity|].
  split; [reflexivity|]. split; [reflexivity|].
  exact (paragraph_pass_records_content_lines Sample.Math_random
           Sample.renderToken Sample.rules Sample.textDefault
           (Sample.opener 0) (Sample.inline 0 Sample.threeKids)
           (mkToken "paragraph_close" None None [] EmptyString)
           Sample.threeKids 0 1 (Sample.start Sample.threeLines 0 0)
           ltac:(vm_compute; reflexivity) sample_textDefault_quiet
           sample_softbreak_quiet sample_renderToken_quiet eq_refl
           (or_introl eq_refl) eq_refl eq_refl eq_refl eq_refl
           threeKids_kinds eq_refl closer_unregistered).
Defined.

Lemma fence_pass_witness :
  Sample.rules !! "fence" = Some Sample.fenceDefault
  /\ tokens (Sample.start Sample.fourLines 0 0) !! O
     = Some Sample.fourLinesFence
  /\ map Sample.fourLinesFence = Some (5, 11)
  /\ exists body w'',
       renderOne Sample.renderToken
         (markdownSourceMap Sample.Math_random Sample.renderToken
            Sample.rules)
         O (Sample.start Sample.fourLines 0 0)
       = Ok ("<pre><code"
               +:+ renderAttrs (attrSet SRC_LINE_ID "07" Sample.fourLinesFence)
               +:+ ">" +:+ body +:+ "</code></pre>" +:+ JS.str JS.newline)
            w''
       /\ minted w'' = 5%nat
       /\ lineMap (env w'') !! 5 = Some "07"
       /\ attrGet SRC_LINE_ID (attrSet SRC_LINE_ID "07" Sample.fourLinesFence)
          = Some "07"
       /\ forall k, is_Some (lineMap (env w'') !! k)
                    <-> is_Some ((∅ : gmap Z string) !! k) \/ 5 <= k <= 9.
Proof.
  split; [vm_compute; reflexivity|]. do 2 (split; [reflexivity|]).
  exact (fence_pass_records_fence_line_and_content_lines Sample.Math_random
           Sample.renderToken Sample.rules Sample.fenceDefault O
           (Sample.start Sample.fourLines 0 0) Sample.fourLinesFence 5 11 _
           ltac:(vm_compute; reflexivity) eq_refl eq_refl eq_refl eq_refl
           eq_refl).
Defined.
